(** * zed-jinja-universal: the registry scripts, embedded and verified

    A shallow embedding of the pure core of [scripts/common.py],
    [scripts/generate.py] and [scripts/sync_zed_languages.py], followed by
    theorems about detection tokens, source filters, provenance updates,
    backfilling, pattern classification and the persisted registry format.

    Conventions.
    - A Python [str] is a [string]; every [ascii] stands for the code point
      of the same number, so the model covers strings of code points below
      256.  Python compares strings by code point, which is the order of
      [String.compare].
    - A Python [dict] that is only looked up and updated is a [gmap]; the
      registry itself ([ConfigDict]) keeps its insertion order and is an
      association list with distinct keys.
    - A function that may exit or raise returns a [result]. *)

From Stdlib Require Import Strings.String Strings.Ascii ZArith List.
From stdpp Require Import base option list sorting gmap strings pretty.

Open Scope string_scope.
Open Scope list_scope.

Set Warnings "-register-all".

(** ** Python built-ins on strings and lists *)

Module Py.

(** [s.startswith(p)] *)
Fixpoint startswith (p s : string) : bool :=
  match p, s with
  | "", _ => true
  | String a p', String b s' => if decide (a = b) then startswith p' s' else false
  | String _ _, "" => false
  end.

(** [c in s] for a one-character [c] *)
Fixpoint contains (c : ascii) (s : string) : bool :=
  match s with
  | "" => false
  | String a s' => if decide (a = c) then true else contains c s'
  end.

(** [s.count(c)] for a one-character [c] *)
Fixpoint count (c : ascii) (s : string) : nat :=
  match s with
  | "" => 0
  | String a s' => (if decide (a = c) then 1 else 0) + count c s'
  end.

(** [str.isspace] on one code point below 256: the C0 separators
    U+0009..U+000D and U+001C..U+001F, the space, U+0085 and U+00A0. *)
Definition isspace (a : ascii) : bool :=
  let n := N_of_ascii a in
  ((9 <=? n) && (n <=? 13) || (28 <=? n) && (n <=? 32)
   || (n =? 133) || (n =? 160))%N.

Fixpoint lstrip (s : string) : string :=
  match s with
  | "" => ""
  | String a s' => if isspace a then lstrip s' else s
  end.

(** [rstrip] keeps a character when it is not a space or when something
    that survives follows it. *)
Fixpoint rstrip (s : string) : string :=
  match s with
  | "" => ""
  | String a s' =>
      match rstrip s' with
      | "" => if isspace a then "" else String a ""
      | r => String a r
      end
  end.

(** [s.strip()] *)
Definition strip (s : string) : string := rstrip (lstrip s).

(** [sep.join(parts)] *)
Definition join (sep : string) (parts : list string) : string :=
  String.concat sep parts.

(** [list(dict.fromkeys(keys))]: the keys of an insertion-ordered
    dictionary filled from left to right; storing a key that is already
    there keeps its position. *)
Definition dict_fromkeys (keys : list string) : list string :=
  foldl (λ seen k, if bool_decide (k ∈ seen) then seen else seen ++ [k])
        [] keys.

(** [sorted(keys)] on strings.  Python's sort is a stable merge sort and
    the order on [str] is total, so the result is the one sorted
    permutation. *)
Definition sorted (keys : list string) : list string :=
  merge_sort String.le keys.

(** [s.endswith(p)]: [s] is [p], or a proper tail of [s] ends with
    [p]. *)
Fixpoint endswith (p s : string) : bool :=
  bool_decide (s = p) ||
  match s with
  | "" => false
  | String _ s' => endswith p s'
  end.

(** [s[:-n]] for a positive [n]: the string without its last [n]
    characters, empty when it has no more than [n]. *)
Definition drop_last (n : nat) (s : string) : string :=
  String.substring 0 (String.length s - n) s.

(** [s.lstrip(chars)], [s.rstrip(chars)] and [s.strip(chars)]: the
    characters of [chars] are removed from the ends. *)
Fixpoint lstrip_chars (chars s : string) : string :=
  match s with
  | "" => ""
  | String a s' => if contains a chars then lstrip_chars chars s' else s
  end.

Fixpoint rstrip_chars (chars s : string) : string :=
  match s with
  | "" => ""
  | String a s' =>
      match rstrip_chars chars s' with
      | "" => if contains a chars then "" else String a ""
      | r => String a r
      end
  end.

Definition strip_chars (chars s : string) : string :=
  rstrip_chars chars (lstrip_chars chars s).

(** [str.lower] on one code point below 256: the letters U+0041..U+005A
    and U+00C0..U+00DE, without the multiplication sign U+00D7, move up
    by 32; the result is again below 256. *)
Definition lower_char (a : ascii) : ascii :=
  let n := N_of_ascii a in
  if ((65 <=? n) && (n <=? 90) || (192 <=? n) && (n <=? 222) && negb (n =? 215))%N
  then ascii_of_N (n + 32)
  else a.

Fixpoint lower (s : string) : string :=
  match s with
  | "" => ""
  | String a s' => String (lower_char a) (lower s')
  end.



End Py.

(** ** common.py: provenance tags *)

Module Source.

Inductive t := NATIVE | EXTENSION | EXTRA.

(** [StrEnum] with [auto()]: the value is the member name in lower case. *)
Definition value (s : t) : string :=
  match s with
  | NATIVE => "native"
  | EXTENSION => "extension"
  | EXTRA => "extra"
  end.

Definition all : list t := [NATIVE; EXTENSION; EXTRA].

End Source.

(** ** common.py *)

Module Common.

(** What [tomllib] can put into an entry: strings, integers, booleans
    and arrays.  (Floats, dates and nested tables are left out of the
    model.) *)
Inductive value :=
| VStr (s : string)
| VInt (n : Z)
| VBool (b : bool)
| VList (items : list value).

(** An entry of the registry at run time: [Mapping[str, object]]. *)
Abbreviation entry := (gmap string value).

(** [ConfigDict]: an insertion-ordered dictionary from [lang_id] to
    entry; [is_dict] says that the keys are distinct. *)
Abbreviation config := (list (string * gmap string value)).

Definition is_dict {A} (d : list (string * A)) : Prop := NoDup d.*1.

Definition keys {A} (d : list (string * A)) : list string := d.*1.

(** [d.get(k)] *)
Fixpoint dict_get {A} (d : list (string * A)) (k : string) : option A :=
  match d with
  | [] => None
  | (k', v) :: d' => if decide (k' = k) then Some v else dict_get d' k
  end.

(** Outcome of a call: a value, [SystemExit(1)] after the given lines
    were printed on stderr, or another exception. *)
Inductive result (A : Type) :=
| Ok (a : A)
| Exit (stderr : list string)
| Raise (exc : string).
Arguments Ok {A} a.
Arguments Exit {A} stderr.
Arguments Raise {A} exc.

Global Instance result_bind : MBind result := λ A B k r,
  match r with
  | Ok a => k a
  | Exit e => Exit e
  | Raise e => Raise e
  end.

Definition dquote : string := String "034"%char "".
Definition newline : string := String "010"%char "".
Definition backslash : string := String "092"%char "".

Definition quoted (s : string) : string := dquote +:+ s +:+ dquote.

(** *** [str] and [repr] of the modelled values *)

Definition hex_digit (n : N) : ascii :=
  match n with
  | 0 => "0" | 1 => "1" | 2 => "2" | 3 => "3" | 4 => "4" | 5 => "5"
  | 6 => "6" | 7 => "7" | 8 => "8" | 9 => "9" | 10 => "a" | 11 => "b"
  | 12 => "c" | 13 => "d" | 14 => "e" | _ => "f"
  end%N%char.

(** Code points below 256 that [str.isprintable] rejects: the controls
    U+0000..U+001F and U+007F..U+009F, the no-break space U+00A0 and the
    soft hyphen U+00AD. *)
Definition isprintable (a : ascii) : bool :=
  let n := N_of_ascii a in
  negb ((n <? 32) || (127 <=? n) && (n <=? 160) || (n =? 173))%N.

Definition repr_char (quote a : ascii) : string :=
  let n := N_of_ascii a in
  if decide (a = quote) then backslash +:+ String a ""
  else if decide (a = "092"%char) then backslash +:+ backslash
  else if decide (a = "009"%char) then backslash +:+ "t"
  else if decide (a = "010"%char) then backslash +:+ "n"
  else if decide (a = "013"%char) then backslash +:+ "r"
  else if isprintable a then String a ""
  else backslash +:+ String "x" (String (hex_digit (n / 16)) (String (hex_digit (n mod 16)) "")).

Fixpoint repr_body (quote : ascii) (s : string) : string :=
  match s with
  | "" => ""
  | String a s' => repr_char quote a +:+ repr_body quote s'
  end.

(** [repr(s)]: single quotes, unless the string holds a single quote and
    no double quote. *)
Definition repr_str (s : string) : string :=
  let quote :=
    if Py.contains "039" s && negb (Py.contains "034" s) then "034"%char else "039"%char in
  String quote (repr_body quote s) +:+ String quote "".

Fixpoint py_repr (v : value) : string :=
  match v with
  | VStr s => repr_str s
  | VInt n => pretty n
  | VBool b => if b then "True" else "False"
  | VList items => "[" +:+ Py.join ", " (map py_repr items) +:+ "]"
  end.

(** [str(v)], which is what an f-string field [{v}] inserts. *)
Definition py_str (v : value) : string :=
  match v with
  | VStr s => s
  | _ => py_repr v
  end.

Definition REQUIRED_LANG_FIELDS : list string := ["name"; "zed_language"].
Definition DETECTION_FIELDS : list string := ["extensions"; "suffixes"; "filenames"].

Definition str_list (l : list string) : value := VList (VStr <$> l).

(** [fail(message)] *)
Definition fail {A} (message : string) : result A :=
  Exit ["ERROR: " +:+ message].

(** [fail_many(errors)] *)
Definition fail_many {A} (errors : list string) : result A :=
  Exit ((λ err, "ERROR: " +:+ err) <$> errors).

Definition is_str (v : value) : bool :=
  match v with VStr _ => true | _ => false end.

(** [v in strs] for a list of strings: only an equal string is found. *)
Definition in_strings (v : value) (strs : list string) : bool :=
  match v with
  | VStr s => bool_decide (s ∈ strs)
  | _ => false
  end.

Definition validate_config_entry (lang_id : string) (info : entry) : list string :=
  let errors := [] in
  let errors := errors ++
    omap (λ field,
            match info !! field with
            | None => Some ("[" +:+ lang_id +:+ "] missing required field: " +:+ field)
            | Some _ => None
            end) REQUIRED_LANG_FIELDS in
  let errors := errors ++
    (if existsb (λ field, bool_decide (is_Some (info !! field))) DETECTION_FIELDS
     then []
     else ["[" +:+ lang_id +:+ "] missing detection fields: one of "
           +:+ py_str (str_list DETECTION_FIELDS) +:+ " is required"]) in
  let errors := errors ++
    omap (λ field,
            match info !! field with
            | None => None
            | Some (VList list_value) =>
                if existsb (λ item, negb (is_str item)) list_value
                then Some ("[" +:+ lang_id +:+ "] '" +:+ field +:+ "' must contain only strings")
                else None
            | Some _ => Some ("[" +:+ lang_id +:+ "] '" +:+ field +:+ "' must be a list")
            end) DETECTION_FIELDS in
  let errors := errors ++
    match info !! "source" with
    | None => []
    | Some src =>
        let valid_sources := Source.value <$> Source.all in
        if in_strings src valid_sources then []
        else ["[" +:+ lang_id +:+ "] invalid source '" +:+ py_str src
              +:+ "', must be one of: " +:+ py_str (str_list valid_sources)]
    end in
  errors.

(** [validate_config]: [not config] holds for the empty dictionary. *)
Definition validate_config (cfg : config) : result unit :=
  match cfg with
  | [] => fail "Config is empty"
  | _ :: _ =>
      let errors := flat_map (λ '(lang_id, info), validate_config_entry lang_id info) cfg in
      match errors with
      | [] => Ok tt
      | _ :: _ => fail_many errors
      end
  end.

(** *** [save_config] *)

(** The loop over [DETECTION_FIELDS]: the lines written and the
    [detection_written] flag. *)
Definition write_detection (info : entry) : list string * bool :=
  foldl (λ '(lines, detection_written) field,
           match info !! field with
           | None => (lines, detection_written)
           | Some (VList typed_values) =>
               let val_str := Py.join ", " ((λ e, quoted (py_str e)) <$> typed_values) in
               (lines ++ [field +:+ " = [" +:+ val_str +:+ "]"], true)
           | Some _ => (lines, detection_written)
           end)
        ([], false) DETECTION_FIELDS.

(** The lines of one entry; [info["name"]] and [info["zed_language"]]
    raise [KeyError] on a missing key. *)
Definition entry_lines (lang_id : string) (info : entry) : result (list string) :=
  match info !! "name" with
  | None => Raise "KeyError: 'name'"
  | Some name =>
      match info !! "zed_language" with
      | None => Raise "KeyError: 'zed_language'"
      | Some zed_language =>
          let lines := ["[" +:+ lang_id +:+ "]";
                        "name = " +:+ quoted (py_str name);
                        "zed_language = " +:+ quoted (py_str zed_language)] in
          let '(written, detection_written) := write_detection info in
          let lines := lines ++ written in
          let lines := if detection_written then lines else lines ++ ["extensions = []"] in
          let source := default (VStr (Source.value Source.EXTRA)) (info !! "source") in
          Ok (lines ++ ["source = " +:+ quoted (py_str source); ""])
      end
  end.

Definition header_lines : list string :=
  ["# Languages configuration for jinja-universal";
   "# source: native (Zed built-in), extension (Zed extension), extra (manual)";
   ""].

Fixpoint save_entries (cfg : config) (ids : list string) : result (list string) :=
  match ids with
  | [] => Ok []
  | lang_id :: ids' =>
      match dict_get cfg lang_id with
      | None => Raise ("KeyError: " +:+ repr_str lang_id)
      | Some info =>
          block ← entry_lines lang_id info;
          rest ← save_entries cfg ids';
          Ok (block ++ rest)
      end
  end.

(** [save_config]: the text handed to [CONFIG_PATH.write_text]. *)
Definition save_config (cfg : config) : result string :=
  lines ← save_entries cfg (Py.sorted (keys cfg));
  Ok (Py.join newline (header_lines ++ lines)).

(** *** The TOML reader

    Modelled from the spec: the TOML parser is an external capability that
    converts text to key/value structures; it is [tomllib.load] of Python's
    standard library, which is not part of the repository.  The model
    reads the fragment of TOML that [save_config] writes and a little
    more: blank lines, comment lines, [[key]] table headers and
    [key = value] lines with bare keys, where a value is a basic string
    (with the one-letter escapes) or a one-line array of basic strings.
    It returns [None] on every other text, be it malformed or a document
    with constructs that the model leaves out (numbers, dotted or quoted
    keys, literal and multi-line strings, unicode escapes, CR LF line
    ends, nested tables). *)

Inductive toml_item :=
| ITable (fields : gmap string value)
| IValue (v : value).

Inductive toml_line :=
| LBlank
| LHeader (key : string)
| LPair (key : string) (v : value).

(** The lines of a text, split at the line feeds. *)
Fixpoint split_lines (s : string) : list string :=
  match s with
  | "" => [""]
  | String a s' =>
      if decide (a = "010"%char) then "" :: split_lines s'
      else match split_lines s' with
           | line :: lines => String a line :: lines
           | [] => [String a ""]
           end
  end.

Definition is_ws (a : ascii) : bool :=
  bool_decide (a = " "%char) || bool_decide (a = "009"%char).

(** The control characters that TOML forbids in comments and basic
    strings: U+0000..U+001F without the tab, and U+007F. *)
Definition is_ctrl (a : ascii) : bool :=
  let n := N_of_ascii a in
  ((n <? 32) && negb (n =? 9) || (n =? 127))%N.

(** The characters of a bare key: ASCII letters and digits, [_] and [-]. *)
Definition is_bare (a : ascii) : bool :=
  let n := N_of_ascii a in
  ((65 <=? n) && (n <=? 90) || (97 <=? n) && (n <=? 122)
   || (48 <=? n) && (n <=? 57) || (n =? 95) || (n =? 45))%N.

Fixpoint skip_ws (s : string) : string :=
  match s with
  | "" => ""
  | String a s' => if is_ws a then skip_ws s' else s
  end.

(** The longest prefix of bare-key characters, and what follows it. *)
Fixpoint take_bare (s : string) : string * string :=
  match s with
  | "" => ("", "")
  | String a s' =>
      if is_bare a then let '(k, rest) := take_bare s' in (String a k, rest)
      else ("", s)
  end.

Fixpoint no_ctrl (s : string) : bool :=
  match s with
  | "" => true
  | String a s' => negb (is_ctrl a) && no_ctrl s'
  end.

(** After a header or a value only blanks and a comment may follow. *)
Definition line_end (s : string) : bool :=
  match skip_ws s with
  | "" => true
  | String a comment => bool_decide (a = "#"%char) && no_ctrl comment
  end.

Definition unescape (a : ascii) : option ascii :=
  if decide (a = "b"%char) then Some "008"%char
  else if decide (a = "t"%char) then Some "009"%char
  else if decide (a = "n"%char) then Some "010"%char
  else if decide (a = "f"%char) then Some "012"%char
  else if decide (a = "r"%char) then Some "013"%char
  else if decide (a = "034"%char) then Some "034"%char
  else if decide (a = "092"%char) then Some "092"%char
  else None.

(** The body of a basic string, read after the opening quote: the decoded
    content and the text after the closing quote. *)
Fixpoint basic_string (s : string) : option (string * string) :=
  match s with
  | "" => None
  | String a s' =>
      if decide (a = "034"%char) then Some ("", s')
      else if decide (a = "092"%char) then
        match s' with
        | "" => None
        | String e s'' =>
            c ← unescape e;
            '(content, rest) ← basic_string s'';
            Some (String c content, rest)
        end
      else if is_ctrl a then None
      else
        '(content, rest) ← basic_string s';
        Some (String a content, rest)
  end.

(** A basic string at the start of [s].  Three quotes open a multi-line
    string, which the model leaves out. *)
Definition quoted_string (s : string) : option (string * string) :=
  match s with
  | String a s' =>
      if decide (a = "034"%char) then
        if Py.startswith (dquote +:+ dquote) s' then None else basic_string s'
      else None
  | "" => None
  end.

(** The items of an array, read after the opening bracket.  Every item
    consumes characters, so the length of the text is fuel enough. *)
Fixpoint array_items (fuel : nat) (s : string) : option (list value * string) :=
  match fuel with
  | 0 => None
  | S fuel' =>
      match skip_ws s with
      | "" => None
      | String a rest as s1 =>
          if decide (a = "]"%char) then Some ([], rest)
          else
            '(item, rest) ← quoted_string s1;
            match skip_ws rest with
            | "" => None
            | String b rest' =>
                if decide (b = ","%char) then
                  '(items, rest'') ← array_items fuel' rest';
                  Some (VStr item :: items, rest'')
                else if decide (b = "]"%char) then Some ([VStr item], rest')
                else None
            end
      end
  end.

Definition parse_value (s : string) : option (value * string) :=
  match s with
  | "" => None
  | String a s' =>
      if decide (a = "["%char) then
        '(items, rest) ← array_items (String.length s') s';
        Some (VList items, rest)
      else
        '(content, rest) ← quoted_string s;
        Some (VStr content, rest)
  end.

(** The text after a key: [=], the value, and the end of the line. *)
Definition parse_assignment (key rest : string) : option toml_line :=
  match skip_ws rest with
  | "" => None
  | String a rest' =>
      if decide (a = "="%char) then
        '(v, rest'') ← parse_value (skip_ws rest');
        if line_end rest'' then Some (LPair key v) else None
      else None
  end.

(** The text after the opening bracket of a table header. *)
Definition parse_header (s : string) : option toml_line :=
  let '(key, rest) := take_bare (skip_ws s) in
  if bool_decide (key = "") then None
  else match skip_ws rest with
       | "" => None
       | String a rest' =>
           if decide (a = "]"%char) then
             if line_end rest' then Some (LHeader key) else None
           else None
       end.

Definition parse_line (line : string) : option toml_line :=
  match skip_ws line with
  | "" => Some LBlank
  | String a s' as s =>
      if decide (a = "#"%char) then
        if no_ctrl s' then Some LBlank else None
      else if decide (a = "["%char) then parse_header s'
      else
        let '(key, rest) := take_bare s in
        if bool_decide (key = "") then None else parse_assignment key rest
  end.

(** The document under construction: the finished items in document
    order and the table that is open. *)
Record toml_state := {
  finished : list (string * toml_item);
  open_table : option (string * gmap string value);
}.

Definition close_table (st : toml_state) : list (string * toml_item) :=
  match open_table st with
  | Some (key, fields) => finished st ++ [(key, ITable fields)]
  | None => finished st
  end.

(** One more line.  A key may be defined once in its table and a table
    once in the document. *)
Definition add_line (st : toml_state) (line : toml_line) : option toml_state :=
  match line with
  | LBlank => Some st
  | LHeader key =>
      let items := close_table st in
      if bool_decide (key ∈ items.*1) then None
      else Some {| finished := items; open_table := Some (key, ∅) |}
  | LPair key v =>
      match open_table st with
      | Some (table, fields) =>
          if bool_decide (is_Some (fields !! key)) then None
          else Some {| finished := finished st;
                       open_table := Some (table, <[key := v]> fields) |}
      | None =>
          if bool_decide (key ∈ (finished st).*1) then None
          else Some {| finished := finished st ++ [(key, IValue v)];
                       open_table := None |}
      end
  end.

Fixpoint add_lines (st : toml_state) (lines : list toml_line) : option toml_state :=
  match lines with
  | [] => Some st
  | line :: lines' => st' ← add_line st line; add_lines st' lines'
  end.

(** Modelled from the spec: the parser capability, [tomllib.loads] on the
    fragment described above; the items come in document order. *)
Definition toml_loads (text : string) : option (list (string * toml_item)) :=
  lines ← mapM parse_line (split_lines text);
  st ← add_lines {| finished := []; open_table := None |} lines;
  Some (close_table st).

(** *** [normalize_config] and [load_config] *)

(** A Python object handed to [normalize_config]: a dictionary, whose
    keys may or may not be strings, or something else. *)
Inductive raw_key := KStr (s : string) | KOther.
Inductive raw_object :=
| RDict (items : list (raw_key * toml_item))
| ROther.

Section paths.

(** [CONFIG_PATH], which depends on where the repository is checked out. *)
Variable CONFIG_PATH : string.

Fixpoint normalize_items (items : list (raw_key * toml_item)) : result config :=
  match items with
  | [] => Ok []
  | (raw_lang_id, raw_info) :: items' =>
      match raw_lang_id with
      | KOther =>
          fail ("Invalid config key type in " +:+ CONFIG_PATH +:+ ": expected string keys")
      | KStr lang_id =>
          match raw_info with
          | IValue _ =>
              fail ("Invalid config entry for [" +:+ lang_id +:+ "] in "
                    +:+ CONFIG_PATH +:+ ": expected table")
          | ITable info =>
              normalized ← normalize_items items';
              Ok ((lang_id, info) :: normalized)
          end
      end
  end.

Definition normalize_config (raw : raw_object) : result config :=
  match raw with
  | ROther => fail ("Invalid config format in " +:+ CONFIG_PATH +:+ ": expected TOML table")
  | RDict items => normalize_items items
  end.

(** [load_config]; [file] is the content of [CONFIG_PATH], [None] when
    the file does not exist.  Where the model of [tomllib] gives up, be it
    on a malformed text or on one outside the modelled fragment, the
    outcome is recorded as the parser's exception. *)
Definition load_config (file : option string) : result config :=
  match file with
  | None => Ok []
  | Some text =>
      match toml_loads text with
      | None => Raise "tomllib.TOMLDecodeError"
      | Some doc => normalize_config (RDict (prod_map KStr id <$> doc))
      end
  end.

Definition load_and_validate_config (file : option string) : result config :=
  match file with
  | None => fail ("Config file not found: " +:+ CONFIG_PATH)
  | Some _ =>
      cfg ← load_config file;
      _ ← validate_config cfg;
      Ok cfg
  end.

End paths.

(** [d[k] = v]: a key that is there keeps its position. *)
Fixpoint dict_set {A} (d : list (string * A)) (k : string) (v : A) : list (string * A) :=
  match d with
  | [] => [(k, v)]
  | (k', v') :: d' =>
      if decide (k' = k) then (k, v) :: d' else (k', v') :: dict_set d' k v
  end.

End Common.

(** ** generate.py *)

Module Generate.
Import Common.

(** [LanguageConfig] as the [TypedDict] declares it: [name] and
    [zed_language] are required, the other keys are [NotRequired], and
    [info.get(key)] is [None] exactly when the key is absent. *)
Record LanguageConfig := {
  name : string;
  zed_language : string;
  extensions : option (list string);
  suffixes : option (list string);
  filenames : option (list string);
  source : option string;
  enabled : option bool;
}.

(** [cast(LanguageConfig, raw_info)]: a run-time entry seen through the
    declared types, [None] when a field has another type than declared. *)
Definition as_str (v : value) : option string :=
  match v with VStr s => Some s | _ => None end.

Definition as_str_list (v : value) : option (list string) :=
  match v with VList items => mapM as_str items | _ => None end.

Definition as_bool (v : value) : option bool :=
  match v with VBool b => Some b | _ => None end.

(** A [NotRequired] key: absent, or present with a value of its type. *)
Definition not_required {A} (cast : value → option A) (field : option value)
  : option (option A) :=
  match field with
  | None => Some None
  | Some v => Some <$> cast v
  end.

Definition typed (info : entry) : option LanguageConfig :=
  name ← info !! "name" ≫= as_str;
  zed_language ← info !! "zed_language" ≫= as_str;
  extensions ← not_required as_str_list (info !! "extensions");
  suffixes ← not_required as_str_list (info !! "suffixes");
  filenames ← not_required as_str_list (info !! "filenames");
  source ← not_required as_str (info !! "source");
  enabled ← not_required as_bool (info !! "enabled");
  Some {| name := name; zed_language := zed_language; extensions := extensions;
          suffixes := suffixes; filenames := filenames; source := source;
          enabled := enabled |}.

Record GenerateArgs := {
  sort : bool;
  all : bool;
  native : bool;
  ext : bool;
}.

Definition JINJA_VARIANTS : list string := ["jinja"; "jinja2"; "j2"].
Definition EXCLUDE_LANGUAGES_WITHOUT_DETECTION : bool := true.

Definition get_detection_tokens (info : LanguageConfig) : list string :=
  match suffixes info, filenames info with
  | None, None =>
      match extensions info with
      | Some exts => exts
      | None => []
      end
  | sfx, fns =>
      let collected := [] in
      let collected := match sfx with Some l => collected ++ l | None => collected end in
      let collected := match fns with Some l => collected ++ l | None => collected end in
      Py.dict_fromkeys collected
  end.

(** A [Source] member is a [str] equal to its value, so both branches of
    the [isinstance] test return the stored string. *)
Definition normalize_source (info : LanguageConfig) : string :=
  match source info with
  | Some s => s
  | None => Source.value Source.EXTRA
  end.

(** [bool(list)] is true for a non-empty list. *)
Definition has_detection_tokens (info : LanguageConfig) : bool :=
  match get_detection_tokens info with
  | [] => false
  | _ :: _ => true
  end.

Definition should_include (info : LanguageConfig) (args : GenerateArgs) : bool :=
  if EXCLUDE_LANGUAGES_WITHOUT_DETECTION && negb (has_detection_tokens info) then false
  else if all args then true
  else
    let source := normalize_source info in
    if native args && bool_decide (source = Source.value Source.NATIVE) then true
    else if ext args && bool_decide (source = Source.value Source.EXTENSION) then true
    else if negb (native args) && negb (ext args) then
      bool_decide (source ∈ [Source.value Source.NATIVE; Source.value Source.EXTENSION])
    else false.

(** The registry as [generate.py] reads it, after the cast of
    [normalize_config]. *)
Abbreviation typed_config := (list (string * LanguageConfig)).

Definition generate_path_suffixes (extensions : list string) : list string :=
  Py.sorted extensions ≫= λ ext,
    (λ variant, ext +:+ "." +:+ variant) <$> JINJA_VARIANTS.






Definition infer_selected_source_categories (cfg : typed_config) (args : GenerateArgs)
  : list string :=
  let selected_sources : gset string :=
    list_to_set (normalize_source <$> List.filter (λ info, should_include info args) cfg.*2) in
  let ordered_sources :=
    [Source.value Source.NATIVE; Source.value Source.EXTENSION; Source.value Source.EXTRA] in
  let source_categories :=
    List.filter (λ source, bool_decide (source ∈ selected_sources)) ordered_sources in
  match source_categories with
  | [] => ["none"]
  | _ :: _ => source_categories
  end.

(** [sort_config]: the text written to [CONFIG_PATH] and the line
    printed; [file] is the content of [CONFIG_PATH] beforehand. *)
Definition sort_config (CONFIG_PATH : string) (file : option string)
  : result (string * string) :=
  config ← load_and_validate_config CONFIG_PATH file;
  text ← save_config config;
  Ok (text, "Sorted " +:+ pretty (length config) +:+ " languages in languages.toml").

End Generate.

(** ** sync_zed_languages.py *)

Module Sync.
Import Common.

Record LanguageInfo := {
  id : string;
  name : string;
  zed_language : string;
  extensions : list string;
  source : Source.t;
  syntax_signature : string;
}.

(** [s[1:]] *)
Definition drop_first (s : string) : string :=
  match s with
  | "" => ""
  | String _ s' => s'
  end.

(** The body of the loop of [extract_extensions]: the stripped suffix,
    or [None] when the iteration appends nothing. *)
Definition extract_extension (suffix : string) : option string :=
  let suffix := if Py.startswith "." suffix then drop_first suffix else suffix in
  let suffix :=
    if Py.startswith "*" suffix then
      let suffix := drop_first suffix in
      if Py.startswith "." suffix then drop_first suffix else suffix
    else suffix in
  if Py.contains "*" suffix || Py.contains "/" suffix then None
  else if bool_decide (suffix ≠ "") then Some suffix
  else None.

Definition extract_extensions (path_suffixes : list string) : list string :=
  let extensions :=
    foldl (λ extensions suffix,
             match extract_extension suffix with
             | Some ext => extensions ++ [ext]
             | None => extensions
             end) [] path_suffixes in
  Py.dict_fromkeys extensions.

Definition dedupe_strings (items : list string) : list string :=
  Py.dict_fromkeys items.

(** The three accumulators of [split_path_suffixes]. *)
Record buckets := {
  suffixes : list string;
  full_filenames : list string;
  other_patterns : list string;
}.

Definition split_step (acc : buckets) (raw_value : string) : buckets :=
  let value := Py.strip raw_value in
  if bool_decide (value = "") then acc
  else if Py.contains "/" value then
    {| suffixes := suffixes acc; full_filenames := full_filenames acc;
       other_patterns := other_patterns acc ++ [value] |}
  else if Py.contains "*" value then
    if Py.startswith "*." value && bool_decide (Py.count "*" value = 1) then
      {| suffixes := suffixes acc ++ [value]; full_filenames := full_filenames acc;
         other_patterns := other_patterns acc |}
    else
      {| suffixes := suffixes acc; full_filenames := full_filenames acc;
         other_patterns := other_patterns acc ++ [value] |}
  else if Py.startswith "." value then
    {| suffixes := suffixes acc ++ [value]; full_filenames := full_filenames acc;
       other_patterns := other_patterns acc |}
  else
    {| suffixes := suffixes acc; full_filenames := full_filenames acc ++ [value];
       other_patterns := other_patterns acc |}.

Definition split_path_suffixes (path_suffixes : list string)
  : list string * list string * list string :=
  let acc := foldl split_step
               {| suffixes := []; full_filenames := []; other_patterns := [] |}
               path_suffixes in
  (dedupe_strings (suffixes acc), dedupe_strings (full_filenames acc),
   dedupe_strings (other_patterns acc)).

(** Hashing a value, as [v in ids] and [d.get(v)] do before they look it
    up: a list is unhashable.  A hashable value that is not a string is
    equal to no string key. *)
Definition hashed (v : value) : result (option string) :=
  match v with
  | VStr s => Ok (Some s)
  | VInt _ | VBool _ => Ok None
  | VList _ => Raise "TypeError: unhashable type: 'list'"
  end.

(** [info.get("zed_language", lang_id)] *)
Definition zed_lang_of (lang_id : string) (info : entry) : value :=
  default (VStr lang_id) (info !! "zed_language").

Definition classify (key : option string) (native_ids ext_ids : gset string) : Source.t :=
  match key with
  | Some z =>
      if bool_decide (z ∈ native_ids) then Source.NATIVE
      else if bool_decide (z ∈ ext_ids) then Source.EXTENSION
      else Source.EXTRA
  | None => Source.EXTRA
  end.

(** One iteration of [update_sources]: the entry afterwards and whether
    it was counted. *)
Definition update_source (lang_id : string) (info : entry)
    (native_ids ext_ids : gset string) : result (entry * bool) :=
  key ← hashed (zed_lang_of lang_id info);
  let new_source := classify key native_ids ext_ids in
  match info !! "source" with
  | Some (VStr current) =>
      if decide (current = Source.value new_source) then Ok (info, false)
      else Ok (<["source" := VStr (Source.value new_source)]> info, true)
  | _ => Ok (<["source" := VStr (Source.value new_source)]> info, true)
  end.

(** [update_sources] mutates the entries in place; the model returns the
    registry afterwards together with the count. *)
Fixpoint update_sources (cfg : config) (native_ids ext_ids : gset string)
  : result (config * nat) :=
  match cfg with
  | [] => Ok ([], 0)
  | (lang_id, info) :: cfg' =>
      '(info', changed) ← update_source lang_id info native_ids ext_ids;
      '(rest, updated) ← update_sources cfg' native_ids ext_ids;
      Ok ((lang_id, info') :: rest, (if changed : bool then 1 else 0) + updated)
  end.

Definition nonempty_strings (values : list value) : list string :=
  omap (λ v, match v with
             | VStr s => if bool_decide (s ≠ "") then Some s else None
             | _ => None
             end) values.

Definition get_config_detection_tokens (info : entry) : list string :=
  foldl (λ tokens key,
           match info !! key with
           | Some (VList values) => tokens ++ nonempty_strings values
           | _ => tokens
           end) [] ["suffixes"; "filenames"; "extensions"].

(** One iteration of [backfill_missing_detection_tokens]. *)
Definition backfill_entry (lang_id : string) (info : entry)
    (zed_by_lang : gmap string LanguageInfo) : result (entry * bool) :=
  match get_config_detection_tokens info with
  | _ :: _ => Ok (info, false)
  | [] =>
      key ← hashed (zed_lang_of lang_id info);
      match key ≫= (zed_by_lang !!.) with
      | None => Ok (info, false)
      | Some zed_info =>
          match extensions zed_info with
          | [] => Ok (info, false)
          | exts => Ok (<["extensions" := str_list exts]> info, true)
          end
      end
  end.

Fixpoint backfill_missing_detection_tokens (cfg : config)
    (zed_by_lang : gmap string LanguageInfo) : result (config * nat) :=
  match cfg with
  | [] => Ok ([], 0)
  | (lang_id, info) :: cfg' =>
      '(info', changed) ← backfill_entry lang_id info zed_by_lang;
      '(rest, updated) ← backfill_missing_detection_tokens cfg' zed_by_lang;
      Ok ((lang_id, info') :: rest, (if changed : bool then 1 else 0) + updated)
  end.

Global Instance source_eq_dec : EqDecision Source.t.
Proof. solve_decision. Defined.

(** [SyncArgs]; the flags [list] and [classify] are [list_mode] and
    [classify_mode] here, where the plain names are taken. *)
Record SyncArgs := {
  list_mode : bool;
  add : bool;
  diff : bool;
  classify_mode : bool;
  classify_json : option string;
  native : bool;
  ext : bool;
}.

(** [flatten_string_list]: one item and, below it, the loop over the
    items. *)
Fixpoint flatten_item (item : value) : list string :=
  match item with
  | VStr s => [s]
  | VList items => flat_map flatten_item items
  | _ => []
  end.

Definition flatten_string_list (items : list value) : list string :=
  flat_map flatten_item items.

Definition normalize_repo_url (repo_url : string) : string :=
  let normalized := Py.rstrip_chars "/" (Py.strip repo_url) in
  let normalized :=
    if Py.endswith ".git" normalized then Py.drop_last 4 normalized else normalized in
  Py.lower normalized.

(** [make_repository_signature]; [not path] holds for [None] and for the
    empty string. *)
Definition make_repository_signature (repository : string) (path : option string)
  : string :=
  let normalized_repository := normalize_repo_url repository in
  match path with
  | None | Some "" => normalized_repository
  | Some path =>
      let normalized_path := Py.lower (Py.strip_chars "/" (Py.strip path)) in
      if bool_decide (normalized_path ≠ "")
      then normalized_repository +:+ "#" +:+ normalized_path
      else normalized_repository
  end.

(** The pair [(kept, skipped)]. *)
Definition filter_extensions_reusing_native_syntax (native_signatures : gset string)
    (ext_langs : list LanguageInfo) : list LanguageInfo * list LanguageInfo :=
  foldl (λ '(kept, skipped) lang,
           if bool_decide (syntax_signature lang ≠ "")
              && bool_decide (syntax_signature lang ∈ native_signatures)
           then (kept, skipped ++ [lang])
           else (kept ++ [lang], skipped))
        ([], []) ext_langs.

Definition map_zed_languages (native_langs ext_langs : list LanguageInfo)
  : gmap string LanguageInfo :=
  foldl (λ zed_by_lang lang,
           if negb (bool_decide (is_Some (zed_by_lang !! zed_language lang)))
              || bool_decide (source lang = Source.NATIVE)
           then <[zed_language lang := lang]> zed_by_lang
           else zed_by_lang)
        ∅ (native_langs ++ ext_langs).

(** The set [existing_zed_langs] of [add_missing_languages], as far as
    its members can be equal to a string; building it hashes every
    value. *)
Fixpoint existing_zed_langs (cfg : config) : result (gset string) :=
  match cfg with
  | [] => Ok ∅
  | (lid, info) :: cfg' =>
      key ← hashed (zed_lang_of lid info);
      rest ← existing_zed_langs cfg';
      Ok (match key with
          | Some z => {[ z ]} ∪ rest
          | None => rest
          end)
  end.

(** The entry that [add_missing_languages] stores for a language. *)
Definition new_entry (lang : LanguageInfo) : entry :=
  <["name" := VStr (name lang)]>
    (<["zed_language" := VStr (zed_language lang)]>
      (<["extensions" := str_list (extensions lang)]>
        {[ "source" := VStr (Source.value (source lang)) ]})).

(** [add_missing_languages] mutates the registry; the model returns the
    registry afterwards together with the count. *)
Definition add_missing_languages (cfg : config) (all_zed_langs : list LanguageInfo)
    (args : SyncArgs) : result (config * nat) :=
  if negb (add args) then Ok (cfg, 0)
  else
    existing ← existing_zed_langs cfg;
    Ok (foldl (λ '(cfg, added) lang,
                 if native args && negb (ext args)
                    && bool_decide (source lang ≠ Source.NATIVE) then (cfg, added)
                 else if ext args && negb (native args)
                         && bool_decide (source lang ≠ Source.EXTENSION) then (cfg, added)
                 else if bool_decide (zed_language lang ∈ existing) then (cfg, added)
                 else (dict_set cfg (id lang) (new_entry lang), added + 1))
              (cfg, 0) all_zed_langs).

(** [by_source[key] += 1] raises [KeyError] for a key that is not in the
    dictionary and [TypeError] for a list. *)
Definition count_source (by_source : gmap string nat) (key : value)
  : result (gmap string nat) :=
  match key with
  | VStr s =>
      match by_source !! s with
      | Some n => Ok (<[s := n + 1]> by_source)
      | None => Raise ("KeyError: " +:+ repr_str s)
      end
  | VList _ => Raise "TypeError: unhashable type: 'list'"
  | v => Raise ("KeyError: " +:+ py_repr v)
  end.

Fixpoint count_sources_from (by_source : gmap string nat) (cfg : config)
  : result (gmap string nat) :=
  match cfg with
  | [] => Ok by_source
  | (_, info) :: cfg' =>
      by_source ←
        count_source by_source
          (default (VStr (Source.value Source.EXTRA)) (info !! "source"));
      count_sources_from by_source cfg'
  end.

Definition count_sources (cfg : config) : result (gmap string nat) :=
  count_sources_from
    (<[Source.value Source.NATIVE := 0]>
      (<[Source.value Source.EXTENSION := 0]> {[ Source.value Source.EXTRA := 0 ]}))
    cfg.

(** The pair [(fetch_native, fetch_ext)]. *)
Definition get_fetch_flags (args : SyncArgs) : bool * bool :=
  if negb (native args) && negb (ext args) then (true, true)
  else
    let fetch_native := negb (ext args) || native args in
    let fetch_ext := negb (native args) || ext args in
    (fetch_native, fetch_ext).

(** [fetch_zed_languages]; the two arguments are the outcomes of
    [get_native_languages()] and [get_extension_languages()], which read
    the cloned repositories and the network and are called only for a
    kind that is fetched. *)
Definition fetch_zed_languages
    (get_native_languages get_extension_languages : result (list LanguageInfo))
    (fetch_native fetch_ext : bool) : result (list LanguageInfo * list LanguageInfo) :=
  native_langs ← (if fetch_native then get_native_languages else Ok []);
  ext_langs ← (if fetch_ext then get_extension_languages else Ok []);
  Ok (native_langs, ext_langs).

End Sync.

(** ** Notions of the specification

    The definitions of this module are what the theorems are stated with.
    They follow the words of the specification (first occurrences, the
    provenance rule, detection tokens, pattern classes, the layout of the
    registry file), not the code; the theorems compare the two. *)

Module Spec.
Import Common.

(** "Duplicates removed keeping first occurrence": the element at
    position [i] stays exactly when it occurs at no earlier position
    (nor in [pre], the elements that came before the list). *)
Definition unseen_at (pre l : list string) (i : nat) (x : string) : option string :=
  if bool_decide (x ∈ pre ++ take i l) then None else Some x.

Definition first_occurrences_after (pre l : list string) : list string :=
  omap id (imap (unseen_at pre l) l).

Definition first_occurrences (l : list string) : list string :=
  first_occurrences_after [] l.

(** The non-empty trimmed patterns of a list, in order. *)
Definition trimmed (path_suffixes : list string) : list string :=
  List.filter (λ v, bool_decide (v ≠ "")) (Py.strip <$> path_suffixes).

(** The three classes of patterns, as the code separates them. *)
Definition is_suffix_pattern (v : string) : bool :=
  negb (Py.contains "/" v) &&
  (if Py.contains "*" v
   then Py.startswith "*." v && bool_decide (Py.count "*" v = 1)
   else Py.startswith "." v).

Definition is_full_filename (v : string) : bool :=
  negb (Py.contains "/" v) && negb (Py.contains "*" v) && negb (Py.startswith "." v).

Definition is_other_pattern (v : string) : bool :=
  Py.contains "/" v ||
  (Py.contains "*" v && negb (Py.startswith "*." v && bool_decide (Py.count "*" v = 1))).

(** The provenance rule of the reconciliation engine, on the key that
    [update_sources] compares: the entry's [zed_language], or its
    [lang_id] when the entry has none. *)
Definition expected_source (lang_id : string) (info : entry)
    (native_ids ext_ids : gset string) : string :=
  match default (VStr lang_id) (info !! "zed_language") with
  | VStr z =>
      if bool_decide (z ∈ native_ids) then "native"
      else if bool_decide (z ∈ ext_ids) then "extension"
      else "extra"
  | _ => "extra"
  end.

(** An entry holds a detection token when one of its detection fields is
    a list with a non-empty string in it. *)
Definition holds_token (info : entry) : Prop :=
  ∃ field items s,
    field ∈ DETECTION_FIELDS ∧ info !! field = Some (VList items) ∧
    VStr s ∈ items ∧ s ≠ "".

(** A remote match with non-empty extensions: the record that
    [zed_by_lang] holds under the entry's [zed_language] (its [lang_id]
    when the entry has none). *)
Definition remote_match (lang_id : string) (info : entry)
    (zed_by_lang : gmap string Sync.LanguageInfo) (zed_info : Sync.LanguageInfo) : Prop :=
  ∃ z, default (VStr lang_id) (info !! "zed_language") = VStr z ∧
       zed_by_lang !! z = Some zed_info ∧ Sync.extensions zed_info ≠ [].

(** The line [field = ["a", "b"]] of a detection list in the registry
    file. *)
Definition list_line (field : string) (items : list value) : string :=
  field +:+ " = [" +:+ Py.join ", " ((λ e, quoted (py_str e)) <$> items) +:+ "]".

(** The items of a detection field that is present and well formed (a
    list). *)
Definition well_formed_list (info : entry) (field : string) : option (list value) :=
  match info !! field with
  | Some (VList items) => Some items
  | _ => None
  end.

(** The detection lines of an entry: one line for each well-formed
    detection list, and [extensions = []] when there is none. *)
Definition detection_lines (info : entry) : list string :=
  match
    flat_map (λ field,
                match well_formed_list info field with
                | Some items => [list_line field items]
                | None => []
                end) DETECTION_FIELDS
  with
  | [] => ["extensions = []"]
  | written => written
  end.

(** The lines of one entry in the registry file. *)
Definition entry_block (lang_id : string) (name zed_language : value) (info : entry)
  : list string :=
  ["[" +:+ lang_id +:+ "]";
   "name = " +:+ quoted (py_str name);
   "zed_language = " +:+ quoted (py_str zed_language)]
  ++ detection_lines info
  ++ ["source = " +:+ quoted (py_str (default (VStr "extra") (info !! "source"))); ""].

(** The values that can be looked up in a set or dictionary of
    strings. *)
Definition hashable (v : value) : Prop :=
  match v with VList _ => False | _ => True end.

(** *** Registries that survive the trip through the file

    [save_config] writes strings between double quotes without escaping
    them, and [lang_id]s as bare table names.  A string is plain when it
    has no double quote, no backslash and no control character other than
    the tab; a key is bare when it is a non-empty word of ASCII letters,
    digits, [_] and [-]. *)

Fixpoint string_forall (p : ascii → bool) (s : string) : bool :=
  match s with
  | "" => true
  | String a s' => p a && string_forall p s'
  end.

Definition plain_char (a : ascii) : bool :=
  negb (is_ctrl a) && negb (bool_decide (a = "034"%char))
  && negb (bool_decide (a = "092"%char)).

Definition is_plain (s : string) : bool := string_forall plain_char s.

Definition is_bare_key (k : string) : bool :=
  bool_decide (k ≠ "") && string_forall is_bare k.

Definition plain_value (v : value) : bool :=
  match v with
  | VStr s => is_plain s
  | _ => false
  end.

(** A detection field is plain when it is absent, or malformed, or a list
    of plain strings. *)
Definition plain_field (info : entry) (field : string) : bool :=
  match info !! field with
  | Some (VList items) => forallb plain_value items
  | _ => true
  end.

Definition plain_entry (info : entry) : bool :=
  from_option plain_value false (info !! "name")
  && from_option plain_value false (info !! "zed_language")
  && forallb (plain_field info) DETECTION_FIELDS
  && from_option plain_value true (info !! "source").

Definition plain_config (cfg : config) : bool :=
  forallb (λ item, is_bare_key item.1 && plain_entry item.2) cfg.

(** What the file retains of an entry, as key/value pairs in the order of
    the lines, and as an entry again. *)
Definition detection_pairs (info : entry) : list (string * value) :=
  match
    flat_map (λ field,
                match well_formed_list info field with
                | Some items => [(field, VList items)]
                | None => []
                end) DETECTION_FIELDS
  with
  | [] => [("extensions", VList [])]
  | written => written
  end.

Definition entry_pairs (info : entry) : list (string * value) :=
  [("name", VStr (py_str (default (VStr "") (info !! "name"))));
   ("zed_language", VStr (py_str (default (VStr "") (info !! "zed_language"))))]
  ++ detection_pairs info
  ++ [("source", VStr (py_str (default (VStr "extra") (info !! "source"))))].

Definition canonical (info : entry) : entry :=
  foldl (λ fields pair, <[pair.1 := pair.2]> fields) ∅ (entry_pairs info).

(** The entries of a registry under the given keys, in that order. *)
Definition lookup_all (cfg : config) (ids : list string) : config :=
  omap (λ lang_id, pair lang_id <$> dict_get cfg lang_id) ids.

(** The registry in the order of the file. *)
Definition in_file_order (cfg : config) : config :=
  lookup_all cfg (Py.sorted (keys cfg)).

Definition block_of (item : string * entry) : list string :=
  entry_block item.1 (default (VStr "") (item.2 !! "name"))
    (default (VStr "") (item.2 !! "zed_language")) item.2.

(** The line of one key/value pair, the pairs that can be read back, and
    the lines of an entry as the reader sees them. *)
Definition pair_line (pair : string * value) : string :=
  match pair.2 with
  | VList items => list_line pair.1 items
  | v => pair.1 +:+ " = " +:+ quoted (py_str v)
  end.

Definition plain_pair (pair : string * value) : bool :=
  is_bare_key pair.1 &&
  match pair.2 with
  | VStr s => is_plain s
  | VList items => forallb plain_value items
  | _ => false
  end.

Definition block_lines (item : string * entry) : list toml_line :=
  LHeader item.1 :: ((λ pair, LPair pair.1 pair.2) <$> entry_pairs item.2) ++ [LBlank].

Definition canonical_item (item : string * entry) : string * entry :=
  (item.1, canonical item.2).

(** *** Notions for the theorems on the remaining functions

    These are not wordings of the specification: they name what the code
    checks, so that the theorems about it can be stated. *)

(** An entry whose source, [extra] when it has none, is one of the three
    provenance tags; [source_is s] tells whether it is the tag [s]. *)
Definition has_valid_source (info : entry) : Prop :=
  ∃ s, default (VStr "extra") (info !! "source") = VStr s
       ∧ s ∈ ["native"; "extension"; "extra"].

Definition source_is (s : string) (info : entry) : bool :=
  match default (VStr "extra") (info !! "source") with
  | VStr s' => bool_decide (s' = s)
  | _ => false
  end.

(** What the registry validation asks of an entry: a name, a language,
    at least one detection field, every detection field that is present
    a list of strings, and a source that is absent or one of the three
    tags. *)
Definition accepted (info : entry) : Prop :=
  is_Some (info !! "name") ∧ is_Some (info !! "zed_language") ∧
  (∃ field, field ∈ DETECTION_FIELDS ∧ is_Some (info !! field)) ∧
  (∀ field v, field ∈ DETECTION_FIELDS → info !! field = Some v →
     ∃ strs, v = str_list strs) ∧
  has_valid_source info.

(** The remote languages that [add_missing_languages] stores: those that
    pass the source filter of the flags and whose [zed_language] no entry
    of the registry names. *)
Definition passes_filter (args : Sync.SyncArgs) (lang : Sync.LanguageInfo) : bool :=
  match Sync.native args, Sync.ext args with
  | true, false => bool_decide (Sync.source lang = Source.NATIVE)
  | false, true => bool_decide (Sync.source lang = Source.EXTENSION)
  | _, _ => true
  end.

Definition is_missing (args : Sync.SyncArgs) (existing : gset string)
    (lang : Sync.LanguageInfo) : bool :=
  passes_filter args lang && bool_decide (Sync.zed_language lang ∉ existing).

(** *** The checks of the registry validation

    "Checks required fields [name], [zed_language] present; checks at
    least one of the three detection fields present; checks each
    detection-field value is a list of strings (reports field-specific
    errors); checks [source], if present, is one of the three valid
    provenance tags."  A violation is a check that an entry fails;
    [violations] lists them in the order of the checks, [violates] says
    when an entry fails one, and [report] is the error that names it. *)
Inductive violation :=
| MissingRequired (field : string)
| MissingDetection
| NotAList (field : string)
| NotOnlyStrings (field : string)
| InvalidSource.

Definition violations : list violation :=
  [MissingRequired "name"; MissingRequired "zed_language"; MissingDetection;
   NotAList "extensions"; NotOnlyStrings "extensions";
   NotAList "suffixes"; NotOnlyStrings "suffixes";
   NotAList "filenames"; NotOnlyStrings "filenames";
   InvalidSource].

Definition violates (info : entry) (v : violation) : Prop :=
  match v with
  | MissingRequired field => info !! field = None
  | MissingDetection =>
      info !! "extensions" = None ∧ info !! "suffixes" = None ∧ info !! "filenames" = None
  | NotAList field => ∃ value, info !! field = Some value ∧ ∀ items, value ≠ VList items
  | NotOnlyStrings field =>
      ∃ items item, info !! field = Some (VList items) ∧ item ∈ items ∧ ∀ s, item ≠ VStr s
  | InvalidSource =>
      ∃ source, info !! "source" = Some source ∧
                ∀ s, source = VStr s → s ∉ ["native"; "extension"; "extra"]
  end.

Definition report (lang_id : string) (info : entry) (v : violation) : string :=
  match v with
  | MissingRequired field => "[" +:+ lang_id +:+ "] missing required field: " +:+ field
  | MissingDetection =>
      "[" +:+ lang_id +:+ "] missing detection fields: one of "
      +:+ "['extensions', 'suffixes', 'filenames'] is required"
  | NotAList field => "[" +:+ lang_id +:+ "] '" +:+ field +:+ "' must be a list"
  | NotOnlyStrings field =>
      "[" +:+ lang_id +:+ "] '" +:+ field +:+ "' must contain only strings"
  | InvalidSource =>
      "[" +:+ lang_id +:+ "] invalid source '"
      +:+ py_str (default (VStr "") (info !! "source"))
      +:+ "', must be one of: ['native', 'extension', 'extra']"
  end.

End Spec.

(** ** Theorems *)

Import Common Spec.

(** Closes an equation between closed terms by evaluating both sides. *)
Ltac by_evaluation :=
  lazymatch goal with
  | |- ?lhs = _ => vm_cast_no_check (@eq_refl _ lhs)
  end.

(** *** [dict.fromkeys] *)

Section dict_fromkeys.

Local Abbreviation step :=
  (λ (seen : list string) (k : string), if bool_decide (k ∈ seen) then seen else seen ++ [k]).

Lemma first_occurrences_after_nil pre : first_occurrences_after pre [] = [].
Proof. reflexivity. Qed.

Lemma first_occurrences_after_cons pre x l :
  first_occurrences_after pre (x :: l) =
    (if bool_decide (x ∈ pre) then [] else [x]) ++ first_occurrences_after (pre ++ [x]) l.
Proof.
  unfold first_occurrences_after. rewrite imap_cons. cbn [omap list_omap].
  replace (imap (unseen_at pre (x :: l) ∘ S) l) with (imap (unseen_at (pre ++ [x]) l) l).
  - unfold unseen_at at 1. rewrite take_0, app_nil_r.
    destruct (bool_decide (x ∈ pre)); reflexivity.
  - apply imap_ext. intros i y _. unfold unseen_at. simpl.
    rewrite <- app_assoc. reflexivity.
Qed.

Lemma foldl_fromkeys seen pre l :
  (∀ x, x ∈ seen ↔ x ∈ pre) →
  foldl step seen l = seen ++ first_occurrences_after pre l.
Proof.
  revert seen pre. induction l as [|x l IH]; intros seen pre Hmem.
  - rewrite first_occurrences_after_nil, app_nil_r. reflexivity.
  - rewrite first_occurrences_after_cons. cbn [foldl].
    destruct (bool_decide_reflect (x ∈ seen)) as [Hin|Hout].
    + rewrite bool_decide_true by (apply Hmem, Hin).
      apply IH. intros y. rewrite elem_of_app, list_elem_of_singleton, <- Hmem.
      split; [auto|]. intros [?| ->]; assumption.
    + rewrite bool_decide_false by (rewrite <- Hmem; exact Hout).
      rewrite (IH (seen ++ [x]) (pre ++ [x])).
      * rewrite <- app_assoc. reflexivity.
      * intros y. rewrite !elem_of_app, Hmem. reflexivity.
Qed.

(** The code's dictionary and the specification's wording agree. *)
Lemma dict_fromkeys_first_occurrences l :
  Py.dict_fromkeys l = first_occurrences l.
Proof. unfold Py.dict_fromkeys. rewrite (foldl_fromkeys [] []); done. Qed.

Lemma foldl_fromkeys_NoDup seen l :
  NoDup seen → NoDup (foldl step seen l).
Proof.
  revert seen. induction l as [|x l IH]; intros seen Hnd; [exact Hnd|].
  cbn [foldl]. apply IH. case_bool_decide; [exact Hnd|].
  apply NoDup_app. split; [exact Hnd|]. split.
  - intros y Hy ->%list_elem_of_singleton. contradiction.
  - apply NoDup_singleton.
Qed.

Lemma foldl_fromkeys_elem seen l x :
  x ∈ foldl step seen l ↔ x ∈ seen ∨ x ∈ l.
Proof.
  revert seen. induction l as [|y l IH]; intros seen; cbn [foldl].
  - rewrite elem_of_nil. tauto.
  - rewrite IH, elem_of_cons. case_bool_decide as Hy.
    + split; [tauto|]. intros [?|[->|?]]; auto.
    + rewrite elem_of_app, list_elem_of_singleton. tauto.
Qed.

Lemma dict_fromkeys_NoDup l : NoDup (Py.dict_fromkeys l).
Proof. apply foldl_fromkeys_NoDup, NoDup_nil_2. Qed.

Lemma dict_fromkeys_elem l x : x ∈ Py.dict_fromkeys l ↔ x ∈ l.
Proof. unfold Py.dict_fromkeys. rewrite foldl_fromkeys_elem, elem_of_nil. tauto. Qed.

Lemma dict_fromkeys_NoDup_id l : NoDup l → Py.dict_fromkeys l = l.
Proof.
  intros Hnd. unfold Py.dict_fromkeys.
  enough (∀ seen, NoDup (seen ++ l) → foldl step seen l = seen ++ l) as H
    by (apply (H []), Hnd). clear Hnd.
  induction l as [|x l IH]; intros seen Hnd; cbn [foldl].
  - rewrite app_nil_r. reflexivity.
  - apply NoDup_app in Hnd as (Hs & Hdisj & Hl).
    rewrite bool_decide_false by (intros Hx; apply (Hdisj x Hx); left).
    rewrite IH, <- app_assoc; [reflexivity|].
    rewrite <- app_assoc. apply NoDup_app. split; [exact Hs|]. split; [|exact Hl].
    exact Hdisj.
Qed.

End dict_fromkeys.

(** *** generate.py: detection tokens and the source filter *)

Section generate.
Import Generate.

(** C4. [get_detection_tokens]: when [suffixes] or [filenames] is
    present (an empty list counts), the tokens are the suffixes followed
    by the filenames with duplicates removed, first occurrences kept, and
    [extensions] plays no part; otherwise they are the [extensions], or
    the empty list when that field is absent too. *)
Theorem get_detection_tokens_rule (info : LanguageConfig) :
  get_detection_tokens info =
    if bool_decide (is_Some (suffixes info) ∨ is_Some (filenames info))
    then first_occurrences (default [] (suffixes info) ++ default [] (filenames info))
    else default [] (extensions info).
Proof.
  unfold get_detection_tokens.
  destruct (suffixes info) as [sfx|], (filenames info) as [fns|];
    case_bool_decide as Hp; cbn [default app];
    try (exfalso; apply Hp; eauto; fail);
    try apply dict_fromkeys_first_occurrences.
  - rewrite app_nil_r. apply dict_fromkeys_first_occurrences.
  - destruct Hp as [[? [=]]|[? [=]]].
  - destruct (extensions info); reflexivity.
Qed.

(** The tokens of the explicit form never repeat. *)
Lemma get_detection_tokens_NoDup (info : LanguageConfig) :
  is_Some (suffixes info) ∨ is_Some (filenames info) →
  NoDup (get_detection_tokens info).
Proof.
  intros H. unfold get_detection_tokens.
  destruct (suffixes info), (filenames info); simpl;
    try apply dict_fromkeys_NoDup.
  destruct H as [[? [=]]|[? [=]]].
Qed.

Lemma has_detection_tokens_true (info : LanguageConfig) :
  has_detection_tokens info = true ↔ get_detection_tokens info ≠ [].
Proof.
  unfold has_detection_tokens. destruct (get_detection_tokens info); split; try done.
Qed.

(** C1, as the code has it.  With [--native] and [--ext] both set and
    [--all] unset, [should_include] keeps exactly the entries that have a
    detection token and whose source is [native] or [extension]. *)
Theorem should_include_native_and_ext (info : LanguageConfig) (args : GenerateArgs) :
  native args = true → ext args = true → all args = false →
  should_include info args = true ↔
    get_detection_tokens info ≠ [] ∧
    (normalize_source info = "native" ∨ normalize_source info = "extension").
Proof.
  intros Hn He Ha. unfold should_include. rewrite Hn, He, Ha.
  rewrite <- has_detection_tokens_true.
  destruct (has_detection_tokens info); cbn -[normalize_source];
    [|split; [done|intros [[=] _]]].
  destruct (bool_decide_reflect (normalize_source info = "native")) as [H1|H1];
    [tauto|].
  destruct (bool_decide_reflect (normalize_source info = "extension")) as [H2|H2];
    [tauto|].
  split; [done|]. intros [_ [?|?]]; contradiction.
Qed.

Lemma should_include_native_and_ext_witness :
  let info := {| name := "Python"; zed_language := "python";
                 extensions := Some ["py"]; suffixes := None; filenames := None;
                 source := Some "extension"; enabled := None |} in
  let args := {| sort := false; all := false; native := true; ext := true |} in
  should_include info args = true ↔
    get_detection_tokens info ≠ [] ∧
    (normalize_source info = "native" ∨ normalize_source info = "extension").
Proof.
  intros info args.
  apply (should_include_native_and_ext info args); reflexivity.
Defined.

(** C1 as written fails: a native entry with a token is kept when both
    filters are set. *)
Lemma should_include_native_and_ext_keeps_native :
  let info := {| name := "Python"; zed_language := "python";
                 extensions := Some ["py"]; suffixes := None; filenames := None;
                 source := Some "native"; enabled := None |} in
  let args := {| sort := false; all := false; native := true; ext := true |} in
  native args = true ∧ ext args = true ∧ all args = false ∧
  should_include info args ≠ false.
Proof. cbv zeta. repeat split. vm_compute. discriminate. Qed.

(** An entry without detection tokens is excluded whatever the flags. *)
Lemma should_include_without_tokens (info : LanguageConfig) (args : GenerateArgs) :
  get_detection_tokens info = [] → should_include info args = false.
Proof.
  intros H. unfold should_include, has_detection_tokens. rewrite H. reflexivity.
Qed.

(** The cases of the unit test of [should_include]. *)
Example should_include_cases :
  let info extensions source :=
    {| name := "N"; zed_language := "n"; extensions := Some extensions;
       suffixes := None; filenames := None; source := source; enabled := None |} in
  let args all native ext := {| sort := false; all := all; native := native; ext := ext |} in
  should_include (info ["n"] (Some "native")) (args true false false) = true ∧
  should_include (info [] (Some "native")) (args true false false) = false ∧
  should_include (info ["n"] None) (args false true false) = false ∧
  should_include (info ["n"] (Some "native")) (args false true false) = true ∧
  should_include (info ["n"] (Some "extension")) (args false false true) = true ∧
  should_include (info ["n"] (Some "extension")) (args false false false) = true ∧
  should_include (info ["n"] (Some "extra")) (args false false false) = false ∧
  should_include (info ["n"] (Some "extra")) (args false true true) = false.
Proof. repeat split. Qed.

(** Suffixes come before file names, and a repeated token is kept once,
    where it first occurs; [extensions] is ignored next to them. *)
Example get_detection_tokens_sample :
  get_detection_tokens
    {| name := "Just"; zed_language := "Just"; extensions := Some ["ignored"];
       suffixes := Some [".just"; "Justfile"]; filenames := Some ["Justfile"; "justfile"; ".just"];
       source := None; enabled := None |}
  = [".just"; "Justfile"; "justfile"].
Proof. reflexivity. Qed.

End generate.

(** *** From run-time entries to typed ones *)

Section typed_entries.
Import Generate.

Lemma strings_as_str_list items :
  existsb (λ item, negb (is_str item)) items = false →
  is_Some (as_str_list (VList items)).
Proof.
  cbn [as_str_list]. induction items as [|v items IH]; [eexists; reflexivity|].
  cbn [existsb]. intros [Hv Hitems]%orb_false_elim.
  destruct (IH Hitems) as [strs Hstrs]. destruct v as [s| | |]; try discriminate.
  exists (s :: strs). cbn. rewrite Hstrs. reflexivity.
Qed.

Lemma validated_field_typed lang_id (info : gmap string value) field :
  match info !! field with
  | None => None
  | Some (VList list_value) =>
      if existsb (λ item, negb (is_str item)) list_value
      then Some ("[" +:+ lang_id +:+ "] '" +:+ field +:+ "' must contain only strings")
      else None
  | Some _ => Some ("[" +:+ lang_id +:+ "] '" +:+ field +:+ "' must be a list")
  end = None →
  is_Some (not_required as_str_list (info !! field)).
Proof.
  destruct (info !! field) as [[| | |items]|]; try discriminate; [|eexists; reflexivity].
  destruct (existsb _ items) eqn:Hitems; [discriminate|]. intros _.
  destruct (strings_as_str_list items Hitems) as [strs Hstrs].
  exists (Some strs). cbn [not_required]. rewrite Hstrs. reflexivity.
Qed.

(** An entry that passes [validate_config_entry] has detection fields and
    a source of the declared types; with a [name] and a [zed_language]
    that are strings it is a [LanguageConfig]. *)
Lemma validated_entry_typed lang_id (info : gmap string value) :
  validate_config_entry lang_id info = [] →
  is_Some (info !! "name" ≫= as_str) →
  is_Some (info !! "zed_language" ≫= as_str) →
  is_Some (not_required as_bool (info !! "enabled")) →
  is_Some (typed info).
Proof.
  unfold validate_config_entry.
  intros [[[_ _]%app_eq_nil Hdet]%app_eq_nil Hsrc]%app_eq_nil
    [name Hname] [zed Hzed] [enabled Henabled].
  unfold DETECTION_FIELDS in Hdet. cbn [omap list_omap] in Hdet.
  pose proof (validated_field_typed lang_id info "extensions") as He.
  pose proof (validated_field_typed lang_id info "suffixes") as Hs.
  pose proof (validated_field_typed lang_id info "filenames") as Hf.
  destruct (match info !! "extensions" with None => None | Some _ => _ end);
    [discriminate|].
  destruct (match info !! "suffixes" with None => None | Some _ => _ end);
    [discriminate|].
  destruct (match info !! "filenames" with None => None | Some _ => _ end);
    [discriminate|].
  destruct He as [e He], Hs as [s Hs], Hf as [f Hf]; try reflexivity.
  assert (is_Some (not_required as_str (info !! "source"))) as [src Hsource].
  { destruct (info !! "source") as [[src| | |]|]; try discriminate; eexists; reflexivity. }
  unfold typed. rewrite Hname, Hzed, He, Hs, Hf, Hsource, Henabled. eexists. reflexivity.
Qed.
End typed_entries.

(** *** common.py: validation of one entry *)

Section collecting.

Variables (lang_id : string) (info : gmap string value).

(** The errors are the reports of the checks of [checks] that the entry
    fails, each once and in the order of the checks. *)
Local Abbreviation collects checks errors :=
  (∃ reported : list violation,
     errors = report lang_id info <$> reported ∧
     sublist reported checks ∧
     ∀ v, v ∈ checks → (v ∈ reported ↔ violates info v)).

Lemma collects_nil : collects [] [].
Proof. exists []. split; [reflexivity|]. split; [constructor|]. intros v []%elem_of_nil. Qed.

Lemma collects_app checks1 checks2 errors1 errors2 :
  collects checks1 errors1 → collects checks2 errors2 →
  collects (checks1 ++ checks2) (errors1 ++ errors2).
Proof.
  intros (r1 & -> & Hsub1 & Hr1) (r2 & -> & Hsub2 & Hr2). exists (r1 ++ r2).
  split; [rewrite fmap_app; reflexivity|]. split; [apply sublist_app; assumption|].
  intros v Hv. rewrite elem_of_app. split.
  - intros [Hin|Hin].
    + apply Hr1; [|exact Hin]. exact (elem_of_sublist _ _ _ Hin Hsub1).
    + apply Hr2; [|exact Hin]. exact (elem_of_sublist _ _ _ Hin Hsub2).
  - intros Hviolates. apply elem_of_app in Hv as [Hv|Hv].
    + left. apply Hr1; assumption.
    + right. apply Hr2; assumption.
Qed.

Lemma omap_cons_app {A B} (f : A → option B) x l :
  omap f (x :: l) = option_list (f x) ++ omap f l.
Proof. cbn [omap list_omap]. destruct (f x); reflexivity. Qed.

Lemma collects_required field :
  collects [MissingRequired field]
    (option_list
       match info !! field with
       | None => Some ("[" +:+ lang_id +:+ "] missing required field: " +:+ field)
       | Some _ => None
       end).
Proof.
  destruct (info !! field) as [value|] eqn:Hfield.
  - exists []. split; [reflexivity|]. split; [apply sublist_nil_l|].
    intros v ->%list_elem_of_singleton. cbn [violates]. rewrite Hfield.
    split; [intros []%elem_of_nil|discriminate].
  - exists [MissingRequired field]. split; [reflexivity|]. split; [reflexivity|].
    intros v ->%list_elem_of_singleton. cbn [violates]. split; [intros _; exact Hfield|].
    intros _. left.
Qed.

Lemma collects_detection :
  collects [MissingDetection]
    (if existsb (λ field, bool_decide (is_Some (info !! field))) DETECTION_FIELDS
     then []
     else ["[" +:+ lang_id +:+ "] missing detection fields: one of "
           +:+ py_str (str_list DETECTION_FIELDS) +:+ " is required"]).
Proof.
  unfold DETECTION_FIELDS. cbn [existsb]. rewrite orb_false_r.
  destruct (info !! "extensions") as [e|] eqn:He;
    [|destruct (info !! "suffixes") as [s|] eqn:Hs;
      [|destruct (info !! "filenames") as [f|] eqn:Hf]].
  1-3: rewrite (bool_decide_true (is_Some (Some _))) by eauto;
       rewrite ?(bool_decide_false (is_Some None)) by (intros [? [=]]);
       cbn [orb]; exists []; (split; [reflexivity|]); (split; [apply sublist_nil_l|]);
       intros v ->%list_elem_of_singleton; cbn [violates]; rewrite ?He, ?Hs, ?Hf;
       (split; [intros []%elem_of_nil|intros (? & ? & ?); discriminate]).
  rewrite !(bool_decide_false (is_Some None)) by (intros [? [=]]). cbn [orb].
  exists [MissingDetection]. split; [reflexivity|]. split; [reflexivity|].
  intros v ->%list_elem_of_singleton. cbn [violates]. rewrite He, Hs, Hf.
  split; [done|]. intros _. left.
Qed.

Lemma collects_field field :
  collects [NotAList field; NotOnlyStrings field]
    (option_list
       match info !! field with
       | None => None
       | Some (VList list_value) =>
           if existsb (λ item, negb (is_str item)) list_value
           then Some ("[" +:+ lang_id +:+ "] '" +:+ field +:+ "' must contain only strings")
           else None
       | Some _ => Some ("[" +:+ lang_id +:+ "] '" +:+ field +:+ "' must be a list")
       end).
Proof.
  assert (∀ reported : list violation,
            (NotAList field ∈ reported ↔ violates info (NotAList field)) →
            (NotOnlyStrings field ∈ reported ↔ violates info (NotOnlyStrings field)) →
            ∀ v, v ∈ [NotAList field; NotOnlyStrings field] →
                 (v ∈ reported ↔ violates info v)) as Hboth.
  { intros reported H1 H2 v. rewrite !elem_of_cons, elem_of_nil.
    intros [->|[->|[]]]; assumption. }
  destruct (info !! field) as [[s|n|b|items]|] eqn:Hfield.
  1-3: exists [NotAList field]; (split; [reflexivity|]);
       (split; [apply sublist_skip, sublist_nil_l|]); apply Hboth; cbn [violates];
       rewrite Hfield, list_elem_of_singleton;
       [split; [intros _; eexists; split; [reflexivity|discriminate]|reflexivity]
       |split; [discriminate|intros (? & ? & [=] & _)]].
  - destruct (existsb (λ item, negb (is_str item)) items) eqn:Hitems.
    + exists [NotOnlyStrings field]. split; [reflexivity|].
      split; [apply sublist_cons, sublist_skip, sublist_nil_l|]. apply Hboth; cbn [violates];
        rewrite Hfield, list_elem_of_singleton.
      * split; [discriminate|]. intros (value & [= <-] & Hne). destruct (Hne items eq_refl).
      * split; [intros _|reflexivity].
        apply existsb_exists in Hitems as (item & Hin%list_elem_of_In & Hitem).
        exists items, item. split; [reflexivity|]. split; [exact Hin|].
        intros s ->. discriminate Hitem.
    + exists []. split; [reflexivity|]. split; [apply sublist_nil_l|]. apply Hboth;
        cbn [violates]; rewrite Hfield, elem_of_nil.
      * split; [done|]. intros (value & [= <-] & Hne). destruct (Hne items eq_refl).
      * split; [done|]. intros (items' & item & [= <-] & Hin & Hne).
        assert (existsb (λ item, negb (is_str item)) items = true) as Hyes.
        { apply existsb_exists. exists item. split; [apply list_elem_of_In, Hin|].
          destruct item; try reflexivity. destruct (Hne s eq_refl). }
        congruence.
  - exists []. split; [reflexivity|]. split; [apply sublist_nil_l|]. apply Hboth;
      cbn [violates]; rewrite Hfield, elem_of_nil.
    + split; [done|]. intros (? & [=] & _).
    + split; [done|]. intros (? & ? & [=] & _).
Qed.

Lemma collects_source :
  collects [InvalidSource]
    match info !! "source" with
    | None => []
    | Some src =>
        let valid_sources := Source.value <$> Source.all in
        if in_strings src valid_sources then []
        else ["[" +:+ lang_id +:+ "] invalid source '" +:+ py_str src
              +:+ "', must be one of: " +:+ py_str (str_list valid_sources)]
    end.
Proof.
  destruct (info !! "source") as [src|] eqn:Hsource.
  2: { exists []. split; [reflexivity|]. split; [apply sublist_nil_l|].
       intros v ->%list_elem_of_singleton. cbn [violates]. rewrite Hsource.
       split; [intros []%elem_of_nil|intros (? & [=] & _)]. }
  cbv zeta. destruct (in_strings src (Source.value <$> Source.all)) eqn:Hvalid.
  - exists []. split; [reflexivity|]. split; [apply sublist_nil_l|].
    intros v ->%list_elem_of_singleton. cbn [violates]. rewrite Hsource.
    split; [intros []%elem_of_nil|]. intros (src' & [= <-] & Hno).
    destruct src as [s| | |]; try discriminate.
    apply bool_decide_eq_true in Hvalid. destruct (Hno s eq_refl Hvalid).
  - exists [InvalidSource]. split; [|split; [reflexivity|]].
    + cbn [fmap list_fmap report]. rewrite Hsource. reflexivity.
    + intros v ->%list_elem_of_singleton. cbn [violates]. rewrite Hsource.
      split; [intros _|intros _; left].
      exists src. split; [reflexivity|]. intros s ->.
      apply bool_decide_eq_false in Hvalid. exact Hvalid.
Qed.

Lemma validate_config_entry_reports :
  collects violations (validate_config_entry lang_id info).
Proof.
  unfold validate_config_entry, REQUIRED_LANG_FIELDS, DETECTION_FIELDS. cbv zeta.
  rewrite !omap_cons_app. cbn [omap list_omap app].
  rewrite !app_nil_r.
  change violations with
    ((([MissingRequired "name"] ++ [MissingRequired "zed_language"])
      ++ [MissingDetection])
     ++ ([NotAList "extensions"; NotOnlyStrings "extensions"]
         ++ [NotAList "suffixes"; NotOnlyStrings "suffixes"]
         ++ [NotAList "filenames"; NotOnlyStrings "filenames"])
     ++ [InvalidSource]).
  rewrite <- (app_assoc _ _ (match info !! "source" with None => [] | Some _ => _ end)).
  repeat apply collects_app;
    first [apply collects_required | apply collects_detection | apply collects_field
          | apply collects_source].
Qed.

End collecting.

(** C7. [validate_config_entry] collects all violations of one entry in
    one pass: its errors are the reports of exactly the checks that the
    entry fails, each once and in the order of the checks, whatever the
    entry.  So on [{"name": "N"}] it reports the missing [zed_language]
    and the missing detection fields, and on [{"extensions": "bad"}] the
    report names [extensions] as not being a list. *)
Theorem validate_config_entry_collects (lang_id : string) (info : gmap string value) :
  (∃ reported,
     validate_config_entry lang_id info = report lang_id info <$> reported ∧
     sublist reported violations ∧
     ∀ v, v ∈ violations → (v ∈ reported ↔ violates info v))
  ∧ validate_config_entry lang_id {[ "name" := VStr "N" ]} =
      ["[" +:+ lang_id +:+ "] missing required field: zed_language";
       "[" +:+ lang_id +:+ "] missing detection fields: one of "
         +:+ "['extensions', 'suffixes', 'filenames'] is required"]
  ∧ "[" +:+ lang_id +:+ "] 'extensions' must be a list"
      ∈ validate_config_entry lang_id {[ "extensions" := VStr "bad" ]}.
Proof.
  split; [apply validate_config_entry_reports|]. split.
  - vm_compute. reflexivity.
  - assert (validate_config_entry lang_id {[ "extensions" := VStr "bad" ]} =
      ["[" +:+ lang_id +:+ "] missing required field: name";
       "[" +:+ lang_id +:+ "] missing required field: zed_language";
       "[" +:+ lang_id +:+ "] 'extensions' must be a list"]) as ->
      by (vm_compute; reflexivity).
    do 2 right. left.
Qed.

(** A list with an item that is not a string is reported for its field
    too, and an unknown source alongside it. *)
Example validate_config_entry_items_and_source :
  validate_config_entry "x"
    (<["source" := VStr "bad"]> (<["name" := VStr "N"]>
      (<["zed_language" := VStr "x"]> {[ "suffixes" := VList [VInt 1] ]}))) =
    ["[x] 'suffixes' must contain only strings";
     "[x] invalid source 'bad', must be one of: ['native', 'extension', 'extra']"].
Proof. vm_compute. reflexivity. Qed.

(** *** sync_zed_languages.py: extensions and pattern classes *)

Section patterns.
Import Sync.


Lemma trimmed_cons p ps :
  trimmed (p :: ps) =
    (if bool_decide (Py.strip p = "") then [] else [Py.strip p]) ++ trimmed ps.
Proof.
  unfold trimmed. rewrite fmap_cons. cbn [List.filter].
  destruct (bool_decide_reflect (Py.strip p = "")) as [He|Hne].
  - rewrite bool_decide_false by (intros H; apply H, He). reflexivity.
  - rewrite bool_decide_true by exact Hne. reflexivity.
Qed.

Lemma foldl_split_step acc ps :
  foldl split_step acc ps =
    {| suffixes := suffixes acc ++ List.filter is_suffix_pattern (trimmed ps);
       full_filenames := full_filenames acc ++ List.filter is_full_filename (trimmed ps);
       other_patterns := other_patterns acc ++ List.filter is_other_pattern (trimmed ps) |}.
Proof.
  revert acc. induction ps as [|p ps IH]; intros acc.
  - destruct acc. cbn. rewrite !app_nil_r. reflexivity.
  - cbn [foldl]. rewrite IH, trimmed_cons. unfold split_step.
    destruct (bool_decide (Py.strip p = "")); [reflexivity|].
    rewrite !List.filter_app. cbn [List.filter].
    unfold is_suffix_pattern, is_full_filename, is_other_pattern.
    destruct (Py.contains "/" (Py.strip p)); cbn [negb andb orb suffixes full_filenames other_patterns app].
    { rewrite <- !app_assoc. reflexivity. }
    destruct (Py.contains "*" (Py.strip p)); cbn [negb andb orb].
    { destruct (Py.startswith "*." (Py.strip p) && bool_decide (Py.count "*" (Py.strip p) = 1));
        cbn [negb andb orb suffixes full_filenames other_patterns app];
        rewrite <- ?app_assoc; reflexivity. }
    destruct (Py.startswith "." (Py.strip p));
      cbn [negb andb orb suffixes full_filenames other_patterns app];
      rewrite <- ?app_assoc; reflexivity.
Qed.

(** Each list keeps the order of first occurrence. *)
Lemma split_path_suffixes_filter ps :
  split_path_suffixes ps =
    (first_occurrences (List.filter is_suffix_pattern (trimmed ps)),
     first_occurrences (List.filter is_full_filename (trimmed ps)),
     first_occurrences (List.filter is_other_pattern (trimmed ps))).
Proof.
  unfold split_path_suffixes, dedupe_strings. rewrite foldl_split_step.
  cbn [suffixes full_filenames other_patterns app].
  rewrite !dict_fromkeys_first_occurrences. reflexivity.
Qed.

Lemma startswith_star_contains v :
  Py.startswith "*." v = true → Py.contains "*" v = true.
Proof.
  destruct v as [|a v]; cbn; [done|]. destruct (decide ("*"%char = a)) as [<-|]; [|done].
  reflexivity.
Qed.

Lemma elem_of_filtered (f : string → bool) l v :
  v ∈ first_occurrences (List.filter f l) ↔ v ∈ l ∧ f v = true.
Proof.
  rewrite <- dict_fromkeys_first_occurrences, dict_fromkeys_elem.
  rewrite !list_elem_of_In. apply List.filter_In.
Qed.

(** C8, as the code has it.  [split_path_suffixes] sorts the non-empty
    trimmed patterns into three lists without repetitions: [suffixes]
    holds exactly the patterns without [/] that start with [.] and have
    no [*], or start with [*.] and have a single [*]; [full_filenames]
    holds exactly the patterns without [/] and [*] that do not start with
    [.]; [other_patterns] holds exactly the remaining ones. *)
Theorem split_path_suffixes_classes (ps : list string) :
  let r := split_path_suffixes ps in
  (NoDup (r.1.1) ∧ NoDup (r.1.2) ∧ NoDup (r.2)) ∧
  (∀ v, v ∈ (r.1.1) ↔
     v ∈ trimmed ps ∧ Py.contains "/" v = false ∧
     (Py.startswith "." v = true ∧ Py.contains "*" v = false
      ∨ Py.startswith "*." v = true ∧ Py.count "*" v = 1)) ∧
  (∀ v, v ∈ (r.1.2) ↔
     v ∈ trimmed ps ∧ Py.contains "/" v = false ∧ Py.contains "*" v = false ∧
     Py.startswith "." v = false) ∧
  (∀ v, v ∈ (r.2) ↔ v ∈ trimmed ps ∧ ¬ v ∈ (r.1.1) ∧ ¬ v ∈ (r.1.2)).
Proof.
  intros r. subst r. rewrite split_path_suffixes_filter. cbn [fst snd].
  split; [|split; [|split]].
  - rewrite <- !dict_fromkeys_first_occurrences. auto using dict_fromkeys_NoDup.
  - intros v. rewrite elem_of_filtered. unfold is_suffix_pattern.
    split.
    + intros [Hv H]. split; [exact Hv|].
      destruct (Py.contains "/" v); [done|]. split; [done|].
      destruct (Py.contains "*" v) eqn:Hstar; cbn in H.
      * right. apply andb_prop in H as [? ?%bool_decide_eq_true]. done.
      * left. done.
    + intros (Hv & -> & [[H1 H2]|[H1 H2]]); split; try exact Hv; cbn [negb andb].
      * rewrite H2. exact H1.
      * rewrite (startswith_star_contains v H1), H1. cbn [andb].
        apply bool_decide_eq_true, H2.
  - intros v. rewrite elem_of_filtered. unfold is_full_filename.
    split.
    + intros [Hv H]. split; [exact Hv|].
      destruct (Py.contains "/" v), (Py.contains "*" v), (Py.startswith "." v); done.
    + intros (Hv & -> & -> & ->). done.
  - intros v. rewrite !elem_of_filtered.
    unfold is_suffix_pattern, is_full_filename, is_other_pattern.
    destruct (Py.contains "/" v), (Py.contains "*" v), (Py.startswith "." v),
      (Py.startswith "*." v && bool_decide (Py.count "*" v = 1)); cbn; intuition discriminate.
Qed.

(** C8 as written fails: a pattern that starts with [.] can land outside
    [suffixes], and a file name with a dot in it is a full file name. *)
Lemma split_path_suffixes_misplaces :
  let r := split_path_suffixes [".JUSTFILE.*"; "docker-compose.yml"] in
  (Py.startswith "." ".JUSTFILE.*" = true ∧ ".JUSTFILE.*" ∉ (r.1.1)) ∧
  (Py.contains "." "docker-compose.yml" = true ∧ "docker-compose.yml" ∈ (r.1.2)).
Proof.
  cbv zeta. split; split; try reflexivity.
  - vm_compute. intros H. inversion H.
  - vm_compute. left.
Qed.

End patterns.

(** *** sync_zed_languages.py: provenance and backfill *)

Section reconciliation.
Import Sync.

Lemma classify_expected lang_id info native_ids ext_ids key :
  hashed (zed_lang_of lang_id info) = Ok key →
  Source.value (classify key native_ids ext_ids) =
    expected_source lang_id info native_ids ext_ids.
Proof.
  unfold expected_source, zed_lang_of, hashed, classify.
  destruct (default (VStr lang_id) (info !! "zed_language")) as [z| | |];
    intros [= <-]; try reflexivity.
  repeat case_bool_decide; reflexivity.
Qed.

Lemma hashed_hashable v : hashable v → ∃ key, hashed v = Ok key.
Proof. destruct v; cbn; eauto. intros []. Qed.

Lemma update_source_insert lang_id info native_ids ext_ids :
  hashable (zed_lang_of lang_id info) →
  ∃ changed,
    update_source lang_id info native_ids ext_ids =
      Ok (<["source" := VStr (expected_source lang_id info native_ids ext_ids)]> info,
          changed).
Proof.
  intros [key Hkey]%hashed_hashable. unfold update_source. rewrite Hkey. cbn.
  rewrite (classify_expected _ _ _ _ _ Hkey).
  destruct (info !! "source") as [[current| | |]|] eqn:Hsrc; eauto.
  case_decide as Hcur; eauto. subst current.
  exists false. rewrite insert_id by exact Hsrc. reflexivity.
Qed.

Lemma update_sources_map cfg native_ids ext_ids :
  Forall (λ item, hashable (zed_lang_of item.1 item.2)) cfg →
  ∃ updated,
    update_sources cfg native_ids ext_ids =
      Ok ((λ '(lang_id, info),
             (lang_id,
              <["source" := VStr (expected_source lang_id info native_ids ext_ids)]> info))
            <$> cfg, updated).
Proof.
  induction cfg as [|[lang_id info] cfg IH]; intros Hhash.
  - exists 0. reflexivity.
  - destruct (update_source_insert lang_id info native_ids ext_ids) as [changed Hone].
    { exact (Forall_inv Hhash). }
    destruct IH as [updated Hrest].
    { exact (Forall_inv_tail Hhash). }
    cbn [update_sources]. rewrite Hone. cbn. rewrite Hrest. cbn. eauto.
Qed.

(** C3. After [update_sources] every entry keeps its [lang_id], its
    [source] is [native] when its [zed_language] is in [native_ids],
    otherwise [extension] when it is in the extension ids, otherwise
    [extra], whatever the source was before, and its other fields are
    untouched.  (The key compared is [info.get("zed_language", lang_id)].) *)
Theorem update_sources_rule (cfg : config) (native_ids ext_ids : gset string) :
  Forall (λ item, hashable (zed_lang_of item.1 item.2)) cfg →
  ∃ cfg' updated,
    update_sources cfg native_ids ext_ids = Ok (cfg', updated) ∧
    Forall2 (λ before after,
               after.1 = before.1 ∧
               after.2 !! "source" =
                 Some (VStr (expected_source before.1 before.2 native_ids ext_ids)) ∧
               ∀ field, field ≠ "source" → after.2 !! field = before.2 !! field)
            cfg cfg'.
Proof.
  intros Hhash.
  destruct (update_sources_map cfg native_ids ext_ids Hhash) as [updated Hrun].
  eexists _, updated. split; [exact Hrun|].
  apply Forall2_fmap_r, Forall_Forall2_diag, Forall_forall.
  intros [lang_id info] _. cbn. split; [reflexivity|]. split.
  - apply lookup_insert_eq.
  - intros field Hne. apply lookup_insert_ne. congruence.
Qed.


Lemma update_sources_rule_witness :
  let cfg := [("x", <["zed_language" := VStr "x"]> {[ "source" := VStr "extra" ]});
              ("e", <["zed_language" := VStr "e"]> {[ "source" := VStr "native" ]});
              ("n", {[ "source" := VStr "native" ]})] in
  ∃ cfg' updated,
    update_sources cfg {["x"]} {["e"]} = Ok (cfg', updated) ∧
    Forall2 (λ before after,
               after.1 = before.1 ∧
               after.2 !! "source" =
                 Some (VStr (expected_source before.1 before.2 {["x"]} {["e"]})) ∧
               ∀ field, field ≠ "source" → after.2 !! field = before.2 !! field)
            cfg cfg'.
Proof.
  intros cfg. apply (update_sources_rule cfg {["x"]} {["e"]}).
  repeat constructor.
Defined.

(** The run of the unit test: two sources change, then one. *)
Example update_sources_counts :
  let entry_of (zed : string) (source : option string) : gmap string value :=
    let fields : gmap string value :=
      <["name" := VStr zed]> (<["zed_language" := VStr zed]>
        {[ "extensions" := str_list [zed] ]}) in
    match source with
    | Some s => <["source" := VStr s]> fields
    | None => fields
    end in
  update_sources [("x", entry_of "x" (Some "native")); ("e", entry_of "e" None);
                  ("n", entry_of "n" None)] {["x"]} {["e"]}
  = Ok ([("x", entry_of "x" (Some "native")); ("e", entry_of "e" (Some "extension"));
         ("n", entry_of "n" (Some "extra"))], 2)
  ∧
  update_sources [("x", entry_of "x" (Some "native")); ("e", entry_of "e" (Some "extension"));
                  ("n", entry_of "n" (Some "extra"))] {["x"]} ∅
  = Ok ([("x", entry_of "x" (Some "native")); ("e", entry_of "e" (Some "extra"));
         ("n", entry_of "n" (Some "extra"))], 1).
Proof. split; by_evaluation. Qed.

(** A [zed_language] that is a list cannot be looked up. *)
Example update_sources_unhashable :
  update_sources [("x", {[ "zed_language" := str_list ["x"] ]})] {["x"]} ∅
  = Raise "TypeError: unhashable type: 'list'".
Proof. reflexivity. Qed.

Lemma elem_of_nonempty_strings vs s :
  s ∈ nonempty_strings vs ↔ VStr s ∈ vs ∧ s ≠ "".
Proof.
  unfold nonempty_strings. rewrite list_elem_of_omap. split.
  - intros ([s'| | |] & Hin & Hsome); try discriminate.
    case_bool_decide; [|discriminate]. injection Hsome as <-. done.
  - intros [Hin Hne]. exists (VStr s). split; [exact Hin|].
    rewrite bool_decide_true by exact Hne. reflexivity.
Qed.

Lemma foldl_detection_tokens (info : gmap string value) acc keys s :
  s ∈ foldl (λ tokens key,
               match info !! key with
               | Some (VList values) => tokens ++ nonempty_strings values
               | _ => tokens
               end) acc keys
  ↔ s ∈ acc ∨ ∃ field items,
      field ∈ keys ∧ info !! field = Some (VList items) ∧ VStr s ∈ items ∧ s ≠ "".
Proof.
  revert acc. induction keys as [|key keys IH]; intros acc; cbn [foldl].
  - split; [auto|]. intros [?|(? & ? & []%elem_of_nil & _)]. done.
  - rewrite IH. clear IH. split.
    + intros [Hacc|(field & items & Hf & Hl & Hin)].
      * destruct (info !! key) as [[| | |values]|] eqn:Hk; auto.
        apply elem_of_app in Hacc as [?|Hnew]; [auto|].
        apply elem_of_nonempty_strings in Hnew.
        right. exists key, values. split; [left|]. tauto.
      * right. exists field, items. split; [right; exact Hf|]. tauto.
    + intros [Hacc|(field & items & Hf & Hl & Hin)].
      * left. destruct (info !! key) as [[| | |values]|]; auto.
        apply elem_of_app. auto.
      * apply elem_of_cons in Hf as [->|Hf].
        -- left. rewrite Hl. apply elem_of_app. right.
           apply elem_of_nonempty_strings. exact Hin.
        -- right. exists field, items. tauto.
Qed.

Lemma scan_order_fields field :
  field ∈ ["suffixes"; "filenames"; "extensions"] ↔ field ∈ DETECTION_FIELDS.
Proof. unfold DETECTION_FIELDS. rewrite !elem_of_cons, !elem_of_nil. tauto. Qed.

Lemma detection_tokens_holds_token (info : gmap string value) :
  get_config_detection_tokens info ≠ [] ↔ holds_token info.
Proof.
  unfold holds_token. split.
  - intros Hne. destruct (get_config_detection_tokens info) as [|s l] eqn:Htok; [done|].
    assert (s ∈ get_config_detection_tokens info) as Hs by (rewrite Htok; left).
    apply foldl_detection_tokens in Hs as [[]%elem_of_nil|(field & items & Hf & Hrest)].
    exists field, items, s. split; [|exact Hrest].
    apply scan_order_fields, Hf.
  - intros (field & items & s & Hf & Hrest) Hnil.
    assert (s ∈ get_config_detection_tokens info) as Hs.
    { apply foldl_detection_tokens. right. exists field, items. split; [|exact Hrest].
      apply scan_order_fields, Hf. }
    rewrite Hnil in Hs. by apply elem_of_nil in Hs.
Qed.

Lemma backfill_entry_kept lang_id (info : gmap string value) zed_by_lang :
  holds_token info → backfill_entry lang_id info zed_by_lang = Ok (info, false).
Proof.
  intros H%detection_tokens_holds_token. unfold backfill_entry.
  destruct (get_config_detection_tokens info); done.
Qed.

Lemma backfill_entry_empty lang_id (info : gmap string value) zed_by_lang :
  ¬ holds_token info → hashable (zed_lang_of lang_id info) →
  ∃ changed,
    backfill_entry lang_id info zed_by_lang =
      Ok (match zed_lang_of lang_id info with
          | VStr z =>
              match zed_by_lang !! z with
              | Some zed_info =>
                  match extensions zed_info with
                  | [] => info
                  | exts => <["extensions" := str_list exts]> info
                  end
              | None => info
              end
          | _ => info
          end, changed).
Proof.
  intros Hno Hhash. unfold backfill_entry.
  destruct (get_config_detection_tokens info) eqn:Htok.
  2: { exfalso. apply Hno, detection_tokens_holds_token. rewrite Htok. done. }
  destruct (zed_lang_of lang_id info) as [z| | |]; cbn; eauto; [|destruct Hhash].
  destruct (zed_by_lang !! z) as [zed_info|]; cbn; eauto.
  destruct (extensions zed_info); eauto.
Qed.

(** C2, as the code has it.  [backfill_missing_detection_tokens] leaves
    every entry that holds a detection token (a non-empty string in a
    list-valued detection field) unchanged.  An entry that holds none, be
    its detection fields absent, empty lists or malformed, gets its
    [extensions] set to the remote extensions when its [zed_language] has
    a remote match with non-empty extensions, its other fields staying as
    they were; without such a match it is unchanged too. *)
Theorem backfill_rule (cfg : config) (zed_by_lang : gmap string LanguageInfo) :
  Forall (λ item, ¬ holds_token item.2 → hashable (zed_lang_of item.1 item.2)) cfg →
  ∃ cfg' updated,
    backfill_missing_detection_tokens cfg zed_by_lang = Ok (cfg', updated) ∧
    Forall2 (λ before after,
               after.1 = before.1 ∧
               (holds_token before.2 → after.2 = before.2) ∧
               (∀ zed_info, ¬ holds_token before.2 →
                  remote_match before.1 before.2 zed_by_lang zed_info →
                  after.2 = <["extensions" := str_list (extensions zed_info)]> before.2) ∧
               ((∀ zed_info, ¬ remote_match before.1 before.2 zed_by_lang zed_info) →
                  after.2 = before.2))
            cfg cfg'.
Proof.
  induction cfg as [|[lang_id info] cfg IH]; intros Hhash.
  - exists [], 0. split; [reflexivity|constructor].
  - destruct IH as (cfg' & updated & Hrun & Hall); [exact (Forall_inv_tail Hhash)|].
    apply Forall_inv in Hhash. cbn [fst snd] in Hhash.
    cbn [backfill_missing_detection_tokens].
    destruct (decide (get_config_detection_tokens info = [])) as [Hnil|Hyes];
      [|apply detection_tokens_holds_token in Hyes]; cycle 1.
    + rewrite (backfill_entry_kept _ _ _ Hyes). cbn. rewrite Hrun. cbn.
      eexists _, _. split; [reflexivity|]. constructor; [|exact Hall].
      cbn. split; [reflexivity|]. split; [reflexivity|]. split; [tauto|].
      reflexivity.
    + assert (¬ holds_token info) as Hno
        by (intros H%detection_tokens_holds_token; contradiction).
      destruct (backfill_entry_empty lang_id info zed_by_lang Hno (Hhash Hno))
        as [changed Hone].
      rewrite Hone. cbn. rewrite Hrun. cbn.
      eexists _, _. split; [reflexivity|]. constructor; [|exact Hall].
      cbn. split; [reflexivity|]. split; [tauto|]. unfold remote_match, zed_lang_of. split.
      * intros zed_info _ (z & -> & -> & Hext).
        destruct (extensions zed_info); [done|reflexivity].
      * intros Hnone.
        destruct (default (VStr lang_id) (info !! "zed_language")) as [z| | |];
          try reflexivity.
        destruct (zed_by_lang !! z) as [zed_info|] eqn:Hz; [|reflexivity].
        destruct (extensions zed_info) eqn:Hext; [reflexivity|].
        exfalso. apply (Hnone zed_info). exists z. rewrite Hext. done.
Qed.

Lemma backfill_rule_witness :
  let cfg := [("b", <["zed_language" := VStr "b"]> {[ "filenames" := str_list ["Bfile"] ]});
              ("c", {[ "zed_language" := VStr "c" ]})] in
  let zed_by_lang : gmap string LanguageInfo :=
    {[ "c" := {| id := "c"; name := "C"; zed_language := "c"; extensions := ["cc"];
                 source := Source.NATIVE; syntax_signature := "" |} ]} in
  ∃ cfg' updated,
    backfill_missing_detection_tokens cfg zed_by_lang = Ok (cfg', updated) ∧
    Forall2 (λ before after,
               after.1 = before.1 ∧
               (holds_token before.2 → after.2 = before.2) ∧
               (∀ zed_info, ¬ holds_token before.2 →
                  remote_match before.1 before.2 zed_by_lang zed_info →
                  after.2 = <["extensions" := str_list (extensions zed_info)]> before.2) ∧
               ((∀ zed_info, ¬ remote_match before.1 before.2 zed_by_lang zed_info) →
                  after.2 = before.2))
            cfg cfg'.
Proof.
  intros cfg zed_by_lang. apply (backfill_rule cfg zed_by_lang).
  repeat constructor.
Defined.

(** C2 as written fails: an entry whose [extensions] is present as an
    empty list is backfilled. *)
Lemma backfill_overwrites_empty_list :
  let info : gmap string value :=
    <["name" := VStr "A"]> (<["zed_language" := VStr "a"]> {[ "extensions" := VList [] ]}) in
  let zed_by_lang : gmap string LanguageInfo :=
    {[ "a" := {| id := "a"; name := "A"; zed_language := "a"; extensions := ["aa"];
                 source := Source.NATIVE; syntax_signature := "" |} ]} in
  info !! "extensions" = Some (VList []) ∧
  ∃ info',
    backfill_missing_detection_tokens [("a", info)] zed_by_lang = Ok ([("a", info')], 1) ∧
    info' !! "extensions" = Some (str_list ["aa"]) ∧ info' ≠ info.
Proof.
  intros info zed_by_lang. split; [reflexivity|].
  exists (<["extensions" := str_list ["aa"]]> info).
  split; [by_evaluation|]. split; [reflexivity|].
  intros Heq. apply (f_equal (.!! "extensions")) in Heq. vm_compute in Heq. discriminate.
Qed.
End reconciliation.

(** *** common.py: the persisted registry *)

Section store.

Lemma dict_get_elem_of {A} (d : list (string * A)) k v :
  dict_get d k = Some v → (k, v) ∈ d.
Proof.
  induction d as [|[k' v'] d IH]; cbn; [done|].
  case_decide as Hk; [intros [= ->]; subst; left|right; auto].
Qed.

Lemma dict_get_is_Some {A} (d : list (string * A)) k :
  k ∈ keys d → is_Some (dict_get d k).
Proof.
  unfold keys. induction d as [|[k' v'] d IH]; cbn; [intros []%elem_of_nil|].
  case_decide; [eauto|]. intros [->|Hin]%elem_of_cons; [done|auto].
Qed.

Lemma dict_get_NoDup {A} (d : list (string * A)) k v :
  is_dict d → (k, v) ∈ d → dict_get d k = Some v.
Proof.
  unfold is_dict. induction d as [|[k' v'] d IH]; cbn; [intros _ []%elem_of_nil|].
  intros [Hk' Hnd]%NoDup_cons [[= -> ->]|Hin]%elem_of_cons.
  - rewrite decide_True; done.
  - rewrite decide_False; [auto|]. intros ->. apply Hk'.
    apply list_elem_of_fmap. exists (k, v). done.
Qed.

Lemma write_detection_lines (info : gmap string value) :
  write_detection info =
    (flat_map (λ field,
                 match well_formed_list info field with
                 | Some items => [list_line field items]
                 | None => []
                 end) DETECTION_FIELDS,
     bool_decide (is_Some (well_formed_list info "extensions")
                  ∨ is_Some (well_formed_list info "suffixes")
                  ∨ is_Some (well_formed_list info "filenames"))).
Proof.
  unfold write_detection, well_formed_list, DETECTION_FIELDS. cbn [foldl flat_map].
  destruct (info !! "extensions") as [[| | |xe]|], (info !! "suffixes") as [[| | |xs]|],
    (info !! "filenames") as [[| | |xf]|]; reflexivity.
Qed.

Lemma entry_lines_block lang_id (info : gmap string value) name zed :
  info !! "name" = Some name → info !! "zed_language" = Some zed →
  entry_lines lang_id info = Ok (entry_block lang_id name zed info).
Proof.
  intros Hn Hz. unfold entry_lines, entry_block, detection_lines.
  rewrite Hn, Hz, write_detection_lines.
  set (written := flat_map _ DETECTION_FIELDS).
  assert (bool_decide (is_Some (well_formed_list info "extensions")
                       ∨ is_Some (well_formed_list info "suffixes")
                       ∨ is_Some (well_formed_list info "filenames"))
          = match written with [] => false | _ => true end) as ->.
  { subst written. unfold DETECTION_FIELDS. cbn [flat_map].
    destruct (well_formed_list info "extensions"), (well_formed_list info "suffixes"),
      (well_formed_list info "filenames"); reflexivity. }
  destruct written; cbn; rewrite <- ?app_assoc; reflexivity.
Qed.

(** What the detection lines of an entry contain. *)
Lemma detection_lines_contents (info : gmap string value) :
  (∀ field items,
     field ∈ ["suffixes"; "filenames"] → info !! field = Some (VList items) →
     list_line field items ∈ detection_lines info) ∧
  (well_formed_list info "suffixes" = None → well_formed_list info "filenames" = None →
   detection_lines info =
     [list_line "extensions" (default [] (well_formed_list info "extensions"))]).
Proof.
  unfold detection_lines, DETECTION_FIELDS. cbn [flat_map]. split.
  - intros field items Hfield Hlookup.
    assert (well_formed_list info field = Some items) as Hwf
      by (unfold well_formed_list; rewrite Hlookup; reflexivity).
    apply elem_of_cons in Hfield as [->|Hfield];
      [|apply list_elem_of_singleton in Hfield as ->]; rewrite Hwf;
      destruct (well_formed_list info "extensions");
      try destruct (well_formed_list info "suffixes"); cbn;
      rewrite ?elem_of_cons; auto.
  - intros -> ->. destruct (well_formed_list info "extensions"); reflexivity.
Qed.

Lemma save_entries_blocks (cfg : config) ids :
  Forall (λ item, is_Some (item.2 !! "name") ∧ is_Some (item.2 !! "zed_language")) cfg →
  ids ⊆ keys cfg →
  ∃ blocks,
    save_entries cfg ids = Ok (concat blocks) ∧
    Forall2 (λ lang_id block,
               ∃ info name zed,
                 dict_get cfg lang_id = Some info ∧
                 info !! "name" = Some name ∧ info !! "zed_language" = Some zed ∧
                 block = entry_block lang_id name zed info)
            ids blocks.
Proof.
  intros Hfields. induction ids as [|lang_id ids IH]; intros Hsub.
  - exists []. split; [reflexivity|constructor].
  - destruct IH as (blocks & Hrest & Hall).
    { intros k Hk. apply Hsub. right. exact Hk. }
    destruct (dict_get_is_Some cfg lang_id) as [info Hget]; [apply Hsub; left|].
    pose proof (dict_get_elem_of _ _ _ Hget) as Hin.
    rewrite Forall_forall in Hfields.
    destruct (Hfields _ Hin) as [[name Hn] [zed Hz]]. cbn [snd] in Hn, Hz.
    exists (entry_block lang_id name zed info :: blocks). split.
    + cbn [save_entries]. rewrite Hget, (entry_lines_block _ _ _ _ Hn Hz). cbn.
      rewrite Hrest. reflexivity.
    + constructor; [|exact Hall]. exists info, name, zed. done.
Qed.

(** C5, as the code has it.  [save_config] writes the entries in ascending
    order of [lang_id], each [lang_id] once.  An entry's block holds one
    line for every detection field that is a list, in the order
    [extensions], [suffixes], [filenames], so [extensions] is written next
    to [suffixes] and [filenames] when the entry has them all; a value
    that is no list is skipped without an error, and [extensions = []] is
    written when no field is a list; the block ends with a [source] line,
    [extra] when the entry has none. *)
Theorem save_config_format (cfg : config) :
  Forall (λ item, is_Some (item.2 !! "name") ∧ is_Some (item.2 !! "zed_language")) cfg →
  ∃ ids blocks,
    save_config cfg = Ok (Py.join newline (header_lines ++ concat blocks)) ∧
    ids ≡ₚ keys cfg ∧ Sorted String.le ids ∧
    Forall2 (λ lang_id block,
               ∃ info name zed,
                 dict_get cfg lang_id = Some info ∧
                 info !! "name" = Some name ∧ info !! "zed_language" = Some zed ∧
                 block =
                   ["[" +:+ lang_id +:+ "]";
                    "name = " +:+ quoted (py_str name);
                    "zed_language = " +:+ quoted (py_str zed)]
                   ++ detection_lines info
                   ++ ["source = "
                         +:+ quoted (py_str (default (VStr "extra") (info !! "source")));
                       ""])
            ids blocks.
Proof.
  intros Hfields.
  destruct (save_entries_blocks cfg (Py.sorted (keys cfg)) Hfields)
    as (blocks & Hrun & Hall).
  { intros k Hk. unfold Py.sorted in Hk. rewrite merge_sort_Permutation in Hk. exact Hk. }
  exists (Py.sorted (keys cfg)), blocks. split; [|split; [|split]].
  - unfold save_config. rewrite Hrun. reflexivity.
  - apply merge_sort_Permutation.
  - apply Sorted_merge_sort, _.
  - exact Hall.
Qed.

Lemma save_config_format_witness :
  let cfg : config :=
    [("z", <["name" := VStr "Zed"]> (<["zed_language" := VStr "z"]>
             {[ "suffixes" := str_list [".z"] ]}));
     ("a", <["name" := VStr "Alpha"]> (<["zed_language" := VStr "a"]>
             {[ "extensions" := VStr "bad" ]}))] in
  ∃ ids blocks,
    save_config cfg = Ok (Py.join newline (header_lines ++ concat blocks)) ∧
    ids ≡ₚ keys cfg ∧ Sorted String.le ids ∧
    Forall2 (λ lang_id block,
               ∃ info name zed,
                 dict_get cfg lang_id = Some info ∧
                 info !! "name" = Some name ∧ info !! "zed_language" = Some zed ∧
                 block =
                   ["[" +:+ lang_id +:+ "]";
                    "name = " +:+ quoted (py_str name);
                    "zed_language = " +:+ quoted (py_str zed)]
                   ++ detection_lines info
                   ++ ["source = "
                         +:+ quoted (py_str (default (VStr "extra") (info !! "source")));
                       ""])
            ids blocks.
Proof.
  intros cfg. apply (save_config_format cfg).
  repeat constructor; vm_compute; eauto.
Defined.

(** C5 as written fails: an entry with [suffixes] and [extensions] gets an
    [extensions] line as well. *)
Lemma save_config_writes_extensions_too :
  let info : gmap string value :=
    <["name" := VStr "Just"]> (<["zed_language" := VStr "Just"]>
      (<["extensions" := str_list ["just"]]> {[ "suffixes" := str_list [".just"] ]})) in
  info !! "suffixes" = Some (str_list [".just"]) ∧
  save_config [("just", info)] =
    Ok (Py.join newline
          (header_lines ++
           ["[just]"; "name = " +:+ quoted "Just"; "zed_language = " +:+ quoted "Just";
            "extensions = [" +:+ quoted "just" +:+ "]";
            "suffixes = [" +:+ quoted ".just" +:+ "]";
            "source = " +:+ quoted "extra"; ""])).
Proof. intros info. split; by_evaluation. Qed.

(** The registry file of the unit test: sorted, with a default source and
    an empty [extensions] line for the malformed entry. *)
Example save_config_sample :
  save_config
    [("z", <["name" := VStr "Zed"]> (<["zed_language" := VStr "z"]>
             {[ "suffixes" := str_list [".z"] ]}));
     ("a", <["name" := VStr "Alpha"]> (<["zed_language" := VStr "a"]>
             (<["source" := VStr "native"]> {[ "extensions" := VStr "bad" ]})))] =
  Ok (Py.join newline
        (header_lines ++
         ["[a]"; "name = " +:+ quoted "Alpha"; "zed_language = " +:+ quoted "a";
          "extensions = []"; "source = " +:+ quoted "native"; "";
          "[z]"; "name = " +:+ quoted "Zed"; "zed_language = " +:+ quoted "z";
          "suffixes = [" +:+ quoted ".z" +:+ "]"; "source = " +:+ quoted "extra"; ""])).
Proof. vm_compute. reflexivity. Qed.

(** A missing [name] makes [save_config] raise. *)
Example save_config_missing_name :
  save_config [("a", {[ "zed_language" := VStr "a" ]})] = Raise "KeyError: 'name'".
Proof. vm_compute. reflexivity. Qed.
End store.

(** *** The registry file read back *)

Section strings.

Lemma str_app_cons a s t : String a s +:+ t = String a (s +:+ t).
Proof. reflexivity. Qed.

Lemma str_app_nil_l s : "" +:+ s = s.
Proof. reflexivity. Qed.

Lemma str_app_nil_r s : s +:+ "" = s.
Proof. induction s as [|a s IH]; [reflexivity|]. rewrite str_app_cons, IH. reflexivity. Qed.

Lemma str_app_assoc s t u : (s +:+ t) +:+ u = s +:+ (t +:+ u).
Proof.
  induction s as [|a s IH]; [reflexivity|]. rewrite !str_app_cons, IH. reflexivity.
Qed.

Lemma str_length_app s t : String.length (s +:+ t) = String.length s + String.length t.
Proof.
  induction s as [|a s IH]; [reflexivity|]. rewrite str_app_cons. cbn. rewrite IH. reflexivity.
Qed.

Lemma join_cons2 sep l1 l2 ls :
  Py.join sep (l1 :: l2 :: ls) = l1 +:+ sep +:+ Py.join sep (l2 :: ls).
Proof. reflexivity. Qed.

Lemma contains_app c s t :
  Py.contains c (s +:+ t) = Py.contains c s || Py.contains c t.
Proof.
  induction s as [|a s IH]; [reflexivity|]. rewrite str_app_cons. cbn.
  case_decide; [reflexivity|exact IH].
Qed.

Lemma split_lines_single l :
  Py.contains "010" l = false → split_lines l = [l].
Proof.
  induction l as [|a l IH]; cbn; [reflexivity|].
  case_decide; [discriminate|]. intros Hl%IH. rewrite Hl. reflexivity.
Qed.

Lemma split_lines_app l rest :
  Py.contains "010" l = false →
  split_lines (l +:+ newline +:+ rest) = l :: split_lines rest.
Proof.
  induction l as [|a l IH]; [reflexivity|]. rewrite str_app_cons. cbn.
  case_decide; [discriminate|]. intros Hl%IH. rewrite Hl. reflexivity.
Qed.

Lemma split_lines_join ls :
  ls ≠ [] → Forall (λ l, Py.contains "010" l = false) ls →
  split_lines (Py.join newline ls) = ls.
Proof.
  induction ls as [|l1 [|l2 ls] IH]; intros Hne Hall; [done| |].
  - apply split_lines_single, (Forall_inv Hall).
  - rewrite join_cons2, split_lines_app by apply (Forall_inv Hall).
    rewrite IH; [reflexivity|done|apply (Forall_inv_tail Hall)].
Qed.


Lemma plain_char_spec a :
  plain_char a = true →
  is_ctrl a = false ∧ a ≠ "034"%char ∧ a ≠ "092"%char.
Proof.
  unfold plain_char. intros [[H1 H2]%andb_prop H3]%andb_prop.
  apply negb_true_iff in H1, H2, H3.
  apply bool_decide_eq_false in H2, H3. done.
Qed.

Lemma quoted_app s rest :
  quoted s +:+ rest = String "034" (s +:+ String "034" rest).
Proof. unfold quoted, dquote. rewrite !str_app_assoc. reflexivity. Qed.

Lemma basic_string_plain s rest :
  is_plain s = true → basic_string (s +:+ String "034" rest) = Some (s, rest).
Proof.
  induction s as [|a s IH]; [reflexivity|].
  intros [Ha Hs]%andb_prop. apply plain_char_spec in Ha as (Hc & Hq & Hb).
  rewrite str_app_cons. cbn [basic_string].
  rewrite !decide_False, Hc, (IH Hs) by done. reflexivity.
Qed.

Lemma quoted_string_plain s rest :
  is_plain s = true → Py.startswith dquote rest = false →
  quoted_string (quoted s +:+ rest) = Some (s, rest).
Proof.
  intros Hs Hrest. rewrite quoted_app. cbn [quoted_string].
  rewrite decide_True by done.
  assert (Py.startswith (dquote +:+ dquote) (s +:+ String "034" rest) = false) as ->.
  { change (dquote +:+ dquote) with (String "034" (String "034" "")).
    destruct s as [|a s]; [exact Hrest|].
    apply andb_prop in Hs as [(_ & Hq & _)%plain_char_spec _].
    rewrite str_app_cons. cbn [Py.startswith]. rewrite decide_False; done. }
  apply basic_string_plain, Hs.
Qed.

Lemma array_items_space fuel s :
  array_items fuel (String " " s) = array_items fuel s.
Proof. destruct fuel; reflexivity. Qed.

Lemma skip_ws_quote s : skip_ws (String "034" s) = String "034" s.
Proof. reflexivity. Qed.

Lemma array_items_step fuel s tail :
  is_plain s = true → Py.startswith dquote tail = false →
  array_items (S fuel) (quoted s +:+ tail) =
    match skip_ws tail with
    | "" => None
    | String b rest =>
        if decide (b = ","%char) then
          '(items, rest') ← array_items fuel rest;
          Some (VStr s :: items, rest')
        else if decide (b = "]"%char) then Some ([VStr s], rest)
        else None
    end.
Proof.
  intros Hs Htail. cbn [array_items]. rewrite quoted_app, skip_ws_quote.
  cbv beta iota. rewrite decide_False by done.
  rewrite <- quoted_app, (quoted_string_plain _ _ Hs Htail). reflexivity.
Qed.

Lemma array_items_plain strs fuel rest :
  length strs < fuel → Forall (λ s, is_plain s = true) strs →
  array_items fuel (Py.join ", " (quoted <$> strs) +:+ String "]" rest)
    = Some (VStr <$> strs, rest).
Proof.
  revert fuel. induction strs as [|s1 [|s2 strs] IH]; intros [|fuel] Hfuel Hall;
    try (cbn in Hfuel; lia).
  - reflexivity.
  - change (Py.join ", " (quoted <$> [s1])) with (quoted s1).
    rewrite array_items_step; [reflexivity|apply (Forall_inv Hall)|reflexivity].
  - rewrite !fmap_cons, join_cons2, !str_app_assoc.
    rewrite array_items_step; [|apply (Forall_inv Hall)|reflexivity].
    change (skip_ws (", " +:+ ?x)) with (String "," (String " " x)).
    cbv beta iota. rewrite decide_True by done.
    rewrite array_items_space, <- fmap_cons, IH;
      [reflexivity|cbn in *; lia|apply (Forall_inv_tail Hall)].
Qed.

Lemma join_quoted_length strs :
  (length strs ≤ String.length (Py.join ", " (quoted <$> strs)))%nat.
Proof.
  induction strs as [|s1 [|s2 strs] IH]; [done| |].
  - change (Py.join ", " (quoted <$> [s1])) with (quoted s1).
    unfold quoted. rewrite !str_length_app. cbn. lia.
  - rewrite !fmap_cons, join_cons2, !str_length_app.
    rewrite <- fmap_cons. change (String.length ", ") with 2.
    cbn [length] in *. lia.
Qed.

Lemma parse_value_str s :
  is_plain s = true → parse_value (quoted s) = Some (VStr s, "").
Proof.
  intros Hs. rewrite <- (str_app_nil_r (quoted s)), quoted_app.
  cbn [parse_value]. rewrite decide_False by done.
  rewrite <- quoted_app, quoted_string_plain; done.
Qed.

Lemma parse_value_list strs :
  Forall (λ s, is_plain s = true) strs →
  parse_value (String "[" (Py.join ", " (quoted <$> strs) +:+ "]"))
    = Some (VList (VStr <$> strs), "").
Proof.
  intros Hall. cbn [parse_value]. rewrite decide_True by done.
  rewrite array_items_plain; [reflexivity| |exact Hall].
  rewrite str_length_app. pose proof (join_quoted_length strs). cbn. lia.
Qed.

Lemma is_bare_not_ws a : is_bare a = true → is_ws a = false.
Proof.
  unfold is_ws. intros Ha.
  case_bool_decide as H1; [subst; discriminate|].
  case_bool_decide as H2; [subst; discriminate|]. reflexivity.
Qed.

Lemma take_bare_app k rest :
  string_forall is_bare k = true →
  match rest with "" => true | String b _ => negb (is_bare b) end = true →
  take_bare (k +:+ rest) = (k, rest).
Proof.
  intros Hk Hrest. induction k as [|a k IH].
  - rewrite str_app_nil_l. destruct rest as [|b rest]; [reflexivity|].
    cbn [take_bare]. apply negb_true_iff in Hrest. rewrite Hrest. reflexivity.
  - apply andb_prop in Hk as [Ha Hk]. rewrite str_app_cons. cbn [take_bare].
    rewrite Ha, (IH Hk). reflexivity.
Qed.

Lemma bare_key_cons k :
  is_bare_key k = true →
  ∃ a k', k = String a k' ∧ is_bare a = true ∧ string_forall is_bare k = true.
Proof.
  intros [Hne%bool_decide_eq_true Hall]%andb_prop.
  destruct k as [|a k']; [done|]. exists a, k'. split; [done|].
  split; [|exact Hall]. apply andb_prop in Hall as [? _]. done.
Qed.

Lemma parse_line_header k :
  is_bare_key k = true → parse_line ("[" +:+ k +:+ "]") = Some (LHeader k).
Proof.
  intros (a & k' & -> & Ha & Hall)%bare_key_cons.
  change ("[" +:+ String a k' +:+ "]") with (String "[" (String a k' +:+ "]")).
  unfold parse_line. change (skip_ws (String "[" ?x)) with (String "[" x).
  cbv beta iota. rewrite decide_False, decide_True by done.
  unfold parse_header.
  assert (skip_ws (String a k' +:+ "]") = String a k' +:+ "]") as ->.
  { rewrite str_app_cons. cbn [skip_ws]. rewrite (is_bare_not_ws _ Ha). reflexivity. }
  rewrite take_bare_app by done. reflexivity.
Qed.

Lemma parse_line_assignment k text :
  is_bare_key k = true →
  parse_line (k +:+ String " " (String "=" (String " " text))) =
    '(v, rest) ← parse_value (skip_ws text);
    if line_end rest then Some (LPair k v) else None.
Proof.
  intros (a & k' & -> & Ha & Hall)%bare_key_cons.
  unfold parse_line. rewrite str_app_cons. cbn [skip_ws].
  rewrite (is_bare_not_ws _ Ha). cbv beta iota.
  rewrite !decide_False by (intros ->; discriminate).
  rewrite <- str_app_cons, take_bare_app by done.
  reflexivity.
Qed.

Lemma parse_line_str k s :
  is_bare_key k = true → is_plain s = true →
  parse_line (k +:+ " = " +:+ quoted s) = Some (LPair k (VStr s)).
Proof.
  intros Hk Hs.
  change (k +:+ " = " +:+ quoted s)
    with (k +:+ String " " (String "=" (String " " (quoted s)))).
  rewrite parse_line_assignment by exact Hk.
  assert (skip_ws (quoted s) = quoted s) as ->
    by (rewrite <- (str_app_nil_r (quoted s)), quoted_app; reflexivity).
  rewrite parse_value_str by exact Hs. reflexivity.
Qed.

Lemma parse_line_list k strs :
  is_bare_key k = true → Forall (λ s, is_plain s = true) strs →
  parse_line (k +:+ " = [" +:+ Py.join ", " (quoted <$> strs) +:+ "]")
    = Some (LPair k (VList (VStr <$> strs))).
Proof.
  intros Hk Hall.
  change (k +:+ " = [" +:+ ?x)
    with (k +:+ String " " (String "=" (String " " (String "[" x)))).
  rewrite parse_line_assignment by exact Hk.
  change (skip_ws (String "[" ?x)) with (String "[" x).
  rewrite parse_value_list by exact Hall. reflexivity.
Qed.

End strings.

(** Every line of a plain entry is read back as the pair it was written
    from. *)

Section entries.

Lemma plain_items_strings items :
  forallb plain_value items = true →
  items = VStr <$> (py_str <$> items) ∧
  Forall (λ s, is_plain s = true) (py_str <$> items).
Proof.
  induction items as [|v items IH]; [done|].
  cbn [forallb]. intros [Hv Hitems]%andb_prop.
  destruct (IH Hitems) as [Heq Hall]. destruct v as [s| | |]; try discriminate.
  rewrite !fmap_cons. split; [cbn; congruence|].
  constructor; [exact Hv|exact Hall].
Qed.

Lemma parse_pair_line pair :
  plain_pair pair = true → parse_line (pair_line pair) = Some (LPair pair.1 pair.2).
Proof.
  destruct pair as [key v]. unfold plain_pair, pair_line. cbn [fst snd].
  intros [Hkey Hv]%andb_prop. destruct v as [s| | |items]; try discriminate.
  - apply parse_line_str; assumption.
  - destruct (plain_items_strings items Hv) as [Heq Hall].
    unfold list_line.
    change ((λ e, quoted (py_str e)) <$> items) with ((quoted ∘ py_str) <$> items).
    rewrite list_fmap_compose.
    change (key +:+ " = [" +:+ ?x +:+ "]") with (key +:+ " = [" +:+ x +:+ "]").
    rewrite parse_line_list by assumption.
    rewrite <- Heq. reflexivity.
Qed.

Lemma detection_lines_pairs (info : gmap string value) :
  detection_lines info = pair_line <$> detection_pairs info.
Proof.
  unfold detection_lines, detection_pairs, DETECTION_FIELDS. cbn [flat_map].
  destruct (well_formed_list info "extensions"), (well_formed_list info "suffixes"),
    (well_formed_list info "filenames"); reflexivity.
Qed.

Lemma block_of_pairs (item : string * gmap string value) :
  block_of item = ("[" +:+ item.1 +:+ "]") :: (pair_line <$> entry_pairs item.2) ++ [""].
Proof.
  unfold block_of, entry_block, entry_pairs. rewrite detection_lines_pairs.
  rewrite !fmap_app. cbn [app fmap list_fmap]. rewrite <- app_assoc. reflexivity.
Qed.

Lemma entry_pairs_keys_NoDup (info : gmap string value) : NoDup (entry_pairs info).*1.
Proof.
  unfold entry_pairs, detection_pairs, DETECTION_FIELDS. cbn [flat_map].
  destruct (well_formed_list info "extensions"), (well_formed_list info "suffixes"),
    (well_formed_list info "filenames"); cbn; compute_done.
Qed.

Lemma plain_value_str v :
  plain_value v = true → ∃ s, v = VStr s ∧ is_plain s = true.
Proof. destruct v as [s| | |]; try discriminate. eauto. Qed.

Lemma detection_pairs_plain (info : gmap string value) :
  forallb (plain_field info) DETECTION_FIELDS = true →
  Forall (λ pair, plain_pair pair = true) (detection_pairs info).
Proof.
  intros Hfields. unfold detection_pairs.
  set (written := flat_map _ DETECTION_FIELDS).
  assert (Forall (λ pair, plain_pair pair = true) written) as Hwritten.
  { subst written. apply Forall_flat_map, Forall_forall. intros field Hfield.
    rewrite forallb_forall in Hfields.
    specialize (Hfields field (proj1 (list_elem_of_In _ _) Hfield)).
    unfold plain_field, well_formed_list in *.
    destruct (info !! field) as [[| | |items]|]; try constructor; [|constructor].
    unfold plain_pair. cbn [fst snd]. rewrite Hfields, andb_true_r.
    unfold DETECTION_FIELDS in Hfield.
    repeat (apply elem_of_cons in Hfield as [->|Hfield]; [reflexivity|]).
    by apply elem_of_nil in Hfield. }
  destruct written; [repeat constructor|exact Hwritten].
Qed.

Lemma entry_pairs_plain (info : gmap string value) :
  plain_entry info = true →
  Forall (λ pair, plain_pair pair = true) (entry_pairs info).
Proof.
  unfold plain_entry.
  intros [[[Hname Hzed]%andb_prop Hdet]%andb_prop Hsrc]%andb_prop.
  unfold entry_pairs. apply Forall_app. split; [|apply Forall_app; split].
  - destruct (info !! "name") as [name|]; [|discriminate].
    destruct (info !! "zed_language") as [zed|]; [|discriminate].
    apply plain_value_str in Hname as (n & -> & Hn), Hzed as (z & -> & Hz).
    apply Forall_cons_2; [|apply Forall_cons_2; [|apply Forall_nil_2]];
      unfold plain_pair; cbn [fst snd default py_str id];
      [rewrite Hn|rewrite Hz]; reflexivity.
  - apply detection_pairs_plain, Hdet.
  - destruct (info !! "source") as [src|]; [|repeat constructor].
    apply plain_value_str in Hsrc as (s & -> & Hs).
    apply Forall_cons_2; [|apply Forall_nil_2].
    unfold plain_pair. cbn [fst snd default py_str id]. rewrite Hs. reflexivity.
Qed.

Lemma plain_entry_fields (info : gmap string value) :
  plain_entry info = true →
  is_Some (info !! "name") ∧ is_Some (info !! "zed_language").
Proof.
  unfold plain_entry.
  intros [[[Hname Hzed]%andb_prop _]%andb_prop _]%andb_prop.
  destruct (info !! "name"), (info !! "zed_language"); try discriminate. eauto.
Qed.

Lemma parse_block (item : string * gmap string value) :
  is_bare_key item.1 = true → plain_entry item.2 = true →
  Forall2 (λ line parsed, parse_line line = Some parsed) (block_of item) (block_lines item).
Proof.
  intros Hkey Hplain. rewrite block_of_pairs. unfold block_lines.
  constructor; [apply parse_line_header, Hkey|].
  apply Forall2_app; [|repeat constructor].
  apply Forall2_fmap, Forall_Forall2_diag.
  eapply Forall_impl; [apply entry_pairs_plain, Hplain|].
  intros pair Hpair. apply parse_pair_line, Hpair.
Qed.
End entries.

(** The lines of the file assemble into one table per entry. *)

Section document.

Lemma add_lines_app st lines1 lines2 :
  add_lines st (lines1 ++ lines2) = st' ← add_lines st lines1; add_lines st' lines2.
Proof.
  revert st. induction lines1 as [|line lines1 IH]; intros st; [reflexivity|].
  cbn [app add_lines]. destruct (add_line st line) as [st'|]; [apply IH|reflexivity].
Qed.

Lemma add_pairs table (pairs : list (string * value)) done fields :
  NoDup pairs.*1 → (∀ key, key ∈ pairs.*1 → fields !! key = None) →
  add_lines {| finished := done; open_table := Some (table, fields) |}
            ((λ pair, LPair pair.1 pair.2) <$> pairs)
  = Some {| finished := done;
            open_table :=
              Some (table, foldl (λ fields pair, <[pair.1 := pair.2]> fields) fields pairs) |}.
Proof.
  revert fields. induction pairs as [|[key v] pairs IH]; intros fields Hnd Hfresh;
    [reflexivity|].
  rewrite fmap_cons in Hnd. apply NoDup_cons in Hnd as [Hkey Hnd].
  cbn [fmap list_fmap add_lines add_line open_table finished fst snd].
  rewrite bool_decide_false; [|rewrite Hfresh; [by intros [? [=]]|left]].
  cbn. apply IH; [exact Hnd|].
  intros key' Hin. rewrite lookup_insert_ne; [apply Hfresh; right; exact Hin|].
  intros ->. contradiction.
Qed.

Lemma add_block st (item : string * gmap string value) :
  item.1 ∉ (close_table st).*1 →
  add_lines st (block_lines item)
  = Some {| finished := close_table st;
            open_table := Some (item.1, canonical item.2) |}.
Proof.
  intros Hfresh. unfold block_lines. cbn [add_lines add_line].
  rewrite bool_decide_false by exact Hfresh. cbn [mbind option_bind].
  rewrite add_lines_app, add_pairs; [reflexivity|apply entry_pairs_keys_NoDup|].
  intros key _. apply lookup_empty.
Qed.

Lemma add_blocks st (entries : list (string * gmap string value)) :
  NoDup entries.*1 → (∀ key, key ∈ entries.*1 → key ∉ (close_table st).*1) →
  ∃ st', add_lines st (flat_map block_lines entries) = Some st' ∧
         close_table st' =
           close_table st ++ ((λ item, (item.1, ITable (canonical item.2))) <$> entries).
Proof.
  revert st. induction entries as [|item entries IH]; intros st Hnd Hfresh.
  - exists st. rewrite app_nil_r. done.
  - rewrite fmap_cons in Hnd. apply NoDup_cons in Hnd as [Hitem Hnd].
    cbn [flat_map]. rewrite add_lines_app, add_block by (apply Hfresh; left).
    cbn [mbind option_bind]. edestruct IH as (st' & Hrun & Hclose); [exact Hnd| |].
    2: { exists st'. split; [exact Hrun|]. rewrite Hclose. cbn [close_table open_table finished].
         rewrite <- app_assoc. reflexivity. }
    intros key Hin. cbn [close_table open_table finished].
    rewrite fmap_app, elem_of_app. intros [Hold|Hnew].
    + apply (Hfresh key); [right; exact Hin|exact Hold].
    + apply list_elem_of_singleton in Hnew. cbn in Hnew. subst key. contradiction.
Qed.

Lemma normalize_tables CONFIG_PATH (entries : list (string * gmap string value)) :
  normalize_config CONFIG_PATH
    (RDict (prod_map KStr id <$>
              ((λ item, (item.1, ITable (canonical item.2))) <$> entries)))
  = Ok (canonical_item <$> entries).
Proof.
  unfold normalize_config. induction entries as [|item entries IH]; [reflexivity|].
  rewrite !fmap_cons. cbn [normalize_items prod_map fst snd id]. rewrite IH. reflexivity.
Qed.
End document.

(** No line of the file holds a line feed, so the text splits into the
    lines it was joined from. *)

Section file.

Lemma string_forall_contains p c s :
  string_forall p s = true → p c = false → Py.contains c s = false.
Proof.
  intros Hall Hc. induction s as [|a s IH]; [reflexivity|].
  apply andb_prop in Hall as [Ha Hs]. cbn.
  case_decide as Heq; [congruence|auto].
Qed.

Lemma plain_no_newline s : is_plain s = true → Py.contains "010" s = false.
Proof. intros H. by apply (string_forall_contains plain_char). Qed.

Lemma bare_no_newline k : is_bare_key k = true → Py.contains "010" k = false.
Proof. intros [_ H]%andb_prop. by apply (string_forall_contains is_bare). Qed.

Lemma quoted_no_newline s : is_plain s = true → Py.contains "010" (quoted s) = false.
Proof.
  intros H. unfold quoted. rewrite !contains_app, (plain_no_newline s H). reflexivity.
Qed.

Lemma join_quoted_no_newline strs :
  Forall (λ s, is_plain s = true) strs →
  Py.contains "010" (Py.join ", " (quoted <$> strs)) = false.
Proof.
  induction strs as [|s1 [|s2 strs] IH]; intros Hall; [reflexivity| |].
  - apply quoted_no_newline, (Forall_inv Hall).
  - rewrite !fmap_cons, join_cons2, !contains_app.
    rewrite quoted_no_newline by apply (Forall_inv Hall).
    rewrite <- fmap_cons, IH by apply (Forall_inv_tail Hall). reflexivity.
Qed.

Lemma pair_line_no_newline pair :
  plain_pair pair = true → Py.contains "010" (pair_line pair) = false.
Proof.
  destruct pair as [key v]. unfold plain_pair, pair_line. cbn [fst snd].
  intros [Hkey%bare_no_newline Hv]%andb_prop.
  destruct v as [s| | |items]; try discriminate.
  - rewrite !contains_app, Hkey, quoted_no_newline by exact Hv. reflexivity.
  - destruct (plain_items_strings items Hv) as [_ Hall].
    unfold list_line.
    change ((λ e, quoted (py_str e)) <$> items) with ((quoted ∘ py_str) <$> items).
    rewrite list_fmap_compose, !contains_app, Hkey, join_quoted_no_newline by exact Hall.
    reflexivity.
Qed.

Lemma block_no_newline (item : string * gmap string value) :
  is_bare_key item.1 = true → plain_entry item.2 = true →
  Forall (λ line, Py.contains "010" line = false) (block_of item).
Proof.
  intros Hkey Hplain. rewrite block_of_pairs.
  constructor; [rewrite !contains_app, (bare_no_newline _ Hkey); reflexivity|].
  apply Forall_app. split; [|repeat constructor].
  apply Forall_fmap. eapply Forall_impl; [apply entry_pairs_plain, Hplain|].
  intros pair Hpair. apply pair_line_no_newline, Hpair.
Qed.

Lemma loads_file (entries : list (string * gmap string value)) :
  NoDup entries.*1 →
  Forall (λ item, is_bare_key item.1 = true ∧ plain_entry item.2 = true) entries →
  toml_loads (Py.join newline (header_lines ++ flat_map block_of entries))
  = Some ((λ item, (item.1, ITable (canonical item.2))) <$> entries).
Proof.
  intros Hnd Hplain. unfold toml_loads. rewrite split_lines_join.
  2: { discriminate. }
  2: { apply Forall_app. split; [repeat constructor|].
       apply Forall_flat_map. eapply Forall_impl; [exact Hplain|].
       intros item [Hk He]. apply block_no_newline; assumption. }
  rewrite (mapM_Some_2 parse_line _ ([LBlank; LBlank; LBlank] ++ flat_map block_lines entries)).
  2: { apply Forall2_app; [repeat constructor|]. clear Hnd.
       induction Hplain as [|item entries [Hk He] _ IH]; [constructor|].
       cbn [flat_map]. apply Forall2_app; [apply parse_block; assumption|exact IH]. }
  cbn [mbind option_bind app add_lines add_line].
  destruct (add_blocks {| finished := []; open_table := None |} entries Hnd)
    as (st' & Hrun & Hclose).
  { intros key _. cbn. apply not_elem_of_nil. }
  rewrite Hrun. cbn [mbind option_bind]. rewrite Hclose. reflexivity.
Qed.
End file.

(** The canonical registry, and the order of the file. *)

Section roundtrip.

Lemma foldl_insert_lookup (pairs : list (string * value)) (fields : gmap string value) key :
  NoDup pairs.*1 →
  foldl (λ fields pair, <[pair.1 := pair.2]> fields) fields pairs !! key =
    match dict_get pairs key with
    | Some v => Some v
    | None => fields !! key
    end.
Proof.
  revert fields. induction pairs as [|[key' v] pairs IH]; intros fields Hnd; [reflexivity|].
  rewrite fmap_cons in Hnd. apply NoDup_cons in Hnd as [Hfresh Hnd].
  cbn [foldl dict_get fst snd]. rewrite (IH _ Hnd).
  case_decide as Hkey.
  - subst key'. destruct (dict_get pairs key) as [v'|] eqn:Hget.
    + exfalso. apply Hfresh. apply dict_get_elem_of in Hget.
      apply list_elem_of_fmap. exists (key, v'). done.
    + apply lookup_insert_eq.
  - destruct (dict_get pairs key); [reflexivity|]. apply lookup_insert_ne, Hkey.
Qed.

Lemma canonical_lookup (info : gmap string value) key :
  canonical info !! key = dict_get (entry_pairs info) key.
Proof.
  unfold canonical. rewrite foldl_insert_lookup by apply entry_pairs_keys_NoDup.
  destruct (dict_get (entry_pairs info) key); [reflexivity|apply lookup_empty].
Qed.

(** The canonical entry is written exactly like the entry itself. *)
Lemma block_of_canonical (item : string * gmap string value) :
  block_of (canonical_item item) = block_of item.
Proof.
  destruct item as [lang_id info].
  unfold block_of, canonical_item, entry_block, detection_lines, well_formed_list,
    DETECTION_FIELDS.
  cbn [fst snd flat_map]. rewrite !canonical_lookup.
  unfold entry_pairs, detection_pairs, well_formed_list, DETECTION_FIELDS.
  cbn [flat_map].
  destruct (info !! "extensions") as [[| | |xe]|], (info !! "suffixes") as [[| | |xs]|],
    (info !! "filenames") as [[| | |xf]|]; reflexivity.
Qed.

Lemma canonical_fields (info : gmap string value) :
  is_Some (canonical info !! "name") ∧ is_Some (canonical info !! "zed_language").
Proof. rewrite !canonical_lookup. split; eexists; reflexivity. Qed.

Lemma lookup_all_cons (cfg : config) lang_id ids :
  lookup_all cfg (lang_id :: ids) =
    match dict_get cfg lang_id with
    | Some info => (lang_id, info) :: lookup_all cfg ids
    | None => lookup_all cfg ids
    end.
Proof.
  unfold lookup_all. cbn [omap list_omap]. destruct (dict_get cfg lang_id); reflexivity.
Qed.

Lemma lookup_all_keys (cfg : config) ids :
  ids ⊆ keys cfg → (lookup_all cfg ids).*1 = ids.
Proof.
  induction ids as [|lang_id ids IH]; intros Hsub; [reflexivity|].
  destruct (dict_get_is_Some cfg lang_id) as [info Hget]; [apply Hsub; left|].
  rewrite lookup_all_cons, Hget, fmap_cons. cbn [fst].
  f_equal. apply IH. intros k Hk. apply Hsub. right. exact Hk.
Qed.

Lemma lookup_all_elem_of (cfg : config) ids item :
  item ∈ lookup_all cfg ids → item ∈ cfg.
Proof.
  unfold lookup_all. rewrite list_elem_of_omap. intros (lang_id & _ & Hitem).
  destruct (dict_get cfg lang_id) as [info|] eqn:Hget; [|discriminate].
  injection Hitem as <-. apply dict_get_elem_of, Hget.
Qed.

Lemma lookup_all_cons_ne (cfg : config) lang_id info ids :
  lang_id ∉ ids → lookup_all ((lang_id, info) :: cfg) ids = lookup_all cfg ids.
Proof.
  induction ids as [|k ids IH]; intros Hfresh; [reflexivity|].
  apply not_elem_of_cons in Hfresh as [Hne Hfresh].
  rewrite !lookup_all_cons, (IH Hfresh). cbn [dict_get].
  rewrite decide_False by done. reflexivity.
Qed.

Lemma lookup_all_self (cfg : config) : is_dict cfg → lookup_all cfg (keys cfg) = cfg.
Proof.
  unfold is_dict, keys. induction cfg as [|[lang_id info] cfg IH]; [reflexivity|].
  rewrite fmap_cons. intros [Hfresh Hnd]%NoDup_cons.
  cbn [fst]. rewrite lookup_all_cons. cbn [dict_get].
  rewrite decide_True by done.
  rewrite lookup_all_cons_ne by exact Hfresh. f_equal. apply IH, Hnd.
Qed.

Lemma sorted_idem l : Py.sorted (Py.sorted l) = Py.sorted l.
Proof.
  unfold Py.sorted. apply (Sorted_unique String.le).
  - apply Sorted_merge_sort, _.
  - apply Sorted_merge_sort, _.
  - apply merge_sort_Permutation.
Qed.

Lemma save_entries_lookup_all (cfg : config) ids :
  Forall (λ item, is_Some (item.2 !! "name") ∧ is_Some (item.2 !! "zed_language")) cfg →
  ids ⊆ keys cfg →
  save_entries cfg ids = Ok (flat_map block_of (lookup_all cfg ids)).
Proof.
  intros Hfields. induction ids as [|lang_id ids IH]; intros Hsub; [reflexivity|].
  destruct (dict_get_is_Some cfg lang_id) as [info Hget]; [apply Hsub; left|].
  pose proof (dict_get_elem_of _ _ _ Hget) as Hin.
  rewrite Forall_forall in Hfields.
  destruct (Hfields _ Hin) as [[name Hn] [zed Hz]]. cbn [snd] in Hn, Hz.
  rewrite lookup_all_cons. cbn [save_entries]. rewrite Hget.
  rewrite (entry_lines_block _ _ _ _ Hn Hz). cbn [mbind result_bind].
  rewrite IH by (intros k Hk; apply Hsub; right; exact Hk).
  cbn [mbind result_bind flat_map]. unfold block_of at 2. cbn [fst snd].
  rewrite Hn, Hz. reflexivity.
Qed.

Lemma save_config_in_file_order (cfg : config) :
  Forall (λ item, is_Some (item.2 !! "name") ∧ is_Some (item.2 !! "zed_language")) cfg →
  save_config cfg =
    Ok (Py.join newline (header_lines ++ flat_map block_of (in_file_order cfg))).
Proof.
  intros Hfields. unfold save_config, in_file_order.
  rewrite save_entries_lookup_all; [reflexivity|exact Hfields|].
  intros k Hk. unfold Py.sorted in Hk. rewrite merge_sort_Permutation in Hk. exact Hk.
Qed.

Lemma in_file_order_keys (cfg : config) : (in_file_order cfg).*1 = Py.sorted (keys cfg).
Proof.
  apply lookup_all_keys. intros k Hk. unfold Py.sorted in Hk.
  rewrite merge_sort_Permutation in Hk. exact Hk.
Qed.
End roundtrip.

(** *** The round trip, and the empty registry *)

Section fixed_point.

Lemma plain_config_items (cfg : config) :
  plain_config cfg = true →
  Forall (λ item, is_bare_key item.1 = true ∧ plain_entry item.2 = true) cfg.
Proof.
  unfold plain_config. rewrite forallb_forall, Forall_forall.
  intros H item Hin%list_elem_of_In. apply andb_prop, H, Hin.
Qed.

(** What [load_config] reads from the file that [save_config] wrote. *)
Lemma load_saved CONFIG_PATH (cfg : config) :
  is_dict cfg → plain_config cfg = true →
  load_config CONFIG_PATH
    (Some (Py.join newline (header_lines ++ flat_map block_of (in_file_order cfg))))
  = Ok (canonical_item <$> in_file_order cfg).
Proof.
  intros Hdict Hplain%plain_config_items. unfold load_config.
  rewrite loads_file; [apply normalize_tables| |].
  - rewrite in_file_order_keys. unfold Py.sorted.
    rewrite merge_sort_Permutation. exact Hdict.
  - apply Forall_forall. intros item Hin%lookup_all_elem_of.
    rewrite Forall_forall in Hplain. auto.
Qed.

(** Where nothing needs escaping, the round trip is a fixed point: for a
    registry whose [lang_id]s are distinct bare keys and whose names,
    languages, sources and detection strings are plain strings, saving,
    loading the written file and saving again yields the same text. *)
Theorem save_load_save (CONFIG_PATH : string) (cfg : config) :
  is_dict cfg → plain_config cfg = true →
  ∃ text cfg',
    save_config cfg = Ok text ∧
    load_config CONFIG_PATH (Some text) = Ok cfg' ∧
    save_config cfg' = Ok text.
Proof.
  intros Hdict Hplain.
  exists (Py.join newline (header_lines ++ flat_map block_of (in_file_order cfg))),
    (canonical_item <$> in_file_order cfg).
  split; [|split].
  - apply save_config_in_file_order.
    eapply Forall_impl; [apply plain_config_items, Hplain|].
    intros item [_ He]. apply plain_entry_fields, He.
  - apply load_saved; assumption.
  - rewrite save_config_in_file_order.
    2: { apply Forall_fmap, Forall_forall. intros item _. apply canonical_fields. }
    assert (keys (canonical_item <$> in_file_order cfg) = Py.sorted (keys cfg)) as Hkeys.
    { unfold keys. rewrite <- list_fmap_compose.
      change (fst ∘ canonical_item) with (fst : string * gmap string value → string).
      apply in_file_order_keys. }
    assert (in_file_order (canonical_item <$> in_file_order cfg)
            = canonical_item <$> in_file_order cfg) as ->.
    { unfold in_file_order at 1. rewrite Hkeys, sorted_idem, <- Hkeys.
      apply lookup_all_self. unfold is_dict. fold (keys (canonical_item <$> in_file_order cfg)).
      rewrite Hkeys. unfold Py.sorted. rewrite merge_sort_Permutation. exact Hdict. }
    clear Hkeys. do 3 f_equal.
    induction (in_file_order cfg) as [|item items IH]; [reflexivity|].
    rewrite fmap_cons. cbn [flat_map]. rewrite block_of_canonical, IH. reflexivity.
Qed.

Lemma save_load_save_witness :
  let cfg : config :=
    [("python", <["name" := VStr "Python"]> (<["zed_language" := VStr "Python"]>
                  (<["source" := VStr "native"]> {[ "extensions" := str_list ["py"; "pyi"] ]})));
     ("just", <["name" := VStr "Just"]> (<["zed_language" := VStr "Just"]>
                {[ "filenames" := str_list ["Justfile"] ]}))] in
  ∃ text cfg',
    save_config cfg = Ok text ∧
    load_config "languages.toml" (Some text) = Ok cfg' ∧
    save_config cfg' = Ok text.
Proof.
  intros cfg. apply (save_load_save "languages.toml" cfg).
  - unfold is_dict. vm_compute. repeat constructor; compute_done.
  - vm_compute. reflexivity.
Defined.

(** C6.  The writer breaks the fixed point.  The registry below passes
    [validate_config]; its name is two backslashes.  [save_config] writes
    them between the quotes as they are, which in TOML is the escape of
    one backslash; the file is read back with a name of one backslash, and
    saving that registry writes another text, so saving, loading and
    saving again does not give the text of the first save.  The second
    text is not even a TOML document: the reader rejects it. *)
Theorem save_load_save_diverges :
  let cfg : config :=
    [("x", <["name" := VStr (backslash +:+ backslash)]> (<["zed_language" := VStr "x"]>
             {[ "extensions" := str_list ["x"] ]}))] in
  let cfg' : config :=
    [("x", <["name" := VStr backslash]> (<["zed_language" := VStr "x"]>
             (<["source" := VStr "extra"]> {[ "extensions" := str_list ["x"] ]})))] in
  let file (name : string) :=
    Py.join newline
      (header_lines ++
       ["[x]"; "name = " +:+ quoted name; "zed_language = " +:+ quoted "x";
        "extensions = [" +:+ quoted "x" +:+ "]"; "source = " +:+ quoted "extra"; ""]) in
  validate_config cfg = Ok tt ∧
  save_config cfg = Ok (file (backslash +:+ backslash)) ∧
  load_config "languages.toml" (Some (file (backslash +:+ backslash))) = Ok cfg' ∧
  save_config cfg' = Ok (file backslash) ∧
  file backslash ≠ file (backslash +:+ backslash) ∧
  (save_config cfg ≫= λ text, load_config "languages.toml" (Some text) ≫= save_config)
    ≠ save_config cfg ∧
  load_config "languages.toml" (Some (file backslash)) = Raise "tomllib.TOMLDecodeError".
Proof.
  intros cfg cfg' file.
  assert (file backslash ≠ file (backslash +:+ backslash)) as Hdiffer.
  { intros Heq. apply (f_equal String.length) in Heq. vm_compute in Heq. discriminate. }
  assert (save_config cfg = Ok (file (backslash +:+ backslash))) as Hfirst by by_evaluation.
  assert (load_config "languages.toml" (Some (file (backslash +:+ backslash))) = Ok cfg')
    as Hload by by_evaluation.
  assert (save_config cfg' = Ok (file backslash)) as Hsecond by by_evaluation.
  repeat split; try assumption; try by_evaluation.
  rewrite Hfirst. cbn [mbind result_bind]. rewrite Hload. cbn [mbind result_bind].
  rewrite Hsecond. intros Heq. apply Hdiffer. congruence.
Qed.

(** A double quote in a name ends the string early: the written file is
    no TOML document any more. *)
Example load_saved_quote :
  let cfg : config :=
    [("x", <["name" := VStr ("a" +:+ dquote +:+ "b")]> (<["zed_language" := VStr "x"]>
             {[ "extensions" := str_list ["x"] ]}))] in
  validate_config cfg = Ok tt ∧
  (save_config cfg ≫= λ text, load_config "languages.toml" (Some text))
  = Raise "tomllib.TOMLDecodeError".
Proof. split; by_evaluation. Qed.

(** C10. [validate_config] exits on the empty registry, which is what
    [load_config] returns when the file does not exist; and
    [load_and_validate_config] never returns an empty registry. *)
Theorem validate_config_rejects_empty (CONFIG_PATH : string) :
  validate_config [] = Exit ["ERROR: Config is empty"] ∧
  load_config CONFIG_PATH None = Ok [] ∧
  (load_config CONFIG_PATH None ≫= validate_config) = Exit ["ERROR: Config is empty"] ∧
  ∀ file, load_and_validate_config CONFIG_PATH file ≠ Ok [].
Proof.
  repeat split; try reflexivity.
  intros [text|]; unfold load_and_validate_config, fail; [|discriminate].
  destruct (load_config CONFIG_PATH (Some text)) as [[|item cfg]| |];
    cbn [mbind result_bind]; try discriminate.
  destruct (validate_config (item :: cfg)); cbn [mbind result_bind]; discriminate.
Qed.

(** An existing file without entries is rejected in the same way. *)
Example load_and_validate_empty_file :
  load_and_validate_config "languages.toml" (Some "# no languages yet")
  = Exit ["ERROR: Config is empty"].
Proof. vm_compute. reflexivity. Qed.
End fixed_point.

(** *** sync_zed_languages.py: deduplication and extension extraction *)

Section deduplication.
Import Sync.

Local Abbreviation keep_first :=
  (λ (seen : list string) (k : string), if bool_decide (k ∈ seen) then seen else seen ++ [k]).

Lemma foldl_fromkeys_sublist seen l :
  ∃ kept, foldl keep_first seen l = seen ++ kept ∧ sublist kept l.
Proof.
  revert seen. induction l as [|x l IH]; intros seen; cbn [foldl].
  - exists []. rewrite app_nil_r. split; [reflexivity|constructor].
  - case_bool_decide.
    + destruct (IH seen) as (kept & -> & Hsub). exists kept.
      split; [reflexivity|]. apply sublist_cons, Hsub.
    + destruct (IH (seen ++ [x])) as (kept & -> & Hsub). exists (x :: kept).
      rewrite <- app_assoc. split; [reflexivity|]. apply sublist_skip, Hsub.
Qed.

(** X1. [dedupe_strings] returns the members of its argument in their
    order and without repetition; it returns its argument unchanged
    exactly when that has no repetition, so deduplicating twice is
    deduplicating once. *)
Theorem dedupe_strings_set (items : list string) :
  NoDup (dedupe_strings items) ∧
  sublist (dedupe_strings items) items ∧
  (∀ x, x ∈ dedupe_strings items ↔ x ∈ items) ∧
  (dedupe_strings items = items ↔ NoDup items) ∧
  dedupe_strings (dedupe_strings items) = dedupe_strings items.
Proof.
  unfold dedupe_strings. split; [apply dict_fromkeys_NoDup|]. split; [|split; [|split]].
  - unfold Py.dict_fromkeys. destruct (foldl_fromkeys_sublist [] items) as (kept & -> & Hsub).
    exact Hsub.
  - intros x. apply dict_fromkeys_elem.
  - split; [|apply dict_fromkeys_NoDup_id].
    intros <-. apply dict_fromkeys_NoDup.
  - apply dict_fromkeys_NoDup_id, dict_fromkeys_NoDup.
Qed.

Lemma endswith_refl s : Py.endswith s s = true.
Proof. destruct s; cbn [Py.endswith]; rewrite bool_decide_true by done; reflexivity. Qed.

Lemma endswith_cons p a s : Py.endswith p s = true → Py.endswith p (String a s) = true.
Proof. intros H. cbn [Py.endswith]. rewrite H. apply orb_true_r. Qed.

Lemma endswith_drop_first p s :
  Py.endswith p (drop_first s) = true → Py.endswith p s = true.
Proof. destruct s as [|a s]; [done|]. apply endswith_cons. Qed.

Lemma extract_extension_clean suffix ext :
  extract_extension suffix = Some ext →
  ext ≠ "" ∧ Py.contains "*" ext = false ∧ Py.contains "/" ext = false ∧
  Py.endswith ext suffix = true.
Proof.
  unfold extract_extension.
  set (s1 := if Py.startswith "." suffix then drop_first suffix else suffix).
  set (s2 := if Py.startswith "*" s1
             then if Py.startswith "." (drop_first s1)
                  then drop_first (drop_first s1) else drop_first s1
             else s1).
  destruct (Py.contains "*" s2) eqn:Hstar; [discriminate|].
  destruct (Py.contains "/" s2) eqn:Hslash; [discriminate|]. cbn [orb].
  case_bool_decide as Hne; [|discriminate]. intros [= <-].
  repeat split; try assumption.
  assert (Py.endswith s2 s1 = true) as H21.
  { subst s2. destruct (Py.startswith "*" s1); [|apply endswith_refl].
    destruct (Py.startswith "." (drop_first s1)).
    - apply endswith_drop_first, endswith_drop_first, endswith_refl.
    - apply endswith_drop_first, endswith_refl. }
  clearbody s2. subst s1. destruct (Py.startswith "." suffix); [|exact H21].
  apply endswith_drop_first, H21.
Qed.

Lemma foldl_extract_elem acc path_suffixes ext :
  ext ∈ foldl (λ extensions suffix,
                 match extract_extension suffix with
                 | Some ext => extensions ++ [ext]
                 | None => extensions
                 end) acc path_suffixes
  ↔ ext ∈ acc ∨ ∃ suffix, suffix ∈ path_suffixes ∧ extract_extension suffix = Some ext.
Proof.
  revert acc. induction path_suffixes as [|s l IH]; intros acc; cbn [foldl].
  - split; [auto|]. intros [?|(? & []%elem_of_nil & _)]. assumption.
  - rewrite IH. split.
    + intros [Hacc|(s' & Hin & Hs')].
      * destruct (extract_extension s) as [e|] eqn:He; [|auto].
        apply elem_of_app in Hacc as [?| ->%list_elem_of_singleton]; [auto|].
        right. exists s. split; [left|exact He].
      * right. exists s'. split; [right; exact Hin|exact Hs'].
    + intros [Hacc|(s' & Hin & Hs')].
      * left. destruct (extract_extension s); [apply elem_of_app; auto|exact Hacc].
      * apply elem_of_cons in Hin as [->|Hin].
        -- left. rewrite Hs'. apply elem_of_app. right. left.
        -- right. eauto.
Qed.

(** X2. The extensions that [extract_extensions] returns do not repeat;
    each one is non-empty, holds neither [*] nor [/], and is the end of
    one of the given patterns. *)
Theorem extract_extensions_clean (path_suffixes : list string) :
  NoDup (extract_extensions path_suffixes) ∧
  ∀ ext, ext ∈ extract_extensions path_suffixes →
    ext ≠ "" ∧ Py.contains "*" ext = false ∧ Py.contains "/" ext = false ∧
    ∃ suffix, suffix ∈ path_suffixes ∧ Py.endswith ext suffix = true.
Proof.
  unfold extract_extensions. split; [apply dict_fromkeys_NoDup|].
  intros ext Hext. rewrite dict_fromkeys_elem in Hext.
  apply foldl_extract_elem in Hext as [[]%elem_of_nil|(suffix & Hin & Hs)].
  destruct (extract_extension_clean _ _ Hs) as (? & ? & ? & ?). eauto 10.
Qed.

End deduplication.

(** *** Sorting *)

Section sorting.

Lemma sorted_elem_of l x : x ∈ Py.sorted l ↔ x ∈ l.
Proof. unfold Py.sorted. rewrite merge_sort_Permutation. reflexivity. Qed.

Lemma sorted_length l : length (Py.sorted l) = length l.
Proof. unfold Py.sorted. rewrite merge_sort_Permutation. reflexivity. Qed.

Lemma sorted_Permutation l l' : l ≡ₚ l' → Py.sorted l = Py.sorted l'.
Proof.
  intros Hperm. unfold Py.sorted. apply (Sorted_unique String.le).
  - apply Sorted_merge_sort, _.
  - apply Sorted_merge_sort, _.
  - rewrite !merge_sort_Permutation. exact Hperm.
Qed.

Context {A : Type} (key : A → string).

Local Abbreviation by_key := (λ x y : A, String.le (key x) (key y)).







End sorting.

(** *** generate.py: path suffixes, the README table and the categories *)

Section artifacts.
Import Generate.

(** X3. [generate_path_suffixes] yields three suffixes for every
    extension, namely the extension followed by a dot and each of
    [jinja], [jinja2] and [j2], and nothing else. *)
Theorem generate_path_suffixes_members (extensions : list string) :
  length (generate_path_suffixes extensions) = 3 * length extensions ∧
  ∀ s, s ∈ generate_path_suffixes extensions ↔
    ∃ ext variant,
      ext ∈ extensions ∧ variant ∈ ["jinja"; "jinja2"; "j2"] ∧
      s = ext +:+ "." +:+ variant.
Proof.
  unfold generate_path_suffixes. split.
  - rewrite <- (sorted_length extensions).
    induction (Py.sorted extensions) as [|ext l IH]; [reflexivity|].
    rewrite bind_cons, length_app, IH. cbn [length fmap list_fmap JINJA_VARIANTS]. lia.
  - intros s. rewrite list_elem_of_bind. split.
    + intros (ext & (variant & -> & Hv)%list_elem_of_fmap & Hext).
      rewrite sorted_elem_of in Hext. exists ext, variant. split; [exact Hext|split; [exact Hv|reflexivity]].
    + intros (ext & variant & Hext & Hv & ->). exists ext.
      split; [|apply sorted_elem_of, Hext].
      apply list_elem_of_fmap. exists variant. split; [reflexivity|exact Hv].
Qed.

(** X4. The order in which the extensions are given does not matter to
    [generate_path_suffixes]. *)
Theorem generate_path_suffixes_order (extensions extensions' : list string) :
  extensions ≡ₚ extensions' →
  generate_path_suffixes extensions = generate_path_suffixes extensions'.
Proof.
  intros Hperm. unfold generate_path_suffixes.
  rewrite (sorted_Permutation _ _ Hperm). reflexivity.
Qed.

Lemma generate_path_suffixes_order_witness :
  generate_path_suffixes ["py"; "htm"; "css"] = generate_path_suffixes ["css"; "py"; "htm"].
Proof.
  apply (generate_path_suffixes_order ["py"; "htm"; "css"] ["css"; "py"; "htm"]).
  symmetry. apply (Permutation_cons_append ["py"; "htm"] "css").
Defined.

(** X5. Whatever the flags, an entry that [should_include] selects has a
    detection token, and [--all] selects exactly the entries that have
    one: every other selection is a part of the one of [--all]. *)
Theorem should_include_within_all (info : LanguageConfig) (args : GenerateArgs) :
  (should_include info args = true → has_detection_tokens info = true) ∧
  should_include info {| sort := sort args; all := true; native := native args;
                         ext := ext args |} = has_detection_tokens info.
Proof.
  unfold should_include. cbn [all EXCLUDE_LANGUAGES_WITHOUT_DETECTION andb].
  destruct (has_detection_tokens info); cbn [negb]; split; done.
Qed.

(** X6. Without [--all] the selection does not depend on [--sort], the
    default selection is the union of the selections of [--native] and of
    [--ext], and giving both flags selects the same entries as giving
    none. *)
Theorem should_include_default_union (info : LanguageConfig) (s s' : bool) :
  let args native ext := {| sort := s; all := false; native := native; ext := ext |} in
  should_include info (args false false) =
    should_include info (args true false) || should_include info (args false true)
  ∧ should_include info (args true true) = should_include info (args false false)
  ∧ ∀ native ext,
      should_include info {| sort := s'; all := false; native := native; ext := ext |} =
      should_include info (args native ext).
Proof.
  cbv zeta. unfold should_include.
  cbn [all native ext EXCLUDE_LANGUAGES_WITHOUT_DETECTION andb negb].
  destruct (has_detection_tokens info); cbn [negb]; [|repeat split].
  split; [|split; [|reflexivity]].
  - destruct (bool_decide_reflect (normalize_source info = Source.value Source.NATIVE))
      as [Hn|Hn];
      destruct (bool_decide_reflect (normalize_source info = Source.value Source.EXTENSION))
        as [He|He]; cbn [orb].
    + apply bool_decide_eq_true. rewrite Hn. left.
    + apply bool_decide_eq_true. rewrite Hn. left.
    + apply bool_decide_eq_true. rewrite He. right. left.
    + apply bool_decide_eq_false. rewrite !elem_of_cons, elem_of_nil. tauto.
  - destruct (bool_decide_reflect (normalize_source info = Source.value Source.NATIVE))
      as [Hn|Hn];
      destruct (bool_decide_reflect (normalize_source info = Source.value Source.EXTENSION))
        as [He|He]; symmetry.
    + apply bool_decide_eq_true. rewrite Hn. left.
    + apply bool_decide_eq_true. rewrite Hn. left.
    + apply bool_decide_eq_true. rewrite He. right. left.
    + apply bool_decide_eq_false. rewrite !elem_of_cons, elem_of_nil. tauto.
Qed.

Lemma elem_of_selected_sources (cfg : typed_config) (args : GenerateArgs) s :
  s ∈ (list_to_set (normalize_source
         <$> List.filter (λ info, should_include info args) cfg.*2) : gset string)
  ↔ ∃ item, item ∈ cfg ∧ should_include item.2 args = true ∧ normalize_source item.2 = s.
Proof.
  rewrite elem_of_list_to_set, list_elem_of_fmap. split.
  - intros (info & -> & Hin). apply list_elem_of_In, filter_In in Hin as [Hin Hsel].
    apply list_elem_of_In, list_elem_of_fmap in Hin as (item & -> & Hitem). eauto.
  - intros (item & Hitem & Hsel & <-). exists item.2. split; [reflexivity|].
    apply list_elem_of_In, filter_In. split; [|exact Hsel].
    apply list_elem_of_In, list_elem_of_fmap. eauto.
Qed.

Lemma source_categories_of (selected_sources : gset string) :
  let source_categories :=
    List.filter (λ source, bool_decide (source ∈ selected_sources))
      ["native"; "extension"; "extra"] in
  let categories :=
    match source_categories with
    | [] => ["none"]
    | _ :: _ => source_categories
    end in
  (categories = ["none"] ∨
   categories ≠ [] ∧ sublist categories ["native"; "extension"; "extra"]) ∧
  (∀ s, s ∈ ["native"; "extension"; "extra"] → s ∈ categories ↔ s ∈ selected_sources) ∧
  (categories = ["none"] ↔
     ("native" ∉ selected_sources) ∧ ("extension" ∉ selected_sources)
     ∧ ("extra" ∉ selected_sources)).
Proof.
  cbn [List.filter].
  destruct (bool_decide_reflect ("native" ∈ selected_sources)) as [Hn|Hn];
    destruct (bool_decide_reflect ("extension" ∈ selected_sources)) as [He|He];
    destruct (bool_decide_reflect ("extra" ∈ selected_sources)) as [Hx|Hx];
    cbv zeta; (split; [|split]);
    try (left; reflexivity);
    try (right; split; [discriminate|];
         repeat first [apply sublist_nil|apply sublist_skip|apply sublist_cons]; fail);
    try (split; [discriminate|tauto]);
    try (split; [tauto|reflexivity]);
    intros s Hs; rewrite !elem_of_cons, !elem_of_nil in Hs;
    rewrite !elem_of_cons, !elem_of_nil;
    destruct Hs as [->|[->|[->|[]]]]; split; intros H; try tauto;
    repeat match goal with
           | H : _ ∨ _ |- _ => destruct H
           | H : False |- _ => destruct H
           | H : _ = _ |- _ => discriminate H
           end.
Qed.

(** X7. [infer_selected_source_categories] never returns the empty
    list: it returns [["none"]], or some of [native], [extension] and
    [extra] in this order, each once, and a category is among them exactly
    when a selected entry has that source. *)
Theorem infer_selected_source_categories_spec (cfg : typed_config) (args : GenerateArgs) :
  let categories := infer_selected_source_categories cfg args in
  let selected s :=
    ∃ item, item ∈ cfg ∧ should_include item.2 args = true ∧ normalize_source item.2 = s in
  (categories = ["none"] ∨
   categories ≠ [] ∧ sublist categories ["native"; "extension"; "extra"]) ∧
  (∀ s, s ∈ ["native"; "extension"; "extra"] → s ∈ categories ↔ selected s) ∧
  (categories = ["none"] ↔ ¬ selected "native" ∧ ¬ selected "extension" ∧ ¬ selected "extra").
Proof.
  cbv zeta. unfold infer_selected_source_categories.
  pose proof (elem_of_selected_sources cfg args) as Hsel.
  set (selected_sources := list_to_set _ : gset string) in *. clearbody selected_sources.
  destruct (source_categories_of selected_sources) as (Hshape & Hmem & Hnone).
  cbn [Source.value]. split; [exact Hshape|]. split.
  - intros s Hs. rewrite <- Hsel. apply Hmem, Hs.
  - rewrite <- !Hsel. exact Hnone.
Qed.

(** X8. Unless [--all] is given, [extra] is never among the selected
    categories. *)
Theorem infer_selected_source_categories_default (cfg : typed_config)
    (args : GenerateArgs) :
  all args = false → "extra" ∉ infer_selected_source_categories cfg args.
Proof.
  intros Hall Hin.
  assert (∃ item, item ∈ cfg ∧ should_include item.2 args = true
                  ∧ normalize_source item.2 = "extra") as (item & _ & Hsel & Hsrc).
  { apply elem_of_selected_sources. revert Hin. unfold infer_selected_source_categories.
    set (selected_sources := list_to_set _ : gset string). clearbody selected_sources.
    destruct (source_categories_of selected_sources) as (_ & Hmem & _).
    cbn [Source.value]. apply Hmem. do 2 right. left. }
  revert Hsel. unfold should_include. rewrite Hall, Hsrc.
  destruct (EXCLUDE_LANGUAGES_WITHOUT_DETECTION && negb (has_detection_tokens item.2));
    [discriminate|].
  destruct (native args), (ext args); discriminate.
Qed.

Lemma infer_selected_source_categories_default_witness :
  "extra" ∉ infer_selected_source_categories
    [("notes", {| name := "Notes"; zed_language := "notes"; extensions := Some ["txt"];
                  suffixes := None; filenames := None; source := None; enabled := None |});
     ("python", {| name := "Python"; zed_language := "python"; extensions := Some ["py"];
                   suffixes := None; filenames := None; source := Some "native";
                   enabled := None |})]
    {| sort := false; all := false; native := false; ext := false |}.
Proof. apply infer_selected_source_categories_default. reflexivity. Defined.


End artifacts.

(** *** sync_zed_languages.py: the remote languages *)

Section remote.
Import Sync.

Lemma foldl_filter_extensions (native_signatures : gset string) ext_langs kept skipped :
  foldl (λ '(kept, skipped) lang,
           if bool_decide (syntax_signature lang ≠ "")
              && bool_decide (syntax_signature lang ∈ native_signatures)
           then (kept, skipped ++ [lang])
           else (kept ++ [lang], skipped))
        (kept, skipped) ext_langs =
  (kept ++ filter (λ lang, syntax_signature lang = ""
                           ∨ syntax_signature lang ∉ native_signatures) ext_langs,
   skipped ++ filter (λ lang, syntax_signature lang ≠ ""
                              ∧ syntax_signature lang ∈ native_signatures) ext_langs).
Proof.
  revert kept skipped. induction ext_langs as [|lang l IH]; intros kept skipped.
  - cbn [foldl]. rewrite !filter_nil, !app_nil_r. reflexivity.
  - cbn [foldl]. rewrite !(filter_cons _ lang).
    destruct (bool_decide_reflect (syntax_signature lang ≠ "")) as [Hne|He];
      [destruct (bool_decide_reflect (syntax_signature lang ∈ native_signatures))
         as [Hin|Hout]|]; cbn [andb]; rewrite IH.
    + rewrite decide_False by tauto. rewrite decide_True by tauto.
      rewrite <- app_assoc. reflexivity.
    + rewrite decide_True by tauto. rewrite decide_False by tauto.
      rewrite <- app_assoc. reflexivity.
    + rewrite decide_True by (left; destruct (decide (syntax_signature lang = "")); tauto).
      rewrite decide_False by tauto.
      rewrite <- app_assoc. reflexivity.
Qed.

(** X10. [filter_extensions_reusing_native_syntax] splits the extension
    languages, keeping their order: skipped are those whose signature is
    non-empty and among the native signatures, kept are all others.  A
    language without signature is always kept, and without native
    signatures nothing is skipped. *)
Theorem filter_extensions_partition (native_signatures : gset string)
    (ext_langs : list LanguageInfo) :
  let result := filter_extensions_reusing_native_syntax native_signatures ext_langs in
  result.1 = filter (λ lang, syntax_signature lang = ""
                             ∨ syntax_signature lang ∉ native_signatures) ext_langs ∧
  result.2 = filter (λ lang, syntax_signature lang ≠ ""
                             ∧ syntax_signature lang ∈ native_signatures) ext_langs ∧
  result.1 ++ result.2 ≡ₚ ext_langs ∧
  (native_signatures = ∅ → result = (ext_langs, [])).
Proof.
  cbv zeta. unfold filter_extensions_reusing_native_syntax.
  rewrite foldl_filter_extensions. cbn [fst snd app].
  split; [reflexivity|]. split; [reflexivity|]. split.
  - induction ext_langs as [|lang l IH]; [reflexivity|].
    rewrite !(filter_cons _ lang).
    destruct (decide (syntax_signature lang = "" ∨ syntax_signature lang ∉ native_signatures))
      as [Hkept|Hskipped].
    + rewrite decide_False by tauto. cbn [app]. constructor. exact IH.
    + rewrite decide_True.
      * rewrite <- Permutation_middle. constructor. exact IH.
      * destruct (decide (syntax_signature lang = "")); [tauto|].
        destruct (decide (syntax_signature lang ∈ native_signatures)); tauto.
  - intros ->. f_equal.
    + induction ext_langs as [|lang l IH]; [reflexivity|].
      rewrite filter_cons_True by (right; apply not_elem_of_empty). f_equal. exact IH.
    + induction ext_langs as [|lang l IH]; [reflexivity|].
      rewrite filter_cons_False; [exact IH|]. intros [_ []%elem_of_empty].
Qed.

Local Abbreviation store_language :=
  (λ (zed_by_lang : gmap string LanguageInfo) lang,
     if negb (bool_decide (is_Some (zed_by_lang !! zed_language lang)))
        || bool_decide (source lang = Source.NATIVE)
     then <[zed_language lang := lang]> zed_by_lang
     else zed_by_lang).

Lemma foldl_store_language langs (zed_by_lang : gmap string LanguageInfo) z :
  foldl store_language zed_by_lang langs !! z =
    match last (filter (λ lang, zed_language lang = z ∧ source lang = Source.NATIVE) langs) with
    | Some lang => Some lang
    | None =>
        match zed_by_lang !! z with
        | Some lang => Some lang
        | None => head (filter (λ lang, zed_language lang = z) langs)
        end
    end.
Proof.
  revert zed_by_lang. induction langs as [|x l IH]; intros m; cbn [foldl].
  - rewrite !filter_nil. cbn. destruct (m !! z); reflexivity.
  - rewrite IH, !(filter_cons _ x). clear IH.
    destruct (decide (zed_language x = z)) as [Hz|Hz].
    + destruct (decide (source x = Source.NATIVE)) as [Hn|Hn].
      * rewrite decide_True by done. rewrite last_cons.
        rewrite (bool_decide_true (source x = Source.NATIVE)) by done.
        rewrite orb_true_r, Hz, lookup_insert_eq.
        destruct (last _); reflexivity.
      * rewrite decide_False by tauto.
        rewrite (bool_decide_false (source x = Source.NATIVE)) by done.
        rewrite orb_false_r, Hz.
        destruct (last _); [reflexivity|].
        destruct (m !! z) as [v|] eqn:Hm.
        -- rewrite bool_decide_true by eauto. cbn [negb]. rewrite Hm. reflexivity.
        -- rewrite bool_decide_false by (intros [? [=]]). cbn [negb].
           rewrite lookup_insert_eq. reflexivity.
    + rewrite decide_False by tauto.
      destruct (last _); [reflexivity|].
      destruct (negb _ || _); [|reflexivity].
      rewrite lookup_insert_ne by done. reflexivity.
Qed.

(** X11. Under each [zed_language], [map_zed_languages] holds the last
    native language of that name; when no language of that name is
    native, it holds the first language of that name, and nothing when
    there is none. *)
Theorem map_zed_languages_lookup (native_langs ext_langs : list LanguageInfo) (z : string) :
  map_zed_languages native_langs ext_langs !! z =
    match last (filter (λ lang, zed_language lang = z ∧ source lang = Source.NATIVE)
                  (native_langs ++ ext_langs)) with
    | Some lang => Some lang
    | None => head (filter (λ lang, zed_language lang = z) (native_langs ++ ext_langs))
    end.
Proof.
  unfold map_zed_languages. rewrite foldl_store_language, lookup_empty. reflexivity.
Qed.

Lemma map_zed_languages_is_Some (native_langs ext_langs : list LanguageInfo) z :
  is_Some (map_zed_languages native_langs ext_langs !! z) ↔
  z ∈ zed_language <$> native_langs ++ ext_langs.
Proof.
  unfold map_zed_languages. rewrite foldl_store_language, lookup_empty.
  rewrite list_elem_of_fmap.
  destruct (last _) as [lang|] eqn:Hlast.
  - split; [intros _|eauto].
    apply last_Some in Hlast as [l' Hl'].
    assert (lang ∈ filter (λ lang, zed_language lang = z ∧ source lang = Source.NATIVE)
                     (native_langs ++ ext_langs)) as Hin
      by (rewrite Hl'; apply elem_of_app; right; left).
    apply list_elem_of_filter in Hin as [[Hz _] Hin]. eauto.
  - destruct (filter (λ lang, zed_language lang = z) (native_langs ++ ext_langs))
      as [|lang l] eqn:Hfilter; cbn [head].
    + split; [intros [? [=]]|]. intros (lang & Hz & Hin).
      assert (lang ∈ filter (λ lang, zed_language lang = z) (native_langs ++ ext_langs)) as H
        by (apply list_elem_of_filter; split; [symmetry; exact Hz|exact Hin]).
      rewrite Hfilter in H. apply elem_of_nil in H as [].
    + split; [intros _|eauto].
      assert (lang ∈ filter (λ lang, zed_language lang = z) (native_langs ++ ext_langs)) as H
        by (rewrite Hfilter; left).
      apply list_elem_of_filter in H as [Hz Hin]. eauto.
Qed.

(** X12. The keys of [map_zed_languages] are the names that the sets
    [native_ids] and [ext_ids] of [main] hold together, and every language
    is stored under its own [zed_language]. *)
Theorem map_zed_languages_keys (native_langs ext_langs : list LanguageInfo) :
  dom (map_zed_languages native_langs ext_langs) =
    (list_to_set (zed_language <$> native_langs) : gset string)
    ∪ list_to_set (zed_language <$> ext_langs) ∧
  ∀ z lang, map_zed_languages native_langs ext_langs !! z = Some lang →
    zed_language lang = z ∧ lang ∈ native_langs ++ ext_langs.
Proof.
  split.
  - apply set_eq. intros z.
    rewrite elem_of_dom, map_zed_languages_is_Some, fmap_app, elem_of_app.
    rewrite elem_of_union, !elem_of_list_to_set. reflexivity.
  - intros z lang. unfold map_zed_languages.
    rewrite foldl_store_language, lookup_empty.
    destruct (last _) as [lang'|] eqn:Hlast.
    + intros [= ->]. apply last_Some in Hlast as [l' Hl'].
      assert (lang ∈ filter (λ lang, zed_language lang = z ∧ source lang = Source.NATIVE)
                       (native_langs ++ ext_langs)) as Hin
        by (rewrite Hl'; apply elem_of_app; right; left).
      apply list_elem_of_filter in Hin as [[Hz _] Hin]. done.
    + intros Hhead.
      assert (lang ∈ filter (λ lang, zed_language lang = z) (native_langs ++ ext_langs)) as H.
      { revert Hhead.
        destruct (filter (λ lang, zed_language lang = z) (native_langs ++ ext_langs));
          [discriminate|].
        intros [= ->]. left. }
      apply list_elem_of_filter in H as [Hz Hin]. done.
Qed.

End remote.

(** *** sync_zed_languages.py: running the reconciliation again *)

Section reconciliation_again.
Import Sync.

Lemma update_source_outcome lang_id (info info' : gmap string value)
    native_ids ext_ids changed :
  update_source lang_id info native_ids ext_ids = Ok (info', changed) →
  ∃ key,
    hashed (zed_lang_of lang_id info) = Ok key ∧
    info' !! "source" = Some (VStr (Source.value (classify key native_ids ext_ids))) ∧
    ∀ field, field ≠ "source" → info' !! field = info !! field.
Proof.
  unfold update_source.
  destruct (hashed (zed_lang_of lang_id info)) as [key| |] eqn:Hkey; try discriminate.
  cbn [mbind result_bind]. intros H. exists key. split; [reflexivity|].
  destruct (info !! "source") as [[current| | |]|] eqn:Hsource;
    try (injection H as <- <-; split;
         [apply lookup_insert_eq|intros field Hf; apply lookup_insert_ne; congruence]).
  destruct (decide (current = Source.value (classify key native_ids ext_ids))) as [->|Hne];
    injection H as <- <-.
  - split; [exact Hsource|reflexivity].
  - split; [apply lookup_insert_eq|intros field Hf; apply lookup_insert_ne; congruence].
Qed.

Lemma update_source_again lang_id (info info' : gmap string value)
    native_ids ext_ids changed :
  update_source lang_id info native_ids ext_ids = Ok (info', changed) →
  update_source lang_id info' native_ids ext_ids = Ok (info', false).
Proof.
  intros (key & Hkey & Hsource & Hother)%update_source_outcome.
  unfold update_source, zed_lang_of. rewrite (Hother "zed_language") by discriminate.
  unfold zed_lang_of in Hkey. rewrite Hkey. cbn [mbind result_bind].
  rewrite Hsource, decide_True by reflexivity. reflexivity.
Qed.

(** X13. [update_sources] is idempotent: run again on the registry it
    left behind, with the same remote names, it changes nothing and counts
    no update. *)
Theorem update_sources_idempotent (cfg cfg' : config) (native_ids ext_ids : gset string)
    (updated : nat) :
  update_sources cfg native_ids ext_ids = Ok (cfg', updated) →
  update_sources cfg' native_ids ext_ids = Ok (cfg', 0).
Proof.
  revert cfg' updated. induction cfg as [|[lang_id info] cfg IH]; intros cfg' updated.
  - intros [= <- <-]. reflexivity.
  - cbn [update_sources].
    destruct (update_source lang_id info native_ids ext_ids) as [[info' changed]| |] eqn:He;
      try discriminate.
    cbn [mbind result_bind].
    destruct (update_sources cfg native_ids ext_ids) as [[rest n]| |] eqn:Hr;
      try discriminate.
    cbn [mbind result_bind]. intros [= <- <-].
    cbn [update_sources]. rewrite (update_source_again _ _ _ _ _ _ He).
    cbn [mbind result_bind]. rewrite (IH rest n eq_refl). reflexivity.
Qed.

Lemma update_sources_idempotent_witness :
  update_sources
    [("python", <["source" := VStr "native"]> {[ "zed_language" := VStr "Python" ]});
     ("notes", <["source" := VStr "extra"]> {[ "zed_language" := VStr "Notes" ]})]
    {[ "Python" ]} ∅
  = Ok ([("python", <["source" := VStr "native"]> {[ "zed_language" := VStr "Python" ]});
         ("notes", <["source" := VStr "extra"]> {[ "zed_language" := VStr "Notes" ]})], 0).
Proof.
  apply (update_sources_idempotent
           [("python", {[ "zed_language" := VStr "Python" ]});
            ("notes", <["source" := VStr "native"]> {[ "zed_language" := VStr "Notes" ]})]
           _ _ _ 2).
  by_evaluation.
Defined.

Lemma detection_tokens_insert_extensions (info : gmap string value) exts :
  get_config_detection_tokens info = [] →
  get_config_detection_tokens (<["extensions" := str_list exts]> info)
  = nonempty_strings (VStr <$> exts).
Proof.
  unfold get_config_detection_tokens. cbn [foldl].
  rewrite (lookup_insert_ne info "extensions" "suffixes") by done.
  rewrite (lookup_insert_ne info "extensions" "filenames") by done.
  rewrite lookup_insert_eq.
  set (tokens :=
         match info !! "filenames" with
         | Some (VList values) => _ ++ nonempty_strings values
         | _ => _
         end).
  intros H. assert (tokens = []) as ->; [|reflexivity].
  destruct (info !! "extensions") as [[| | |values]|]; try exact H.
  apply app_eq_nil in H as [H _]. exact H.
Qed.

Lemma nonempty_strings_nil exts :
  nonempty_strings (VStr <$> exts) = [] → exts ≠ [] → "" ∈ exts.
Proof.
  destruct exts as [|x exts]; [done|]. intros H _.
  cbn [fmap list_fmap nonempty_strings omap list_omap] in H.
  case_bool_decide as Hx; [discriminate|]. rewrite Hx. left.
Qed.

Lemma backfill_entry_again lang_id (info info' : gmap string value)
    (zed_by_lang : gmap string LanguageInfo) changed :
  backfill_entry lang_id info zed_by_lang = Ok (info', changed) →
  ∃ changed',
    backfill_entry lang_id info' zed_by_lang = Ok (info', changed') ∧
    (changed' = true →
       changed = true ∧ ∃ z lang, zed_by_lang !! z = Some lang ∧ "" ∈ extensions lang).
Proof.
  unfold backfill_entry at 1.
  destruct (get_config_detection_tokens info) as [|token tokens] eqn:Htokens.
  2: { intros [= <- <-]. exists false. unfold backfill_entry. rewrite Htokens. done. }
  destruct (hashed (zed_lang_of lang_id info)) as [key| |] eqn:Hkey; try discriminate.
  cbn [mbind result_bind].
  destruct (key ≫= (zed_by_lang !!.)) as [zed_info|] eqn:Hmatch.
  2: { intros [= <- <-]. exists false. unfold backfill_entry.
       rewrite Htokens, Hkey. cbn [mbind result_bind]. rewrite Hmatch. done. }
  destruct (extensions zed_info) as [|ext exts] eqn:Hexts.
  { intros [= <- <-]. exists false. unfold backfill_entry.
    rewrite Htokens, Hkey. cbn [mbind result_bind]. rewrite Hmatch, Hexts. done. }
  intros [= <- <-]. unfold backfill_entry.
  rewrite (detection_tokens_insert_extensions _ _ Htokens).
  destruct (nonempty_strings (VStr <$> ext :: exts)) as [|token tokens] eqn:Hnonempty.
  2: { exists false. done. }
  unfold zed_lang_of. rewrite lookup_insert_ne by discriminate.
  unfold zed_lang_of in Hkey. rewrite Hkey. cbn [mbind result_bind].
  rewrite Hmatch, Hexts, insert_insert_eq. exists true. split; [reflexivity|].
  intros _. split; [reflexivity|].
  destruct key as [z|]; [|discriminate]. exists z, zed_info. split; [exact Hmatch|].
  rewrite Hexts. apply nonempty_strings_nil; [exact Hnonempty|discriminate].
Qed.

(** X14. [backfill_missing_detection_tokens] is idempotent on the
    registry: a second run leaves every entry as the first run left it.
    It counts no more entries than the first run did, and none at all
    when no remote language lists the empty string as an extension. *)
Theorem backfill_idempotent (cfg cfg' : config) (zed_by_lang : gmap string LanguageInfo)
    (updated : nat) :
  backfill_missing_detection_tokens cfg zed_by_lang = Ok (cfg', updated) →
  ∃ again,
    backfill_missing_detection_tokens cfg' zed_by_lang = Ok (cfg', again) ∧
    (again ≤ updated)%nat ∧
    (map_Forall (λ _ lang, "" ∉ extensions lang) zed_by_lang → again = 0).
Proof.
  revert cfg' updated. induction cfg as [|[lang_id info] cfg IH]; intros cfg' updated.
  - intros [= <- <-]. exists 0. done.
  - cbn [backfill_missing_detection_tokens].
    destruct (backfill_entry lang_id info zed_by_lang) as [[info' changed]| |] eqn:He;
      try discriminate.
    cbn [mbind result_bind].
    destruct (backfill_missing_detection_tokens cfg zed_by_lang) as [[rest n]| |] eqn:Hr;
      try discriminate.
    cbn [mbind result_bind]. intros [= <- <-].
    destruct (backfill_entry_again _ _ _ _ _ He) as (changed' & He' & Hchanged).
    destruct (IH rest n eq_refl) as (again & Hagain & Hle & Hzero).
    exists ((if changed' then 1 else 0) + again).
    cbn [backfill_missing_detection_tokens]. rewrite He'. cbn [mbind result_bind].
    rewrite Hagain. cbn [mbind result_bind]. split; [reflexivity|]. split.
    + destruct changed'; [|destruct changed; lia].
      destruct (Hchanged eq_refl) as [-> _]. lia.
    + intros Hclean. rewrite (Hzero Hclean).
      destruct changed'; [|reflexivity].
      destruct (Hchanged eq_refl) as (_ & z & lang & Hz & Hempty).
      destruct (Hclean z lang Hz Hempty).
Qed.

Lemma backfill_idempotent_witness :
  let zed_by_lang : gmap string LanguageInfo :=
    {[ "c" := {| id := "c"; name := "C"; zed_language := "c"; extensions := ["cc"];
                 source := Source.NATIVE; syntax_signature := "" |} ]} in
  let cfg' := [("c", <["extensions" := str_list ["cc"]]> {[ "zed_language" := VStr "c" ]})] in
  ∃ again,
    backfill_missing_detection_tokens cfg' zed_by_lang = Ok (cfg', again) ∧
    (again ≤ 1)%nat ∧
    (map_Forall (λ _ lang, "" ∉ extensions lang) zed_by_lang → again = 0).
Proof.
  intros zed_by_lang cfg'.
  apply (backfill_idempotent [("c", {[ "zed_language" := VStr "c" ]})] cfg' zed_by_lang 1).
  by_evaluation.
Defined.

Lemma update_sources_entries (cfg cfg' : config) native_ids ext_ids updated :
  update_sources cfg native_ids ext_ids = Ok (cfg', updated) →
  Forall2 (λ before after,
             after.1 = before.1 ∧
             ∃ changed,
               update_source before.1 before.2 native_ids ext_ids = Ok (after.2, changed))
          cfg cfg'.
Proof.
  revert cfg' updated. induction cfg as [|[lang_id info] cfg IH]; intros cfg' updated.
  - intros [= <- <-]. constructor.
  - cbn [update_sources].
    destruct (update_source lang_id info native_ids ext_ids) as [[info' changed]| |] eqn:He;
      try discriminate.
    cbn [mbind result_bind].
    destruct (update_sources cfg native_ids ext_ids) as [[rest n]| |] eqn:Hr;
      try discriminate.
    cbn [mbind result_bind]. intros [= <- <-].
    constructor; [split; [reflexivity|]; exists changed; exact He|].
    apply (IH rest n eq_refl).
Qed.

Lemma backfill_entries (cfg cfg' : config) (zed_by_lang : gmap string LanguageInfo) updated :
  backfill_missing_detection_tokens cfg zed_by_lang = Ok (cfg', updated) →
  Forall2 (λ before after,
             after.1 = before.1 ∧
             ∃ changed, backfill_entry before.1 before.2 zed_by_lang = Ok (after.2, changed))
          cfg cfg'.
Proof.
  revert cfg' updated. induction cfg as [|[lang_id info] cfg IH]; intros cfg' updated.
  - intros [= <- <-]. constructor.
  - cbn [backfill_missing_detection_tokens].
    destruct (backfill_entry lang_id info zed_by_lang) as [[info' changed]| |] eqn:He;
      try discriminate.
    cbn [mbind result_bind].
    destruct (backfill_missing_detection_tokens cfg zed_by_lang) as [[rest n]| |] eqn:Hr;
      try discriminate.
    cbn [mbind result_bind]. intros [= <- <-].
    constructor; [split; [reflexivity|]; exists changed; exact He|].
    apply (IH rest n eq_refl).
Qed.

Lemma backfill_entry_outcome lang_id (info info' : gmap string value)
    (zed_by_lang : gmap string LanguageInfo) changed :
  backfill_entry lang_id info zed_by_lang = Ok (info', changed) →
  info' = info ∨
  ∃ z zed_info, zed_lang_of lang_id info = VStr z ∧ zed_by_lang !! z = Some zed_info ∧
                info' = <["extensions" := str_list (extensions zed_info)]> info.
Proof.
  unfold backfill_entry.
  destruct (get_config_detection_tokens info); [|intros [= <- <-]; left; reflexivity].
  destruct (zed_lang_of lang_id info) as [z| | |] eqn:Hz;
    cbn [hashed mbind result_bind option_bind];
    [|intros [= <- <-]; left; reflexivity..|discriminate].
  destruct (zed_by_lang !! z) as [zed_info|] eqn:Hmatch;
    [|intros [= <- <-]; left; reflexivity].
  destruct (extensions zed_info) eqn:Hexts; intros [= <- <-]; [left; reflexivity|].
  right. exists z, zed_info. rewrite Hexts. done.
Qed.

(** X15. In [main] the sets [native_ids] and [ext_ids] and the map
    [zed_by_lang] come from the same remote languages.  An entry that
    [update_sources] then tags [extra] is left alone by
    [backfill_missing_detection_tokens]: only native and extension entries
    are ever backfilled. *)
Theorem backfill_skips_extra (cfg cfg1 cfg2 : config)
    (native_langs ext_langs : list LanguageInfo) (updated backfilled : nat) :
  update_sources cfg (list_to_set (zed_language <$> native_langs))
    (list_to_set (zed_language <$> ext_langs)) = Ok (cfg1, updated) →
  backfill_missing_detection_tokens cfg1 (map_zed_languages native_langs ext_langs)
    = Ok (cfg2, backfilled) →
  Forall2 (λ tagged after,
             tagged.2 !! "source" = Some (VStr "extra") → after = tagged)
          cfg1 cfg2.
Proof.
  intros Hupdate%update_sources_entries Hbackfill%backfill_entries.
  revert cfg Hupdate. induction Hbackfill as [|[k info1] [k2 info2] cfg1 cfg2 Hentry _ IH];
    intros cfg Hupdate; [constructor|].
  apply Forall2_cons_inv_r in Hupdate
    as ([k0 info0] & cfg0 & (Hk & changed & He) & Hrest & ->).
  constructor; [|apply (IH cfg0 Hrest)].
  cbn [fst snd] in *. destruct Hentry as (-> & changed2 & Hb). subst k0.
  intros Hextra. f_equal.
  apply update_source_outcome in He as (key & Hkey & Hsource & Hother).
  apply backfill_entry_outcome in Hb as [Hsame|(z & zed_info & Hz & Hmatch & _)];
    [exact Hsame|exfalso].
  unfold zed_lang_of in Hz, Hkey. rewrite (Hother "zed_language") in Hz by discriminate.
  rewrite Hz in Hkey. injection Hkey as <-.
  rewrite Hsource in Hextra. injection Hextra as Hextra.
  assert (is_Some (map_zed_languages native_langs ext_langs !! z)) as Hin by eauto.
  apply map_zed_languages_is_Some in Hin.
  rewrite fmap_app, elem_of_app in Hin.
  revert Hextra. cbn [classify]. rewrite !bool_decide_decide.
  destruct (decide (z ∈ (list_to_set (zed_language <$> native_langs) : gset string)))
    as [|Hn]; [discriminate|].
  destruct (decide (z ∈ (list_to_set (zed_language <$> ext_langs) : gset string)))
    as [|He]; [discriminate|].
  rewrite elem_of_list_to_set in Hn, He. tauto.
Qed.

Lemma backfill_skips_extra_witness :
  let cfg1 : config :=
    [("notes", <["source" := VStr "extra"]> {[ "zed_language" := VStr "Notes" ]});
     ("python", <["source" := VStr "native"]> {[ "zed_language" := VStr "Python" ]})] in
  let cfg2 : config :=
    [("notes", <["source" := VStr "extra"]> {[ "zed_language" := VStr "Notes" ]});
     ("python", <["extensions" := str_list ["py"]]>
                  (<["source" := VStr "native"]> {[ "zed_language" := VStr "Python" ]}))] in
  Forall2 (λ tagged after,
             tagged.2 !! "source" = Some (VStr "extra") → after = tagged)
          cfg1 cfg2.
Proof.
  intros cfg1 cfg2.
  apply (backfill_skips_extra
           [("notes", {[ "zed_language" := VStr "Notes" ]});
            ("python", {[ "zed_language" := VStr "Python" ]})]
           cfg1 cfg2
           [{| id := "python"; name := "Python"; zed_language := "Python";
               extensions := ["py"]; source := Source.NATIVE; syntax_signature := "" |}]
           [] 2 1); by_evaluation.
Defined.

Local Abbreviation tags := (["native"; "extension"; "extra"] : list string).

Lemma count_sources_from_valid (by_source : gmap string nat) (cfg : config) :
  (∀ s, s ∈ tags → is_Some (by_source !! s)) →
  Forall (λ item, has_valid_source item.2) cfg →
  ∃ counted,
    count_sources_from by_source cfg = Ok counted ∧
    ∀ s, counted !! s =
           (λ n, n + length (List.filter (source_is s) cfg.*2)) <$> by_source !! s.
Proof.
  revert by_source. induction cfg as [|[lang_id info] cfg IH]; intros by_source Hkeys Hvalid.
  - exists by_source. split; [reflexivity|]. intros s. cbn.
    destruct (by_source !! s); cbn; [f_equal; lia|reflexivity].
  - apply Forall_cons in Hvalid as [(s & Hs & Htag) Hvalid]. cbn [snd] in Hs.
    destruct (Hkeys s Htag) as [n Hn].
    cbn [count_sources_from Source.value]. rewrite Hs. cbn [count_source]. rewrite Hn.
    cbn [mbind result_bind].
    destruct (IH (<[s := n + 1]> by_source)) as (counted & -> & Hcounted); [|exact Hvalid|].
    { intros s' Hs'. destruct (decide (s = s')) as [->|Hne].
      - rewrite lookup_insert_eq. eauto.
      - rewrite lookup_insert_ne by done. auto. }
    exists counted. split; [reflexivity|]. intros s'. rewrite Hcounted.
    rewrite fmap_cons. cbn [List.filter snd]. unfold source_is at 2. rewrite Hs.
    destruct (decide (s = s')) as [->|Hne].
    + rewrite lookup_insert_eq, Hn, bool_decide_true by done. cbn. f_equal. lia.
    + rewrite lookup_insert_ne, bool_decide_false by done. reflexivity.
Qed.

Lemma count_sources_from_invalid (by_source : gmap string nat) (cfg : config) counted :
  dom by_source = list_to_set tags →
  count_sources_from by_source cfg = Ok counted →
  Forall (λ item, has_valid_source item.2) cfg.
Proof.
  revert by_source. induction cfg as [|[lang_id info] cfg IH]; intros by_source Hdom;
    [constructor|].
  cbn [count_sources_from Source.value].
  destruct (default (VStr "extra") (info !! "source")) as [s| | |] eqn:Hs;
    cbn [count_source]; try discriminate.
  destruct (by_source !! s) as [n|] eqn:Hn; [|discriminate].
  cbn [mbind result_bind]. intros Hrest. constructor.
  - exists s. split; [exact Hs|].
    apply (elem_of_list_to_set (C := gset string)). rewrite <- Hdom.
    apply elem_of_dom. eauto.
  - apply (IH (<[s := n + 1]> by_source)); [|exact Hrest].
    rewrite dom_insert_L, <- Hdom. apply elem_of_dom_2 in Hn.
    apply subseteq_union_1_L, singleton_subseteq_l, Hn.
Qed.

Lemma count_sources_valid (cfg : config) :
  Forall (λ item, has_valid_source item.2) cfg →
  ∃ by_source,
    count_sources cfg = Ok by_source ∧
    (∀ s, s ∈ tags →
       by_source !! s = Some (length (List.filter (source_is s) cfg.*2))) ∧
    ∃ native extension extra,
      by_source !! "native" = Some native ∧ by_source !! "extension" = Some extension ∧
      by_source !! "extra" = Some extra ∧ native + extension + extra = length cfg.
Proof.
  intros Hall. unfold count_sources. cbn [Source.value].
  set (zero := <["native" := 0]> (<["extension" := 0]> {[ "extra" := 0 ]}) : gmap string nat).
  assert (∀ s, s ∈ tags → zero !! s = Some 0) as Hzero.
  { intros s. rewrite !elem_of_cons, elem_of_nil. intros [->|[->|[->|[]]]]; reflexivity. }
  destruct (count_sources_from_valid zero cfg) as (by_source & Hc & Hcounted);
    [eauto|exact Hall|].
  exists by_source. split; [exact Hc|].
  assert (∀ s, s ∈ tags →
            by_source !! s = Some (length (List.filter (source_is s) cfg.*2))) as Hs.
  { intros s Htag. rewrite Hcounted, (Hzero s Htag). reflexivity. }
  split; [exact Hs|]. do 3 eexists.
  split; [apply Hs; left|]. split; [apply Hs; right; left|].
  split; [apply Hs; do 2 right; left|].
  clear -Hall.
  induction Hall as [|[lang_id info] cfg (s & Hs & Htag) _ IH]; [reflexivity|].
  rewrite fmap_cons. cbn [snd] in *.
  assert (∀ t, length (List.filter (source_is t) (info :: cfg.*2)) =
               (if bool_decide (s = t) then 1 else 0)
               + length (List.filter (source_is t) cfg.*2)) as Hlen.
  { intros t. cbn [List.filter]. unfold source_is at 1. rewrite Hs.
    destruct (bool_decide (s = t)); reflexivity. }
  rewrite !Hlen. cbn [length]. revert Htag.
  rewrite !elem_of_cons, elem_of_nil.
  intros [->|[->|[->|[]]]]; repeat case_bool_decide; try congruence; lia.
Qed.

Lemma count_sources_Ok_valid (cfg : config) by_source :
  count_sources cfg = Ok by_source → Forall (λ item, has_valid_source item.2) cfg.
Proof.
  unfold count_sources. apply count_sources_from_invalid. cbn [Source.value].
  rewrite !dom_insert_L, dom_singleton_L. cbn [list_to_set].
  rewrite union_empty_r_L. reflexivity.
Qed.

(** X16. [count_sources] returns counts exactly when every entry has
    one of the three sources, or none; otherwise it raises.  The counts
    are then the numbers of entries with each source, entries without a
    source being counted as [extra], so they add up to the size of the
    registry. *)
Theorem count_sources_counts (cfg : config) :
  ((∃ by_source, count_sources cfg = Ok by_source) ↔
     Forall (λ item, has_valid_source item.2) cfg) ∧
  ∀ by_source, count_sources cfg = Ok by_source →
    (∀ s, s ∈ ["native"; "extension"; "extra"] →
       by_source !! s = Some (length (List.filter (source_is s) cfg.*2))) ∧
    ∃ native extension extra,
      by_source !! "native" = Some native ∧ by_source !! "extension" = Some extension ∧
      by_source !! "extra" = Some extra ∧ native + extension + extra = length cfg.
Proof.
  split.
  - split; [intros [by_source H]; exact (count_sources_Ok_valid _ _ H)|].
    intros H. destruct (count_sources_valid cfg H) as (by_source & Hc & _). eauto.
  - intros by_source Hcount.
    destruct (count_sources_valid cfg (count_sources_Ok_valid _ _ Hcount))
      as (by_source' & Hc & Hcounts).
    rewrite Hc in Hcount. injection Hcount as <-. exact Hcounts.
Qed.

Lemma dict_get_dict_set {A} (d : list (string * A)) k v k' :
  dict_get (dict_set d k v) k' = if decide (k = k') then Some v else dict_get d k'.
Proof.
  induction d as [|[k0 v0] d IH]; cbn [dict_set dict_get].
  - destruct (decide (k = k')); reflexivity.
  - destruct (decide (k0 = k)) as [->|Hne]; cbn [dict_get].
    + destruct (decide (k = k')); reflexivity.
    + rewrite IH. destruct (decide (k0 = k')) as [->|]; [|reflexivity].
      rewrite decide_False by congruence. reflexivity.
Qed.

Lemma dict_set_elem_of {A} (d : list (string * A)) k v item :
  item ∈ dict_set d k v → item ∈ d ∨ item = (k, v).
Proof.
  induction d as [|[k0 v0] d IH]; cbn [dict_set].
  - intros ->%list_elem_of_singleton. right. reflexivity.
  - destruct (decide (k0 = k)) as [->|Hne].
    + intros [->|Hin]%elem_of_cons; [right; reflexivity|left; right; exact Hin].
    + intros [->|Hin]%elem_of_cons; [left; left|].
      destruct (IH Hin) as [?|?]; [left; right; assumption|right; assumption].
Qed.

Lemma dict_set_keys {A} (d : list (string * A)) k v :
  keys (dict_set d k v) = if decide (k ∈ keys d) then keys d else keys d ++ [k].
Proof.
  unfold keys. induction d as [|[k0 v0] d IH]; cbn [dict_set].
  - rewrite decide_False by apply not_elem_of_nil. reflexivity.
  - destruct (decide (k0 = k)) as [->|Hne].
    + rewrite !fmap_cons. cbn [fst]. rewrite decide_True by left. reflexivity.
    + rewrite !fmap_cons, IH. cbn [fst].
      destruct (decide (k ∈ d.*1)) as [Hin|Hout].
      * rewrite decide_True by (right; exact Hin). reflexivity.
      * rewrite decide_False; [reflexivity|].
        intros [->|?]%elem_of_cons; [congruence|contradiction].
Qed.

Lemma dict_set_is_dict {A} (d : list (string * A)) k v :
  is_dict d → is_dict (dict_set d k v).
Proof.
  unfold is_dict. intros Hnd. fold (keys (dict_set d k v)). rewrite dict_set_keys.
  fold (keys d) in Hnd. destruct (decide (k ∈ keys d)) as [Hin|Hout]; [exact Hnd|].
  apply NoDup_app. split; [exact Hnd|]. split; [|apply NoDup_singleton].
  intros k' Hk' ->%list_elem_of_singleton. contradiction.
Qed.

Lemma dict_set_length {A} (d : list (string * A)) k v :
  length (dict_set d k v) = length d + (if decide (k ∈ keys d) then 0 else 1).
Proof.
  rewrite <- (length_fmap fst (dict_set d k v)). fold (keys (dict_set d k v)).
  rewrite dict_set_keys. destruct (decide (k ∈ keys d)).
  - unfold keys. rewrite length_fmap. lia.
  - rewrite length_app. unfold keys. rewrite length_fmap. reflexivity.
Qed.

Lemma existing_zed_langs_elem (cfg : config) existing :
  existing_zed_langs cfg = Ok existing →
  ∀ z, z ∈ existing ↔ ∃ item, item ∈ cfg ∧ zed_lang_of item.1 item.2 = VStr z.
Proof.
  revert existing. induction cfg as [|[lid info] cfg IH]; intros existing.
  - intros [= <-] z. rewrite elem_of_empty. split; [done|].
    intros (? & []%elem_of_nil & _).
  - cbn [existing_zed_langs].
    destruct (zed_lang_of lid info) as [z0| | |] eqn:Hz; cbn [hashed mbind result_bind];
      [| | |discriminate];
      (destruct (existing_zed_langs cfg) as [rest| |]; [|discriminate..]);
      cbn [mbind result_bind]; intros [= <-] z; specialize (IH rest eq_refl z).
    + rewrite elem_of_union, elem_of_singleton, IH. split.
      * intros [->|(item & Hin & Hitem)].
        -- exists (lid, info). split; [left|exact Hz].
        -- exists item. split; [right; exact Hin|exact Hitem].
      * intros (item & [->|Hin]%elem_of_cons & Hitem).
        -- cbn [fst snd] in Hitem. left. congruence.
        -- right. eauto.
    + rewrite IH. split.
      * intros (item & Hin & Hitem). exists item. split; [right; exact Hin|exact Hitem].
      * intros (item & [->|Hin]%elem_of_cons & Hitem); [|eauto].
        cbn [fst snd] in Hitem. congruence.
    + rewrite IH. split.
      * intros (item & Hin & Hitem). exists item. split; [right; exact Hin|exact Hitem].
      * intros (item & [->|Hin]%elem_of_cons & Hitem); [|eauto].
        cbn [fst snd] in Hitem. congruence.
Qed.

Lemma new_entry_fields (lang : LanguageInfo) :
  new_entry lang !! "name" = Some (VStr (name lang)) ∧
  new_entry lang !! "zed_language" = Some (VStr (zed_language lang)) ∧
  new_entry lang !! "extensions" = Some (str_list (extensions lang)) ∧
  new_entry lang !! "suffixes" = None ∧
  new_entry lang !! "filenames" = None ∧
  new_entry lang !! "source" = Some (VStr (Source.value (source lang))).
Proof. repeat split. Qed.

Lemma existsb_str_list strs : existsb (λ item, negb (is_str item)) (VStr <$> strs) = false.
Proof. induction strs as [|s strs IH]; [reflexivity|exact IH]. Qed.

Lemma new_entry_validates lang_id (lang : LanguageInfo) :
  validate_config_entry lang_id (new_entry lang) = [].
Proof.
  destruct (new_entry_fields lang) as (Hn & Hz & He & Hs & Hf & Hsrc).
  unfold validate_config_entry, REQUIRED_LANG_FIELDS, DETECTION_FIELDS.
  cbn [omap list_omap existsb]. rewrite Hn, Hz, He, Hs, Hf, Hsrc.
  rewrite bool_decide_true by eauto. cbn [orb str_list]. rewrite existsb_str_list.
  destruct (source lang); reflexivity.
Qed.

Lemma new_entry_valid_source (lang : LanguageInfo) : has_valid_source (new_entry lang).
Proof.
  destruct (new_entry_fields lang) as (_ & _ & _ & _ & _ & Hsrc).
  exists (Source.value (source lang)). rewrite Hsrc. split; [reflexivity|].
  destruct (source lang); cbn [Source.value]; rewrite !elem_of_cons; auto.
Qed.

Local Abbreviation store_missing args existing :=
  (λ '(cfg, added) (lang : LanguageInfo),
     if native args && negb (ext args)
        && bool_decide (source lang ≠ Source.NATIVE) then (cfg, added)
     else if ext args && negb (native args)
             && bool_decide (source lang ≠ Source.EXTENSION) then (cfg, added)
     else if bool_decide (zed_language lang ∈ existing) then (cfg, added)
     else (dict_set cfg (id lang) (new_entry lang), added + 1)).

Lemma store_missing_is_missing args (existing : gset string) (cfg : config) added lang :
  store_missing args existing (cfg, added) lang =
    if is_missing args existing lang
    then (dict_set cfg (id lang) (new_entry lang), added + 1)
    else (cfg, added).
Proof.
  unfold is_missing, passes_filter. cbn beta iota.
  destruct (native args), (ext args); cbn [andb negb];
    rewrite ?(bool_decide_not (source lang = _)), ?(bool_decide_not (_ ∈ existing));
    destruct (bool_decide (zed_language lang ∈ existing));
    try destruct (bool_decide (source lang = _)); reflexivity.
Qed.

Lemma foldl_store_missing args (existing : gset string) langs (cfg : config) added :
  ∃ cfg',
    foldl (store_missing args existing) (cfg, added) langs =
      (cfg', added + length (List.filter (is_missing args existing) langs)) ∧
    (is_dict cfg → is_dict cfg') ∧
    (length cfg' ≤ length cfg + length (List.filter (is_missing args existing) langs))%nat ∧
    (∀ k, dict_get cfg' k =
            match last (List.filter (λ lang, bool_decide (id lang = k)
                                             && is_missing args existing lang) langs) with
            | Some lang => Some (new_entry lang)
            | None => dict_get cfg k
            end) ∧
    (∀ item, item ∈ cfg' →
       item ∈ cfg ∨ ∃ lang, lang ∈ langs ∧ is_missing args existing lang = true
                            ∧ item = (id lang, new_entry lang)).
Proof.
  revert cfg added. induction langs as [|lang langs IH]; intros cfg added.
  - exists cfg. cbn [foldl List.filter length last]. rewrite !Nat.add_0_r.
    repeat split; auto.
  - cbn [foldl]. rewrite store_missing_is_missing. cbn [List.filter].
    destruct (is_missing args existing lang) eqn:Hmissing.
    + destruct (IH (dict_set cfg (id lang) (new_entry lang)) (added + 1))
        as (cfg' & -> & Hdict & Hlen & Hget & Hin).
      exists cfg'. cbn [length]. split; [f_equal; lia|].
      split; [intros Hd; apply Hdict, dict_set_is_dict, Hd|]. split.
      { rewrite dict_set_length in Hlen. destruct (decide (id lang ∈ keys cfg)); lia. }
      split.
      * intros k. rewrite Hget, dict_get_dict_set.
        destruct (decide (id lang = k)) as [Hk|Hk].
        -- rewrite (bool_decide_true _ Hk). cbn [andb]. rewrite last_cons.
           destruct (last _); reflexivity.
        -- rewrite (bool_decide_false _ Hk). reflexivity.
      * intros item [Hitem|(lang' & Hl & Hm & ->)]%Hin.
        -- apply dict_set_elem_of in Hitem as [?| ->]; [left; assumption|].
           right. exists lang. split; [left|]. split; [exact Hmissing|reflexivity].
        -- right. exists lang'. split; [right; exact Hl|]. split; [exact Hm|reflexivity].
    + destruct (IH cfg added) as (cfg' & -> & Hdict & Hlen & Hget & Hin).
      exists cfg'. split; [reflexivity|]. split; [exact Hdict|]. split; [exact Hlen|].
      split.
      * intros k. rewrite Hget, andb_false_r. reflexivity.
      * intros item [Hitem|(lang' & Hl & Hm & ->)]%Hin; [left; exact Hitem|].
        right. exists lang'. split; [right; exact Hl|]. split; [exact Hm|reflexivity].
Qed.

(** X17. With [--add], [add_missing_languages] stores the remote
    languages that pass the source filter and whose [zed_language] the
    registry did not name, and counts them.  Afterwards a [lang_id] holds
    the entry of the last such language with that [id], replacing an
    entry that was there, and otherwise what it held before. *)
Theorem add_missing_languages_lookup (cfg cfg' : config) (all_zed_langs : list LanguageInfo)
    (args : SyncArgs) (added : nat) :
  add args = true →
  add_missing_languages cfg all_zed_langs args = Ok (cfg', added) →
  ∃ existing : gset string,
    (∀ z, z ∈ existing ↔ ∃ item, item ∈ cfg ∧ zed_lang_of item.1 item.2 = VStr z) ∧
    added = length (List.filter (is_missing args existing) all_zed_langs) ∧
    ∀ k, dict_get cfg' k =
           match last (List.filter (λ lang, bool_decide (id lang = k)
                                            && is_missing args existing lang)
                         all_zed_langs) with
           | Some lang => Some (new_entry lang)
           | None => dict_get cfg k
           end.
Proof.
  intros Hadd. unfold add_missing_languages. rewrite Hadd. cbn [negb].
  destruct (existing_zed_langs cfg) as [existing| |] eqn:Hexisting; try discriminate.
  cbn [mbind result_bind].
  destruct (foldl_store_missing args existing all_zed_langs cfg 0)
    as (cfg'' & -> & _ & _ & Hget & _).
  intros [= <- <-]. exists existing.
  split; [exact (existing_zed_langs_elem _ _ Hexisting)|]. split; [reflexivity|exact Hget].
Qed.

Lemma add_missing_languages_lookup_witness :
  let cfg : config := [("c", <["name" := VStr "C"]> {[ "zed_language" := VStr "C" ]})] in
  let lang := {| id := "c"; name := "c"; zed_language := "c"; extensions := ["c"];
                 source := Source.EXTENSION; syntax_signature := "" |} in
  let args := {| list_mode := false; add := true; diff := false; classify_mode := false;
                 classify_json := None; native := false; ext := false |} in
  ∃ existing : gset string,
    (∀ z, z ∈ existing ↔ ∃ item, item ∈ cfg ∧ zed_lang_of item.1 item.2 = VStr z) ∧
    1 = length (List.filter (is_missing args existing) [lang]) ∧
    ∀ k, dict_get [("c", new_entry lang)] k =
           match last (List.filter (λ lang, bool_decide (id lang = k)
                                            && is_missing args existing lang) [lang]) with
           | Some lang => Some (new_entry lang)
           | None => dict_get cfg k
           end.
Proof.
  intros cfg lang args.
  apply (add_missing_languages_lookup cfg [("c", new_entry lang)] [lang] args 1);
    [reflexivity|by_evaluation].
Defined.

(** X18. Whatever the flags, [add_missing_languages] keeps the keys of
    the registry distinct, adds at most as many entries as it counts, and
    leaves a registry in which every entry either was there before or is
    the entry of a remote language; such an entry passes
    [validate_config_entry].  Without [--add] nothing changes. *)
Theorem add_missing_languages_entries (cfg cfg' : config)
    (all_zed_langs : list LanguageInfo) (args : SyncArgs) (added : nat) :
  add_missing_languages cfg all_zed_langs args = Ok (cfg', added) →
  (add args = false → cfg' = cfg ∧ added = 0) ∧
  (is_dict cfg → is_dict cfg') ∧
  (length cfg' ≤ length cfg + added)%nat ∧
  ∀ item, item ∈ cfg' →
    item ∈ cfg ∨
    ∃ lang, lang ∈ all_zed_langs ∧ item = (id lang, new_entry lang) ∧
            validate_config_entry item.1 item.2 = [].
Proof.
  unfold add_missing_languages. destruct (add args); cbn [negb].
  2: { intros [= <- <-]. repeat split; auto with lia. }
  destruct (existing_zed_langs cfg) as [existing| |]; try discriminate.
  cbn [mbind result_bind].
  destruct (foldl_store_missing args existing all_zed_langs cfg 0)
    as (cfg'' & -> & Hdict & Hlen & _ & Hin).
  intros [= <- <-]. split; [discriminate|]. split; [exact Hdict|]. split; [exact Hlen|].
  intros item [Hitem|(lang & Hl & _ & ->)]%Hin; [left; exact Hitem|].
  right. exists lang. split; [exact Hl|]. split; [reflexivity|].
  apply new_entry_validates.
Qed.

Lemma add_missing_languages_entries_witness :
  let cfg : config := [("c", <["name" := VStr "C"]> {[ "zed_language" := VStr "C" ]})] in
  let lang := {| id := "zig"; name := "Zig"; zed_language := "zig"; extensions := ["zig"];
                 source := Source.EXTENSION; syntax_signature := "" |} in
  let args := {| list_mode := false; add := true; diff := false; classify_mode := false;
                 classify_json := None; native := false; ext := false |} in
  let cfg' := cfg ++ [("zig", new_entry lang)] in
  (add args = false → cfg' = cfg ∧ 1 = 0) ∧
  (is_dict cfg → is_dict cfg') ∧
  (length cfg' ≤ length cfg + 1)%nat ∧
  ∀ item, item ∈ cfg' →
    item ∈ cfg ∨
    ∃ lang', lang' ∈ [lang] ∧ item = (id lang', new_entry lang') ∧
             validate_config_entry item.1 item.2 = [].
Proof.
  intros cfg lang args cfg'.
  apply (add_missing_languages_entries cfg cfg' [lang] args 1). by_evaluation.
Defined.

(** X19. The reconciliation of [main] in sequence: after
    [update_sources], [backfill_missing_detection_tokens] and
    [add_missing_languages] every entry has one of the three sources, so
    [count_sources] does not raise, and its three counts add up to the
    size of the registry. *)
Theorem count_sources_after_sync (cfg cfg1 cfg2 cfg3 : config)
    (native_ids ext_ids : gset string) (zed_by_lang : gmap string LanguageInfo)
    (all_zed_langs : list LanguageInfo) (args : SyncArgs) (updated backfilled added : nat) :
  update_sources cfg native_ids ext_ids = Ok (cfg1, updated) →
  backfill_missing_detection_tokens cfg1 zed_by_lang = Ok (cfg2, backfilled) →
  add_missing_languages cfg2 all_zed_langs args = Ok (cfg3, added) →
  ∃ by_source native extension extra,
    count_sources cfg3 = Ok by_source ∧
    by_source !! "native" = Some native ∧ by_source !! "extension" = Some extension ∧
    by_source !! "extra" = Some extra ∧ native + extension + extra = length cfg3.
Proof.
  intros Hupdate%update_sources_entries Hbackfill%backfill_entries Hadd.
  assert (Forall (λ item, has_valid_source item.2) cfg1) as Hvalid1.
  { clear -Hupdate. induction Hupdate as [|[k info] [k' info'] cfg cfg1 Hentry _ IH];
      constructor; [|exact IH].
    destruct Hentry as (_ & changed & He). cbn [fst snd] in *.
    apply update_source_outcome in He as (key & _ & Hsource & _).
    unfold has_valid_source. rewrite Hsource. eexists. split; [reflexivity|].
    destruct (classify key native_ids ext_ids); cbn [Source.value];
      rewrite !elem_of_cons; auto. }
  assert (Forall (λ item, has_valid_source item.2) cfg2) as Hvalid2.
  { clear -Hbackfill Hvalid1.
    induction Hbackfill as [|[k info] [k' info'] cfg1 cfg2 Hentry _ IH];
      [constructor|].
    apply Forall_cons in Hvalid1 as [Hinfo Hrest]. constructor; [|exact (IH Hrest)].
    destruct Hentry as (_ & changed & He). cbn [fst snd] in *.
    apply backfill_entry_outcome in He as [->|(z & zed_info & _ & _ & ->)];
      [exact Hinfo|].
    unfold has_valid_source. rewrite lookup_insert_ne by done. exact Hinfo. }
  assert (Forall (λ item, has_valid_source item.2) cfg3) as Hvalid3.
  { apply Forall_forall. intros item Hitem. rewrite Forall_forall in Hvalid2.
    revert Hadd. unfold add_missing_languages. destruct (add args); cbn [negb].
    2: { intros [= <- <-]. exact (Hvalid2 _ Hitem). }
    destruct (existing_zed_langs cfg2) as [existing| |]; try discriminate.
    cbn [mbind result_bind].
    destruct (foldl_store_missing args existing all_zed_langs cfg2 0)
      as (cfg'' & -> & _ & _ & _ & Hin).
    intros [= <- <-]. destruct (Hin _ Hitem) as [Hold|(lang & _ & _ & ->)];
      [exact (Hvalid2 _ Hold)|apply new_entry_valid_source]. }
  destruct (count_sources_valid cfg3 Hvalid3)
    as (by_source & Hcount & _ & native & extension & extra & Hcounts).
  exists by_source, native, extension, extra. split; [exact Hcount|exact Hcounts].
Qed.

Lemma count_sources_after_sync_witness :
  let lang := {| id := "zig"; name := "Zig"; zed_language := "zig"; extensions := ["zig"];
                 source := Source.EXTENSION; syntax_signature := "" |} in
  let args := {| list_mode := false; add := true; diff := false; classify_mode := false;
                 classify_json := None; native := false; ext := false |} in
  let cfg3 : config :=
    [("c", <["source" := VStr "extra"]> {[ "zed_language" := VStr "C" ]});
     ("zig", new_entry lang)] in
  ∃ by_source native extension extra,
    count_sources cfg3 = Ok by_source ∧
    by_source !! "native" = Some native ∧ by_source !! "extension" = Some extension ∧
    by_source !! "extra" = Some extra ∧ native + extension + extra = length cfg3.
Proof.
  intros lang args cfg3.
  apply (count_sources_after_sync
           [("c", <["source" := VStr "plugin"]> {[ "zed_language" := VStr "C" ]})]
           [("c", <["source" := VStr "extra"]> {[ "zed_language" := VStr "C" ]})]
           [("c", <["source" := VStr "extra"]> {[ "zed_language" := VStr "C" ]})]
           cfg3 {[ "zig" ]} ∅ {[ "zig" := lang ]} [lang] args 1 0 1);
    by_evaluation.
Defined.

End reconciliation_again.

(** *** sync_zed_languages.py: flattening and repository signatures *)

Section signatures.
Import Sync.

(** X20. [flatten_string_list] returns the strings of a nested list in
    their order: it distributes over concatenation, looks through nested
    lists, drops what is neither a string nor a list, and returns a flat
    list of strings unchanged. *)
Theorem flatten_string_list_flat :
  (∀ items items', flatten_string_list (items ++ items') =
                     flatten_string_list items ++ flatten_string_list items') ∧
  (∀ items, flatten_string_list [VList items] = flatten_string_list items) ∧
  (∀ n b items, flatten_string_list (VInt n :: VBool b :: items) =
                  flatten_string_list items) ∧
  (∀ strs, flatten_string_list (VStr <$> strs) = strs) ∧
  (∀ items, flatten_string_list (VStr <$> flatten_string_list items) =
              flatten_string_list items).
Proof.
  assert (∀ strs, flatten_string_list (VStr <$> strs) = strs) as Hflat.
  { induction strs as [|s strs IH]; [reflexivity|].
    rewrite fmap_cons. unfold flatten_string_list in *. cbn [flat_map flatten_item app].
    rewrite IH. reflexivity. }
  split; [intros; apply List.flat_map_app|].
  split; [intros items; unfold flatten_string_list; cbn [flat_map flatten_item];
          apply app_nil_r|].
  split; [reflexivity|]. split; [exact Hflat|]. intros items. apply Hflat.
Qed.

Lemma lower_char_idem a : Py.lower_char (Py.lower_char a) = Py.lower_char a.
Proof. destruct a as [[] [] [] [] [] [] [] []]; reflexivity. Qed.

Lemma lower_idem s : Py.lower (Py.lower s) = Py.lower s.
Proof.
  induction s as [|a s IH]; [reflexivity|].
  cbn [Py.lower]. rewrite lower_char_idem, IH. reflexivity.
Qed.

Lemma lower_app s t : Py.lower (s +:+ t) = Py.lower s +:+ Py.lower t.
Proof.
  induction s as [|a s IH]; [reflexivity|].
  rewrite str_app_cons. cbn [Py.lower]. rewrite IH. reflexivity.
Qed.

Lemma lstrip_idem s : Py.lstrip (Py.lstrip s) = Py.lstrip s.
Proof.
  induction s as [|a s IH]; [reflexivity|]. cbn [Py.lstrip].
  destruct (Py.isspace a) eqn:Ha; [exact IH|]. cbn [Py.lstrip]. rewrite Ha. reflexivity.
Qed.

Lemma rstrip_idem s : Py.rstrip (Py.rstrip s) = Py.rstrip s.
Proof.
  induction s as [|a s IH]; [reflexivity|]. cbn [Py.rstrip].
  destruct (Py.rstrip s) as [|b r] eqn:Hr.
  - destruct (Py.isspace a) eqn:Ha; [reflexivity|]. cbn [Py.rstrip]. rewrite Ha. reflexivity.
  - cbn [Py.rstrip]. cbn [Py.rstrip] in IH. rewrite IH. reflexivity.
Qed.

Lemma lstrip_rstrip s : Py.lstrip (Py.rstrip (Py.lstrip s)) = Py.rstrip (Py.lstrip s).
Proof.
  induction s as [|a s IH]; [reflexivity|]. cbn [Py.lstrip].
  destruct (Py.isspace a) eqn:Ha; [exact IH|]. cbn [Py.rstrip].
  destruct (Py.rstrip s); rewrite ?Ha; cbn [Py.lstrip]; rewrite Ha; reflexivity.
Qed.

Lemma strip_idem s : Py.strip (Py.strip s) = Py.strip s.
Proof. unfold Py.strip. rewrite lstrip_rstrip. apply rstrip_idem. Qed.

(** X21. [normalize_repo_url] and [make_repository_signature] return
    lower-case text, that is, text that [lower] leaves unchanged, and
    white space around the address does not matter to them.  Without a
    path, or with a path that holds only white space and slashes, the
    signature is the normalised address; otherwise the normalised path
    follows it after a [#]. *)
Theorem repository_signature_normal (repository : string) (path : option string) :
  Py.lower (normalize_repo_url repository) = normalize_repo_url repository ∧
  normalize_repo_url (Py.strip repository) = normalize_repo_url repository ∧
  Py.lower (make_repository_signature repository path)
    = make_repository_signature repository path ∧
  make_repository_signature (Py.strip repository) path
    = make_repository_signature repository path ∧
  make_repository_signature repository path =
    match Py.lower (Py.strip_chars "/" (Py.strip (default "" path))) with
    | "" => normalize_repo_url repository
    | normalized_path => normalize_repo_url repository +:+ "#" +:+ normalized_path
    end.
Proof.
  assert (∀ r, Py.lower (normalize_repo_url r) = normalize_repo_url r) as Hlower
    by (intros r; apply lower_idem).
  assert (∀ r, normalize_repo_url (Py.strip r) = normalize_repo_url r) as Hstrip
    by (intros r; unfold normalize_repo_url; rewrite strip_idem; reflexivity).
  split; [apply Hlower|]. split; [apply Hstrip|].
  unfold make_repository_signature. rewrite Hstrip. split; [|split; [reflexivity|]].
  - destruct path as [[|a p]|]; try apply Hlower.
    case_bool_decide; [|apply Hlower].
    rewrite !lower_app, Hlower, lower_idem. reflexivity.
  - destruct path as [[|a p]|]; try reflexivity. cbn [default from_option Datatypes.id].
    case_bool_decide as Hp.
    + destruct (Py.lower _); [done|reflexivity].
    + rewrite Hp. reflexivity.
Qed.

Lemma lstrip_length s : (String.length (Py.lstrip s) ≤ String.length s)%nat.
Proof.
  induction s as [|a s IH]; [reflexivity|]. cbn [Py.lstrip].
  destruct (Py.isspace a); cbn [String.length]; lia.
Qed.

Lemma rstrip_length s : (String.length (Py.rstrip s) ≤ String.length s)%nat.
Proof.
  induction s as [|a s IH]; [reflexivity|]. cbn [Py.rstrip].
  destruct (Py.rstrip s); [destruct (Py.isspace a)|]; cbn [String.length] in *; lia.
Qed.

Lemma lstrip_fixed_head a s : Py.lstrip (String a s) = String a s → Py.isspace a = false.
Proof.
  cbn [Py.lstrip]. destruct (Py.isspace a); [|reflexivity].
  intros H. pose proof (lstrip_length s) as Hle. rewrite H in Hle.
  cbn [String.length] in Hle. lia.
Qed.

Lemma strip_fixed s : Py.strip s = s → Py.lstrip s = s ∧ Py.rstrip s = s.
Proof.
  unfold Py.strip. intros H.
  assert (Py.lstrip s = s) as Hl; [|rewrite Hl in H; done].
  destruct s as [|a s]; [reflexivity|]. cbn [Py.lstrip] in *.
  destruct (Py.isspace a); [|reflexivity].
  pose proof (rstrip_length (Py.lstrip s)) as H1. pose proof (lstrip_length s) as H2.
  rewrite H in H1. cbn [String.length] in H1. lia.
Qed.

Lemma lstrip_app s t :
  Py.lstrip s = s → Py.lstrip t = t → Py.lstrip (s +:+ t) = s +:+ t.
Proof.
  destruct s as [|a s]; [intros _ Ht; exact Ht|].
  intros Ha%lstrip_fixed_head _. rewrite str_app_cons. cbn [Py.lstrip].
  rewrite Ha. reflexivity.
Qed.

Lemma rstrip_app s t :
  Py.rstrip t = t → t ≠ "" → Py.rstrip (s +:+ t) = s +:+ t.
Proof.
  intros Ht Hne. induction s as [|a s IH]; [exact Ht|].
  rewrite str_app_cons. cbn [Py.rstrip]. rewrite IH.
  destruct (s +:+ t) eqn:Hst; [|reflexivity].
  destruct s; [contradiction|discriminate].
Qed.

Lemma rstrip_chars_app chars s t :
  Py.rstrip_chars chars t = t → t ≠ "" → Py.rstrip_chars chars (s +:+ t) = s +:+ t.
Proof.
  intros Ht Hne. induction s as [|a s IH]; [exact Ht|].
  rewrite str_app_cons. cbn [Py.rstrip_chars]. rewrite IH.
  destruct (s +:+ t) eqn:Hst; [|reflexivity].
  destruct s; [contradiction|discriminate].
Qed.

Lemma rstrip_chars_snoc chars s a :
  Py.contains a chars = true →
  Py.rstrip_chars chars (s +:+ String a "") = Py.rstrip_chars chars s.
Proof.
  intros Ha. induction s as [|b s IH].
  - cbn [Py.rstrip_chars]. rewrite str_app_nil_l. cbn [Py.rstrip_chars]. rewrite Ha.
    reflexivity.
  - rewrite str_app_cons. cbn [Py.rstrip_chars]. rewrite IH. reflexivity.
Qed.

Lemma endswith_app s t : Py.endswith t (s +:+ t) = true.
Proof.
  induction s as [|a s IH]; [apply endswith_refl|].
  rewrite str_app_cons. apply endswith_cons, IH.
Qed.

Lemma drop_last_app s t : Py.drop_last (String.length t) (s +:+ t) = s.
Proof.
  unfold Py.drop_last. rewrite str_length_app.
  replace (String.length s + String.length t - String.length t) with (String.length s)
    by lia.
  induction s as [|a s IH]; [destruct t; reflexivity|].
  rewrite str_app_cons. cbn [String.length String.substring]. rewrite IH. reflexivity.
Qed.

(** X22. An address without white space at its ends, without a slash at
    its end and without the ending [.git] is normalised to its lower-case
    form, and so is the same address followed by [.git], by a slash, or by
    both: the four spellings of a repository are identified. *)
Theorem normalize_repo_url_spellings (repo_url : string) :
  Py.strip repo_url = repo_url →
  Py.rstrip_chars "/" repo_url = repo_url →
  Py.endswith ".git" repo_url = false →
  normalize_repo_url repo_url = Py.lower repo_url ∧
  normalize_repo_url (repo_url +:+ ".git") = Py.lower repo_url ∧
  normalize_repo_url (repo_url +:+ "/") = Py.lower repo_url ∧
  normalize_repo_url (repo_url +:+ ".git/") = Py.lower repo_url.
Proof.
  intros Hstrip Hslash Hgit. destruct (strip_fixed _ Hstrip) as [Hl Hr].
  assert (∀ t, Py.lstrip t = t → Py.rstrip t = t → t ≠ "" →
               Py.strip (repo_url +:+ t) = repo_url +:+ t) as Hstrip_app.
  { intros t Hlt Hrt Hne. unfold Py.strip.
    rewrite (lstrip_app _ _ Hl Hlt). apply rstrip_app; assumption. }
  assert (Py.rstrip_chars "/" (repo_url +:+ ".git") = repo_url +:+ ".git") as Hkeep
    by (apply rstrip_chars_app; [reflexivity|discriminate]).
  split; [|split; [|split]]; unfold normalize_repo_url.
  - rewrite Hstrip, Hslash, Hgit. reflexivity.
  - rewrite Hstrip_app by (reflexivity || discriminate).
    rewrite Hkeep, endswith_app.
    change (Py.drop_last 4) with (Py.drop_last (String.length ".git")).
    rewrite drop_last_app. reflexivity.
  - rewrite Hstrip_app by (reflexivity || discriminate).
    rewrite rstrip_chars_snoc by reflexivity. rewrite Hslash, Hgit. reflexivity.
  - rewrite Hstrip_app by (reflexivity || discriminate).
    change ".git/" with (".git" +:+ "/"). rewrite <- str_app_assoc.
    rewrite rstrip_chars_snoc by reflexivity.
    rewrite Hkeep, endswith_app.
    change (Py.drop_last 4) with (Py.drop_last (String.length ".git")).
    rewrite drop_last_app. reflexivity.
Qed.

Lemma normalize_repo_url_spellings_witness :
  let repo_url := "https://github.com/Zed-Industries/Zed" in
  normalize_repo_url repo_url = Py.lower repo_url ∧
  normalize_repo_url (repo_url +:+ ".git") = Py.lower repo_url ∧
  normalize_repo_url (repo_url +:+ "/") = Py.lower repo_url ∧
  normalize_repo_url (repo_url +:+ ".git/") = Py.lower repo_url.
Proof.
  apply (normalize_repo_url_spellings "https://github.com/Zed-Industries/Zed");
    reflexivity.
Defined.

End signatures.

(** *** common.py: what validation accepts *)

Section acceptance.

Lemma omap_eq_nil {A B} (f : A → option B) l :
  omap f l = [] ↔ Forall (λ x, f x = None) l.
Proof.
  induction l as [|x l IH]; cbn [omap list_omap]; [split; [constructor|reflexivity]|].
  destruct (f x) eqn:Hx.
  - split; [discriminate|]. intros [H _]%Forall_cons. congruence.
  - rewrite Forall_cons. fold (omap f l). tauto.
Qed.

Lemma only_strings items :
  existsb (λ item, negb (is_str item)) items = false ↔ ∃ strs, VList items = str_list strs.
Proof.
  split.
  - induction items as [|v items IH]; [exists []; reflexivity|].
    cbn [existsb]. intros [Hv Hitems]%orb_false_elim.
    destruct (IH Hitems) as [strs [= ->]]. destruct v as [s| | |]; try discriminate.
    exists (s :: strs). reflexivity.
  - intros [strs [= ->]]. induction strs as [|s strs IH]; [reflexivity|exact IH].
Qed.

Lemma valid_source_accepted (info : gmap string value) :
  match info !! "source" with
  | None => true
  | Some src => in_strings src (Source.value <$> Source.all)
  end = true ↔ has_valid_source info.
Proof.
  unfold has_valid_source. destruct (info !! "source") as [src|]; cbn [default from_option].
  - destruct src as [s| | |]; cbn [in_strings];
      try (split; [discriminate|intros (? & [=] & _)]).
    rewrite bool_decide_eq_true. split.
    + intros Hs. exists s. split; [reflexivity|exact Hs].
    + intros (s' & [= <-] & Hs). exact Hs.
  - split; [|reflexivity]. intros _. exists "extra". split; [reflexivity|].
    do 2 right. left.
Qed.

(** X23. [validate_config_entry] reports nothing exactly for the entries
    that have a [name] and a [zed_language], at least one detection field,
    only lists of strings as detection fields, and a [source] that is
    absent or one of [native], [extension] and [extra].  The types of
    [name] and [zed_language] and all other fields are not looked at. *)
Theorem validate_config_entry_accepts (lang_id : string) (info : gmap string value) :
  validate_config_entry lang_id info = [] ↔ accepted info.
Proof.
  unfold validate_config_entry, accepted. cbn [app].
  rewrite !app_nil, !omap_eq_nil.
  unfold REQUIRED_LANG_FIELDS, DETECTION_FIELDS.
  rewrite !Forall_cons, !Forall_nil.
  assert (∀ (A : Type) (l : list A) (b : bool), (if b then [] else l) = [] ↔ b = true ∨ l = [])
    as Hif by (intros A l []; split; [auto|auto|discriminate 1 + auto|intros [[=]|?]; auto]).
  set (field_error := λ field,
         match info !! field with
         | Some (VList list_value) =>
             if existsb (λ item, negb (is_str item)) list_value
             then Some ("[" +:+ lang_id +:+ "] '" +:+ field +:+ "' must contain only strings")
             else None
         | Some _ => Some ("[" +:+ lang_id +:+ "] '" +:+ field +:+ "' must be a list")
         | None => None
         end).
  assert (∀ field, field_error field = None ↔
                   ∀ v, info !! field = Some v → ∃ strs, v = str_list strs) as Hfield.
  { intros field. subst field_error. cbn beta.
    destruct (info !! field) as [[s| | |items]|];
      try (split; [discriminate|intros H; destruct (H _ eq_refl) as [? [=]]]).
    - destruct (existsb _ items) eqn:Hitems.
      + split; [discriminate|]. intros H. destruct (H _ eq_refl) as [strs Hstrs].
        assert (existsb (λ item, negb (is_str item)) items = false) as Hno
          by (apply only_strings; eauto).
        congruence.
      + split; [|reflexivity]. intros _ v [= <-]. apply only_strings, Hitems.
    - split; [|reflexivity]. intros _ v [=]. }
  split.
  - intros (((Hrequired & Hsome) & Hlists) & Hsource).
    destruct Hrequired as (Hname & Hzed & _).
    split; [destruct (info !! "name"); [eauto|discriminate]|].
    split; [destruct (info !! "zed_language"); [eauto|discriminate]|].
    split; [|split].
    + cbn [existsb] in Hsome. rewrite !bool_decide_decide in Hsome.
      destruct (decide (is_Some (info !! "extensions"))) as [He|_];
        [exists "extensions"; split; [left|exact He]|].
      destruct (decide (is_Some (info !! "suffixes"))) as [Hs|_];
        [exists "suffixes"; split; [right; left|exact Hs]|].
      destruct (decide (is_Some (info !! "filenames"))) as [Hf|_];
        [exists "filenames"; split; [do 2 right; left|exact Hf]|].
      discriminate Hsome.
    + destruct Hlists as (He & Hs & Hf & _).
      intros field v Hin. rewrite !elem_of_cons, elem_of_nil in Hin.
      destruct Hin as [->|[->|[->|[]]]]; apply Hfield; assumption.
    + apply valid_source_accepted.
      destruct (info !! "source") as [src|]; [|reflexivity].
      destruct (in_strings src _); [reflexivity|discriminate Hsource].
  - intros ([name Hname] & [zed Hzed] & (field & Hin & Hsome) & Hlists & Hsource).
    repeat split.
    + rewrite Hname. reflexivity.
    + rewrite Hzed. reflexivity.
    + cbn [existsb]. rewrite !elem_of_cons, elem_of_nil in Hin.
      destruct Hin as [->|[->|[->|[]]]]; rewrite (bool_decide_true _ Hsome);
        rewrite ?orb_true_r; reflexivity.
    + apply Hfield. intros v. apply Hlists. left.
    + apply Hfield. intros v. apply Hlists. right. left.
    + apply Hfield. intros v. apply Hlists. do 2 right. left.
    + apply valid_source_accepted in Hsource.
      destruct (info !! "source") as [src|]; [|reflexivity].
      cbn [Source.all fmap list_fmap Source.value] in *. rewrite Hsource. reflexivity.
Qed.

End acceptance.

(** *** common.py: what [save_config] depends on *)

Section persistence.

Local Abbreviation has_fields :=
  (λ item : string * gmap string value,
     is_Some (item.2 !! "name") ∧ is_Some (item.2 !! "zed_language")).

Lemma save_entries_ext (cfg cfg' : config) ids :
  (∀ k, k ∈ ids →
     match dict_get cfg k, dict_get cfg' k with
     | Some info, Some info' => entry_lines k info = entry_lines k info'
     | None, None => True
     | _, _ => False
     end) →
  save_entries cfg ids = save_entries cfg' ids.
Proof.
  induction ids as [|k ids IH]; intros H; [reflexivity|].
  cbn [save_entries]. pose proof (H k ltac:(left)) as Hk.
  rewrite IH by (intros k' Hk'; apply H; right; exact Hk').
  destruct (dict_get cfg k), (dict_get cfg' k); try done.
  rewrite Hk. reflexivity.
Qed.

Lemma entry_lines_ext lang_id (info info' : gmap string value) :
  (∀ field, field ∈ ["name"; "zed_language"; "extensions"; "suffixes"; "filenames"; "source"] →
            info !! field = info' !! field) →
  entry_lines lang_id info = entry_lines lang_id info'.
Proof.
  intros H. unfold entry_lines.
  assert (write_detection info = write_detection info') as ->.
  { rewrite !write_detection_lines. unfold DETECTION_FIELDS, well_formed_list.
    cbn [flat_map].
    rewrite (H "extensions"), (H "suffixes"), (H "filenames")
      by (rewrite !elem_of_cons; auto 10).
    reflexivity. }
  rewrite (H "name"), (H "zed_language"), (H "source") by (rewrite !elem_of_cons; auto 10).
  reflexivity.
Qed.

(** X24. [save_config] writes the fields [name], [zed_language],
    [extensions], [suffixes], [filenames] and [source] and no others: two
    registries with the same keys whose entries agree on these six fields
    are saved as the same text.  A field such as [enabled] is therefore
    lost when a registry is saved. *)
Theorem save_config_written_fields (cfg cfg' : config) :
  Forall2 (λ item item',
             item.1 = item'.1 ∧
             ∀ field,
               field ∈ ["name"; "zed_language"; "extensions"; "suffixes"; "filenames";
                        "source"] →
               item.2 !! field = item'.2 !! field)
          cfg cfg' →
  save_config cfg = save_config cfg'.
Proof.
  intros Hagree. unfold save_config.
  assert (keys cfg = keys cfg') as <-.
  { unfold keys. induction Hagree as [|[k info] [k' info'] cfg cfg' [Hk _] _ IH];
      [reflexivity|].
    rewrite !fmap_cons, IH. cbn [fst] in *. rewrite Hk. reflexivity. }
  rewrite (save_entries_ext cfg cfg'); [reflexivity|].
  intros k _. induction Hagree as [|[k0 info] [k0' info'] cfg cfg' [Hk Hfields] _ IH];
    [exact I|].
  cbn [fst snd] in *. subst k0'. cbn [dict_get].
  destruct (decide (k0 = k)) as [->|_]; [|exact IH].
  apply entry_lines_ext, Hfields.
Qed.

Lemma save_config_written_fields_witness :
  save_config
    [("python", <["enabled" := VBool true]> (<["name" := VStr "Python"]>
                  (<["zed_language" := VStr "Python"]> {[ "extensions" := str_list ["py"] ]})))]
  = save_config
      [("python", <["name" := VStr "Python"]>
                    (<["zed_language" := VStr "Python"]> {[ "extensions" := str_list ["py"] ]}))].
Proof.
  apply save_config_written_fields.
  constructor; [|constructor]. split; [reflexivity|].
  intros field Hfield. apply lookup_insert_ne. intros <-.
  revert Hfield. apply (bool_decide_unpack (¬ _)). reflexivity.
Defined.

Lemma dict_get_Permutation {A} (d d' : list (string * A)) k :
  is_dict d → d ≡ₚ d' → dict_get d k = dict_get d' k.
Proof.
  intros Hd Hperm.
  assert (is_dict d') as Hd' by (unfold is_dict in *; rewrite <- Hperm; exact Hd).
  destruct (dict_get d k) as [v|] eqn:Hget.
  - symmetry. apply dict_get_NoDup; [exact Hd'|].
    rewrite <- Hperm. apply dict_get_elem_of, Hget.
  - destruct (dict_get d' k) as [v'|] eqn:Hget'; [|reflexivity].
    apply dict_get_elem_of in Hget'. rewrite <- Hperm in Hget'.
    rewrite (dict_get_NoDup _ _ _ Hd Hget') in Hget. discriminate.
Qed.

(** X25. The text that [save_config] writes does not depend on the order
    in which the registry holds its entries. *)
Theorem save_config_insertion_order (cfg cfg' : config) :
  is_dict cfg → cfg ≡ₚ cfg' → save_config cfg = save_config cfg'.
Proof.
  intros Hdict Hperm. unfold save_config.
  assert (Py.sorted (keys cfg) = Py.sorted (keys cfg')) as <-
    by (apply sorted_Permutation; unfold keys; rewrite Hperm; reflexivity).
  rewrite (save_entries_ext cfg cfg'); [reflexivity|].
  intros k _. rewrite <- (dict_get_Permutation cfg cfg' k Hdict Hperm).
  destruct (dict_get cfg k); done.
Qed.

Lemma save_config_insertion_order_witness :
  let python := <["name" := VStr "Python"]>
                  (<["zed_language" := VStr "Python"]> {[ "extensions" := str_list ["py"] ]}) in
  let just := <["name" := VStr "Just"]>
                (<["zed_language" := VStr "Just"]> {[ "filenames" := str_list ["Justfile"] ]}) in
  save_config [("python", python); ("just", just)]
  = save_config [("just", just); ("python", python)].
Proof.
  intros python just. apply save_config_insertion_order; [|apply perm_swap].
  apply (bool_decide_unpack _). reflexivity.
Defined.

Lemma save_entries_outcome (cfg : config) ids :
  ids ⊆ keys cfg →
  match save_entries cfg ids with
  | Ok _ =>
      ∀ k info, k ∈ ids → dict_get cfg k = Some info →
                is_Some (info !! "name") ∧ is_Some (info !! "zed_language")
  | Raise exc => exc = "KeyError: 'name'" ∨ exc = "KeyError: 'zed_language'"
  | Exit _ => False
  end.
Proof.
  induction ids as [|k ids IH]; intros Hsub; [intros k info []%elem_of_nil|].
  cbn [save_entries].
  destruct (dict_get_is_Some cfg k) as [info Hget]; [apply Hsub; left|].
  rewrite Hget. unfold entry_lines at 1.
  destruct (info !! "name") as [name|] eqn:Hname; [|left; reflexivity].
  destruct (info !! "zed_language") as [zed|] eqn:Hzed; [|right; reflexivity].
  destruct (write_detection info) as [written detection_written].
  cbn [mbind result_bind].
  specialize (IH ltac:(intros k' Hk'; apply Hsub; right; exact Hk')).
  destruct (save_entries cfg ids) as [rest|e|exc]; cbn [mbind result_bind];
    [|exact IH..].
  intros k' info' [->|Hk']%elem_of_cons Hget'; [|eauto].
  rewrite Hget in Hget'. injection Hget' as <-. rewrite Hname, Hzed. eauto.
Qed.

(** X26. On a registry with distinct keys [save_config] returns a text
    exactly when every entry has a [name] and a [zed_language]; otherwise
    it raises the [KeyError] of one of the two fields, before anything is
    written. *)
Theorem save_config_succeeds (cfg : config) :
  is_dict cfg →
  ((∃ text, save_config cfg = Ok text) ↔
     Forall (λ item, is_Some (item.2 !! "name") ∧ is_Some (item.2 !! "zed_language")) cfg) ∧
  ((∀ text, save_config cfg ≠ Ok text) →
     save_config cfg = Raise "KeyError: 'name'"
     ∨ save_config cfg = Raise "KeyError: 'zed_language'").
Proof.
  intros Hdict.
  assert (Py.sorted (keys cfg) ⊆ keys cfg) as Hsub
    by (intros k Hk; apply sorted_elem_of, Hk).
  pose proof (save_entries_outcome cfg _ Hsub) as Houtcome.
  unfold save_config. split; [split|].
  - intros [text Htext].
    destruct (save_entries cfg (Py.sorted (keys cfg))) as [lines| |]; try discriminate.
    apply Forall_forall. intros [k info] Hin. cbn [snd].
    apply (Houtcome k info).
    + apply sorted_elem_of. unfold keys. apply list_elem_of_fmap. exists (k, info). done.
    + apply dict_get_NoDup; assumption.
  - intros Hfields. rewrite (save_entries_lookup_all cfg _ Hfields Hsub).
    eexists. reflexivity.
  - intros Hfail.
    destruct (save_entries cfg (Py.sorted (keys cfg))) as [lines|e|exc];
      cbn [mbind result_bind] in *.
    + destruct (Hfail _ eq_refl).
    + destruct Houtcome.
    + destruct Houtcome as [-> | ->]; auto.
Qed.

Lemma save_config_succeeds_witness :
  let cfg : config := [("a", {[ "zed_language" := VStr "a" ]})] in
  ((∃ text, save_config cfg = Ok text) ↔
     Forall (λ item, is_Some (item.2 !! "name") ∧ is_Some (item.2 !! "zed_language")) cfg) ∧
  ((∀ text, save_config cfg ≠ Ok text) →
     save_config cfg = Raise "KeyError: 'name'"
     ∨ save_config cfg = Raise "KeyError: 'zed_language'").
Proof.
  intros cfg. apply save_config_succeeds. apply (bool_decide_unpack _). reflexivity.
Defined.

Lemma validated_entry_fields lang_id (info : gmap string value) :
  validate_config_entry lang_id info = [] →
  is_Some (info !! "name") ∧ is_Some (info !! "zed_language").
Proof.
  unfold validate_config_entry, REQUIRED_LANG_FIELDS. cbn [app omap list_omap].
  intros [[[H _]%app_eq_nil _]%app_eq_nil _]%app_eq_nil. revert H.
  destruct (info !! "name"); [|discriminate].
  destruct (info !! "zed_language"); [|discriminate]. eauto.
Qed.

Lemma validate_config_entries (cfg : config) :
  validate_config cfg = Ok tt →
  cfg ≠ [] ∧ Forall (λ item, validate_config_entry item.1 item.2 = []) cfg.
Proof.
  unfold validate_config. destruct cfg as [|item cfg]; [discriminate|].
  destruct (flat_map _ (item :: cfg)) as [|e errors] eqn:Herrors; [|discriminate].
  intros _. split; [discriminate|]. apply Forall_forall. intros [k info] Hin.
  cbn [fst snd]. destruct (validate_config_entry k info) as [|e errors] eqn:He;
    [reflexivity|].
  assert (e ∈ flat_map (λ '(lang_id, info), validate_config_entry lang_id info)
                (item :: cfg)) as H.
  { apply list_elem_of_In, in_flat_map. exists (k, info).
    split; [apply list_elem_of_In, Hin|]. rewrite He. left. reflexivity. }
  rewrite Herrors in H. apply elem_of_nil in H as [].
Qed.

(** X27. A registry that passes [validate_config] can be saved:
    [save_config] returns a text for it and does not raise. *)
Theorem validated_config_saves (cfg : config) :
  validate_config cfg = Ok tt → ∃ text, save_config cfg = Ok text.
Proof.
  intros [_ Hentries]%validate_config_entries.
  rewrite save_config_in_file_order; [eexists; reflexivity|].
  eapply Forall_impl; [exact Hentries|].
  intros [k info]. apply validated_entry_fields.
Qed.

Lemma validated_config_saves_witness :
  ∃ text,
    save_config
      [("python", <["name" := VStr "Python"]>
                    (<["zed_language" := VStr "Python"]> {[ "extensions" := str_list ["py"] ]}))]
    = Ok text.
Proof. apply validated_config_saves. by_evaluation. Defined.

End persistence.

(** *** generate.py: [sort_config] *)

Section sorting_the_file.
Import Generate.

Lemma save_canonical (cfg : config) :
  is_dict cfg →
  save_config (canonical_item <$> in_file_order cfg) =
    Ok (Py.join newline (header_lines ++ flat_map block_of (in_file_order cfg))).
Proof.
  intros Hdict. rewrite save_config_in_file_order.
  2: { apply Forall_fmap, Forall_forall. intros item _. apply canonical_fields. }
  assert (keys (canonical_item <$> in_file_order cfg) = Py.sorted (keys cfg)) as Hkeys.
  { unfold keys. rewrite <- list_fmap_compose.
    change (fst ∘ canonical_item) with (fst : string * gmap string value → string).
    apply in_file_order_keys. }
  assert (in_file_order (canonical_item <$> in_file_order cfg)
          = canonical_item <$> in_file_order cfg) as ->.
  { unfold in_file_order at 1. rewrite Hkeys, sorted_idem, <- Hkeys.
    apply lookup_all_self. unfold is_dict.
    fold (keys (canonical_item <$> in_file_order cfg)).
    rewrite Hkeys. unfold Py.sorted. rewrite merge_sort_Permutation. exact Hdict. }
  clear Hkeys. do 3 f_equal.
  induction (in_file_order cfg) as [|item items IH]; [reflexivity|].
  rewrite fmap_cons. cbn [flat_map]. rewrite block_of_canonical, IH. reflexivity.
Qed.

Lemma plain_values_strings items :
  forallb plain_value items = true →
  existsb (λ item, negb (is_str item)) items = false.
Proof.
  induction items as [|v items IH]; [reflexivity|]. cbn [forallb existsb].
  intros [Hv Hitems]%andb_prop. rewrite (IH Hitems).
  destruct v; try discriminate. reflexivity.
Qed.

Lemma plain_entry_lists (info : gmap string value) field items :
  plain_entry info = true → field ∈ DETECTION_FIELDS →
  well_formed_list info field = Some items →
  existsb (λ item, negb (is_str item)) items = false.
Proof.
  unfold plain_entry. intros [[_ Hfields]%andb_prop _]%andb_prop Hfield Hitems.
  rewrite forallb_forall in Hfields.
  specialize (Hfields field ltac:(apply list_elem_of_In, Hfield)).
  unfold plain_field in Hfields. unfold well_formed_list in Hitems.
  destruct (info !! field) as [[| | |items']|]; try discriminate.
  injection Hitems as ->. apply plain_values_strings, Hfields.
Qed.

Lemma canonical_validates lang_id (info : gmap string value) :
  plain_entry info = true → has_valid_source info →
  validate_config_entry lang_id (canonical info) = [].
Proof.
  intros Hplain (src & Hsrc & Htag).
  pose proof (λ items, plain_entry_lists info "extensions" items Hplain ltac:(left)) as He.
  pose proof (λ items, plain_entry_lists info "suffixes" items Hplain ltac:(right; left))
    as Hs.
  pose proof (λ items, plain_entry_lists info "filenames" items Hplain
                         ltac:(do 2 right; left)) as Hf.
  unfold validate_config_entry, REQUIRED_LANG_FIELDS, DETECTION_FIELDS.
  cbn [omap list_omap existsb]. rewrite !canonical_lookup.
  unfold entry_pairs, detection_pairs, DETECTION_FIELDS. cbn [flat_map].
  rewrite Hsrc. cbn [py_str].
  assert (in_strings (VStr src) (Source.value <$> Source.all) = true) as Hvalid
    by (apply bool_decide_eq_true; exact Htag).
  destruct (well_formed_list info "extensions") as [e|];
    destruct (well_formed_list info "suffixes") as [s|];
    destruct (well_formed_list info "filenames") as [f|];
    cbn [app dict_get fst snd];
    repeat first [rewrite decide_False by done | rewrite decide_True by done];
    cbv beta iota;
    rewrite ?(He _ eq_refl), ?(Hs _ eq_refl), ?(Hf _ eq_refl), ?Hvalid;
    rewrite ?bool_decide_true by eauto; reflexivity.
Qed.

Lemma validate_config_Ok (cfg : config) :
  cfg ≠ [] → Forall (λ item, validate_config_entry item.1 item.2 = []) cfg →
  validate_config cfg = Ok tt.
Proof.
  intros Hne Hentries. unfold validate_config. destruct cfg as [|item cfg]; [done|].
  assert (flat_map (λ '(lang_id, info), validate_config_entry lang_id info) (item :: cfg) = [])
    as ->; [|reflexivity].
  clear Hne. induction Hentries as [|[k info] l Hitem _ IH]; [reflexivity|].
  cbn [flat_map fst snd] in *. rewrite Hitem, IH. reflexivity.
Qed.

Lemma validated_valid_source lang_id (info : gmap string value) :
  validate_config_entry lang_id info = [] → has_valid_source info.
Proof.
  unfold validate_config_entry. intros [_ Hsource]%app_eq_nil.
  apply valid_source_accepted. destruct (info !! "source") as [src|]; [|reflexivity].
  destruct (in_strings src _); [reflexivity|discriminate Hsource].
Qed.

(** X28. [sort_config] leaves alone a file that [save_config] wrote: for
    a registry that passes [validate_config], whose [lang_id]s are
    distinct bare keys and whose texts are plain strings, sorting the
    saved file writes the same text again and reports the number of
    entries. *)
Theorem sort_config_saved (CONFIG_PATH : string) (cfg : config) (text : string) :
  is_dict cfg → plain_config cfg = true → validate_config cfg = Ok tt →
  save_config cfg = Ok text →
  sort_config CONFIG_PATH (Some text) =
    Ok (text, "Sorted " +:+ pretty (length cfg) +:+ " languages in languages.toml").
Proof.
  intros Hdict Hplain [Hne Hvalid]%validate_config_entries Hsave.
  rewrite save_config_in_file_order in Hsave.
  2: { eapply Forall_impl; [exact Hvalid|]. intros [k info]. apply validated_entry_fields. }
  assert (Py.join newline (header_lines ++ flat_map block_of (in_file_order cfg)) = text)
    as Htext by congruence.
  assert (load_config CONFIG_PATH (Some text) = Ok (canonical_item <$> in_file_order cfg))
    as Hload by (rewrite <- Htext; apply load_saved; assumption).
  unfold sort_config, load_and_validate_config. rewrite Hload. cbn [mbind result_bind].
  assert (length (in_file_order cfg) = length cfg) as Hlength.
  { rewrite <- (length_fmap fst), in_file_order_keys, sorted_length.
    unfold keys. apply length_fmap. }
  rewrite validate_config_Ok.
  - cbn [mbind result_bind]. rewrite (save_canonical cfg Hdict), Htext.
    cbn [mbind result_bind]. rewrite length_fmap, Hlength. reflexivity.
  - intros Hnil. apply (f_equal length) in Hnil. rewrite length_fmap, Hlength in Hnil.
    destruct cfg; [done|discriminate].
  - apply Forall_fmap, Forall_forall. intros [k info] Hin%lookup_all_elem_of.
    cbn [canonical_item fst snd]. rewrite Forall_forall in Hvalid.
    apply canonical_validates.
    + apply plain_config_items in Hplain. rewrite Forall_forall in Hplain.
      apply (Hplain _ Hin).
    + apply (validated_valid_source k), (Hvalid _ Hin).
Qed.

Lemma sort_config_saved_witness :
  let cfg : config :=
    [("python", <["name" := VStr "Python"]> (<["zed_language" := VStr "Python"]>
                  (<["source" := VStr "native"]> {[ "extensions" := str_list ["py"; "pyi"] ]})));
     ("just", <["name" := VStr "Just"]> (<["zed_language" := VStr "Just"]>
                {[ "filenames" := str_list ["Justfile"] ]}))] in
  let text :=
    Py.join newline
      (header_lines ++
       ["[just]"; "name = " +:+ quoted "Just"; "zed_language = " +:+ quoted "Just";
        "filenames = [" +:+ quoted "Justfile" +:+ "]"; "source = " +:+ quoted "extra"; "";
        "[python]"; "name = " +:+ quoted "Python"; "zed_language = " +:+ quoted "Python";
        "extensions = [" +:+ quoted "py" +:+ ", " +:+ quoted "pyi" +:+ "]";
        "source = " +:+ quoted "native"; ""]) in
  sort_config "languages.toml" (Some text) =
    Ok (text, "Sorted " +:+ pretty (length cfg) +:+ " languages in languages.toml").
Proof.
  intros cfg text. apply (sort_config_saved "languages.toml" cfg text).
  - apply (bool_decide_unpack _). reflexivity.
  - reflexivity.
  - by_evaluation.
  - by_evaluation.
Defined.

End sorting_the_file.

(** *** Detection tokens as [generate.py] and [sync_zed_languages.py] see them *)

Section two_views.
Import Generate.

Lemma as_str_list_elem_of v strs s :
  as_str_list v = Some strs → s ∈ strs → ∃ items, v = VList items ∧ VStr s ∈ items.
Proof.
  destruct v as [| | |items]; try discriminate. cbn [as_str_list].
  intros Hitems%mapM_Some Hs. exists items. split; [reflexivity|].
  induction Hitems as [|v t items strs Hv _ IH]; [apply elem_of_nil in Hs as []|].
  apply elem_of_cons in Hs as [->|Hs]; [|right; apply IH, Hs].
  destruct v; try discriminate. injection Hv as ->. left.
Qed.

Lemma typed_detection (raw : gmap string value) (info : LanguageConfig) :
  typed raw = Some info →
  not_required as_str_list (raw !! "extensions") = Some (extensions info) ∧
  not_required as_str_list (raw !! "suffixes") = Some (suffixes info) ∧
  not_required as_str_list (raw !! "filenames") = Some (filenames info).
Proof.
  unfold typed.
  destruct (raw !! "name" ≫= as_str) as [name|]; [|discriminate].
  destruct (raw !! "zed_language" ≫= as_str) as [zed|]; [|discriminate].
  destruct (not_required as_str_list (raw !! "extensions")) as [e|]; [|discriminate].
  destruct (not_required as_str_list (raw !! "suffixes")) as [s|]; [|discriminate].
  destruct (not_required as_str_list (raw !! "filenames")) as [f|]; [|discriminate].
  destruct (not_required as_str (raw !! "source")) as [src|]; [|discriminate].
  destruct (not_required as_bool (raw !! "enabled")) as [en|]; [|discriminate].
  cbn [mbind option_bind]. intros [= <-]. done.
Qed.

Lemma not_required_elem_of (field : option value) strs s :
  not_required as_str_list field = Some (Some strs) → s ∈ strs →
  ∃ items, field = Some (VList items) ∧ VStr s ∈ items.
Proof.
  destruct field as [v|]; [|discriminate]. cbn [not_required].
  destruct (as_str_list v) as [strs'|] eqn:Hv; [|discriminate].
  intros [= <-] Hs. destruct (as_str_list_elem_of _ _ _ Hv Hs) as (items & -> & Hin).
  eauto.
Qed.

(** X29. The two scripts read the detection tokens of an entry
    differently, but every non-empty token that [generate.py] uses is a
    token for [sync_zed_languages.py] too.  So an entry that generation
    can use, because it has a non-empty token, is never backfilled. *)
Theorem generation_tokens_block_backfill (lang_id : string) (raw : gmap string value)
    (info : LanguageConfig) (zed_by_lang : gmap string Sync.LanguageInfo) :
  typed raw = Some info →
  (∀ s, s ∈ get_detection_tokens info → s ≠ "" →
        s ∈ Sync.get_config_detection_tokens raw) ∧
  ((∃ s, s ∈ get_detection_tokens info ∧ s ≠ "") →
   Sync.backfill_entry lang_id raw zed_by_lang = Ok (raw, false)).
Proof.
  intros (He & Hs & Hf)%typed_detection.
  assert (∀ s, s ∈ get_detection_tokens info → s ≠ "" →
               s ∈ Sync.get_config_detection_tokens raw) as Htokens.
  { intros s Hin Hne. unfold Sync.get_config_detection_tokens.
    apply foldl_detection_tokens. right.
    assert (∃ field strs, field ∈ ["suffixes"; "filenames"; "extensions"] ∧
              not_required as_str_list (raw !! field) = Some (Some strs) ∧ s ∈ strs)
      as (field & strs & Hfield & Hstrs & Hmem).
    { revert Hin He Hs Hf. unfold get_detection_tokens.
      destruct (suffixes info) as [sfx|], (filenames info) as [fns|];
        cbn [app]; rewrite ?dict_fromkeys_elem, ?elem_of_app.
      - intros [Hin|Hin] He Hs Hf.
        + exists "suffixes", sfx. split; [left|split; assumption].
        + exists "filenames", fns. split; [right; left|split; assumption].
      - intros Hin He Hs Hf.
        exists "suffixes", sfx. split; [left|split; assumption].
      - intros Hin He Hs Hf.
        exists "filenames", fns. split; [right; left|split; assumption].
      - destruct (extensions info) as [exts|]; [|intros []%elem_of_nil].
        intros Hin He Hs Hf.
        exists "extensions", exts. split; [do 2 right; left|split; assumption]. }
    destruct (not_required_elem_of _ _ _ Hstrs Hmem) as (items & Hitems & Hitem).
    exists field, items. auto. }
  split; [exact Htokens|]. intros (s & Hin & Hne).
  unfold Sync.backfill_entry.
  destruct (Sync.get_config_detection_tokens raw) eqn:Hraw; [|reflexivity].
  pose proof (Htokens s Hin Hne) as H. apply elem_of_nil in H as [].
Qed.

Lemma generation_tokens_block_backfill_witness :
  let raw : gmap string value :=
    <["name" := VStr "Just"]> (<["zed_language" := VStr "Just"]>
      {[ "filenames" := str_list ["Justfile"] ]}) in
  let info := {| name := "Just"; zed_language := "Just"; extensions := None;
                 suffixes := None; filenames := Some ["Justfile"]; source := None;
                 enabled := None |} in
  (∀ s, s ∈ get_detection_tokens info → s ≠ "" →
        s ∈ Sync.get_config_detection_tokens raw) ∧
  ((∃ s, s ∈ get_detection_tokens info ∧ s ≠ "") →
   Sync.backfill_entry "just" raw ∅ = Ok (raw, false)).
Proof.
  intros raw info. apply (generation_tokens_block_backfill "just" raw info ∅).
  by_evaluation.
Defined.

(** The converse fails: an entry with an empty [suffixes] list and an
    extension has a token for the reconciliation, which therefore never
    backfills it, and none for generation, which leaves it out. *)
Example registry_token_unused_by_generation :
  let raw : gmap string value :=
    <["name" := VStr "Python"]> (<["zed_language" := VStr "Python"]>
      (<["suffixes" := VList []]> {[ "extensions" := str_list ["py"] ]})) in
  let info := {| name := "Python"; zed_language := "Python"; extensions := Some ["py"];
                 suffixes := Some []; filenames := None; source := None; enabled := None |} in
  typed raw = Some info ∧
  Sync.get_config_detection_tokens raw = ["py"] ∧
  get_detection_tokens info = [] ∧
  should_include info {| sort := false; all := true; native := false; ext := false |} = false.
Proof. repeat split; by_evaluation. Qed.

End two_views.

(** *** sync_zed_languages.py: fetching one kind of language only *)

Section fetching.
Import Sync.

(** X30. When exactly one of [--native] and [--ext] is given, [main]
    fetches only that kind of language, so the set of names of the other
    kind is empty when [update_sources] runs: afterwards no entry has the
    source of the kind that was not fetched.  With [--native] alone, for
    instance, an entry that was tagged [extension] is tagged [native] or
    [extra] afterwards. *)
Theorem update_sources_after_partial_fetch
    (get_native_languages get_extension_languages : result (list LanguageInfo))
    (args : SyncArgs) (native_langs ext_langs : list LanguageInfo)
    (cfg cfg' : config) (updated : nat) :
  native args = negb (ext args) →
  fetch_zed_languages get_native_languages get_extension_languages
    (get_fetch_flags args).1 (get_fetch_flags args).2 = Ok (native_langs, ext_langs) →
  update_sources cfg (list_to_set (zed_language <$> native_langs))
    (list_to_set (zed_language <$> ext_langs)) = Ok (cfg', updated) →
  (if native args then ext_langs = [] else native_langs = []) ∧
  Forall (λ item,
            item.2 !! "source" ≠
              Some (VStr (if native args then "extension" else "native")))
         cfg'.
Proof.
  intros Hone Hfetch Hupdate%update_sources_entries.
  assert (if native args then ext_langs = [] else native_langs = []) as Hempty.
  { revert Hfetch. unfold fetch_zed_languages, get_fetch_flags. rewrite Hone.
    destruct (ext args); cbn [negb andb orb fst snd].
    - intros H. cbn [mbind result_bind] in H.
      destruct get_extension_languages; cbn [mbind result_bind] in H; congruence.
    - destruct get_native_languages as [langs| |]; cbn [mbind result_bind]; congruence. }
  split; [exact Hempty|].
  induction Hupdate as [|[k info] [k' info'] cfg cfg' Hentry _ IH]; constructor;
    [|exact IH].
  destruct Hentry as (_ & changed & He). cbn [fst snd] in *.
  apply update_source_outcome in He as (key & _ & -> & _).
  destruct (native args); rewrite Hempty; intros [= Hsource]; revert Hsource;
    unfold classify; destruct key as [z|]; try discriminate;
    rewrite ?fmap_nil; cbn [list_to_set];
    repeat case_bool_decide; try discriminate;
    match goal with H : _ ∈ ∅ |- _ => apply elem_of_empty in H as [] end.
Qed.

Lemma update_sources_after_partial_fetch_witness :
  let python := {| id := "python"; name := "Python"; zed_language := "Python";
                   extensions := ["py"]; source := Source.NATIVE; syntax_signature := "" |} in
  let args := {| list_mode := false; add := false; diff := false; classify_mode := false;
                 classify_json := None; native := true; ext := false |} in
  let cfg' : config :=
    [("python", <["source" := VStr "native"]> {[ "zed_language" := VStr "Python" ]});
     ("zig", <["source" := VStr "extra"]> {[ "zed_language" := VStr "Zig" ]})] in
  (if native args then @nil LanguageInfo = [] else [python] = []) ∧
  Forall (λ item,
            item.2 !! "source" ≠
              Some (VStr (if native args then "extension" else "native")))
         cfg'.
Proof.
  intros python args cfg'.
  apply (update_sources_after_partial_fetch (Ok [python]) (Raise "not called") args
           [python] []
           [("python", <["source" := VStr "native"]> {[ "zed_language" := VStr "Python" ]});
            ("zig", <["source" := VStr "extension"]> {[ "zed_language" := VStr "Zig" ]})]
           cfg' 1); [reflexivity|reflexivity|by_evaluation].
Defined.

End fetching.
